(** * arqut-server-ce: credentials, TURN authentication, peer registry,
    signaling hub, service sync and the REST handlers

  A shallow embedding of the Go sources.  Go strings are byte strings and
  are modelled as [string]; [int] and [int64] are modelled as [Z] with the
  64-bit wrap-around written out where the source computes with them; Go
  maps keyed by strings are [gmap string _]; pointers that the source
  shares between the registry and the connections are locations of an
  explicit heap. *)

From Stdlib Require Import ZArith Ascii String.
From stdpp Require Import gmap strings list fin_maps.

Local Open Scope string_scope.
Local Open Scope list_scope.
Local Open Scope Z_scope.

(* ===================================================================== *)
(** * Part I: definitions *)
(* ===================================================================== *)

(** ** The Go standard library functions the sources call *)

Module Go.

(** Two's complement wrap-around of a 64-bit signed integer. *)
Definition wrap64 (x : Z) : Z := (x + 2 ^ 63) mod 2 ^ 64 - 2 ^ 63.

Definition MinInt64 : Z := - 2 ^ 63.
Definition MaxInt64 : Z := 2 ^ 63 - 1.

Definition byteOf (c : ascii) : Z := Z.of_N (N_of_ascii c).

Definition bytesOf (s : string) : list Z := List.map byteOf (list_ascii_of_string s).

Definition asciiOf (b : Z) : ascii := ascii_of_N (Z.to_N b).

(** [strings.Cut s sep] for a one-byte separator: the text before and
    after the first occurrence of [sep], if there is one. *)
Fixpoint Cut (s : string) (sep : ascii) : option (string * string) :=
  match s with
  | EmptyString => None
  | String c rest =>
      if Ascii.eqb c sep then Some (EmptyString, rest)
      else match Cut rest sep with
           | Some (a, b) => Some (String c a, b)
           | None => None
           end
  end.

(** [strings.SplitN s sep n] for a one-byte separator: at most [n]
    substrings, the last one being the unsplit remainder; [n = 0] gives
    the empty slice. *)
Fixpoint SplitN (s : string) (sep : ascii) (n : nat) : list string :=
  match n with
  | O => []
  | S O => [s]
  | S n' =>
      match Cut s sep with
      | None => [s]
      | Some (a, b) => a :: SplitN b sep n'
      end
  end.

(** [strings.IndexByte(s, c) >= 0] *)
Fixpoint ContainsByte (s : string) (c : ascii) : bool :=
  match s with
  | EmptyString => false
  | String d rest => Ascii.eqb d c || ContainsByte rest c
  end.

Definition isDigit (c : ascii) : bool :=
  (48 <=? byteOf c) && (byteOf c <=? 57).

Definition digitVal (c : ascii) : Z := byteOf c - 48.

Definition digitChar (d : Z) : ascii := asciiOf (48 + d).

(** The digit loop of [strconv.ParseUint] in base 10. *)
Fixpoint parseDigits (s : string) (acc : Z) : option Z :=
  match s with
  | EmptyString => Some acc
  | String c rest =>
      if isDigit c then parseDigits rest (acc * 10 + digitVal c) else None
  end.

(** [strconv.ParseUint s 10 64]: [None] stands for both of Go's errors
    (syntax and range). *)
Definition ParseUint (s : string) : option Z :=
  match s with
  | EmptyString => None
  | _ =>
      match parseDigits s 0 with
      | Some n => if n <? 2 ^ 64 then Some n else None
      | None => None
      end
  end.

(** [strconv.ParseInt s 10 64]. *)
Definition ParseInt (s : string) : option Z :=
  match s with
  | EmptyString => None
  | String c rest =>
      let neg := Ascii.eqb c "-" in
      let body := if Ascii.eqb c "+" || neg then rest else s in
      match ParseUint body with
      | None => None
      | Some un =>
          if negb neg && (2 ^ 63 <=? un) then None
          else if neg && (2 ^ 63 <? un) then None
          else Some (if neg then - un else un)
      end
  end.

(** The digit loop of [strconv.FormatInt] in base 10: the digits of [n]
    are put in front of [suffix], least significant first.  Twenty rounds
    cover every 64-bit magnitude. *)
Fixpoint formatDigits (fuel : nat) (n : Z) (suffix : string) : string :=
  match fuel with
  | O => suffix
  | S fuel' =>
      let out := String (digitChar (n mod 10)) suffix in
      if n <? 10 then out else formatDigits fuel' (n / 10) out
  end.

(** [strconv.FormatInt n 10], which is what the verb [%d] prints. *)
Definition FormatInt (n : Z) : string :=
  if n <? 0 then String "-" (formatDigits 20 (- n) EmptyString)
  else formatDigits 20 n EmptyString.

(** *** package time *)

(** A [time.Time] as its wall clock reading: seconds since January 1,
    year 1 (a 64-bit integer) and nanoseconds within the second. *)
Record Time := mkTime { sec : Z; nsec : Z }.

Definition unixToInternal : Z := 62135596800.

Definition zeroTime : Time := mkTime 0 0.

Definition IsZero (t : Time) : bool := (sec t =? 0) && (nsec t =? 0).

(** [time.Unix s 0] *)
Definition Unix (s : Z) : Time := mkTime (wrap64 (s + unixToInternal)) 0.

(** [t.Unix()] *)
Definition toUnix (t : Time) : Z := wrap64 (sec t - unixToInternal).

Definition Before (t u : Time) : bool :=
  (sec t <? sec u) || ((sec t =? sec u) && (nsec t <? nsec u)).

Definition After (t u : Time) : bool :=
  (sec u <? sec t) || ((sec t =? sec u) && (nsec u <? nsec t)).

Definition Second : Z := 1000000000.
Definition Hour : Z := 3600 * Second.

(** [t.Add d] for a duration [d] in nanoseconds. *)
Definition Add (t : Time) (d : Z) : Time :=
  let dsec := Z.quot d Second in
  let ns := nsec t + Z.rem d Second in
  if Second <=? ns then mkTime (wrap64 (sec t + dsec + 1)) (ns - Second)
  else if ns <? 0 then mkTime (wrap64 (sec t + dsec - 1)) (ns + Second)
  else mkTime (wrap64 (sec t + dsec)) ns.

End Go.

(** ** The hash functions behind [crypto/hmac], [crypto/sha256],
     [crypto/md5] and [encoding/base64] *)

Module Crypto.

Definition w32 (x : Z) : Z := x mod 2 ^ 32.

Definition rotr (n x : Z) : Z := Z.lor (Z.shiftr x n) (w32 (Z.shiftl x (32 - n))).
Definition rotl (n x : Z) : Z := Z.lor (w32 (Z.shiftl x n)) (Z.shiftr x (32 - n)).
Definition not32 (x : Z) : Z := Z.lxor x 4294967295.

(** Big-endian and little-endian byte order of 32-bit and 64-bit words. *)
Definition be32 (x : Z) : list Z :=
  [Z.shiftr x 24 mod 256; Z.shiftr x 16 mod 256; Z.shiftr x 8 mod 256; x mod 256].
Definition le32 (x : Z) : list Z :=
  [x mod 256; Z.shiftr x 8 mod 256; Z.shiftr x 16 mod 256; Z.shiftr x 24 mod 256].
Definition be64 (x : Z) : list Z := be32 (Z.shiftr x 32 mod 2 ^ 32) ++ be32 (x mod 2 ^ 32).
Definition le64 (x : Z) : list Z := le32 (x mod 2 ^ 32) ++ le32 (Z.shiftr x 32 mod 2 ^ 32).

Fixpoint wordsBE (bs : list Z) : list Z :=
  match bs with
  | a :: b :: c :: d :: rest =>
      (Z.shiftl a 24 + Z.shiftl b 16 + Z.shiftl c 8 + d) :: wordsBE rest
  | _ => []
  end.

Fixpoint wordsLE (bs : list Z) : list Z :=
  match bs with
  | a :: b :: c :: d :: rest =>
      (a + Z.shiftl b 8 + Z.shiftl c 16 + Z.shiftl d 24) :: wordsLE rest
  | _ => []
  end.

(** The message followed by 0x80 and zero bytes up to 56 modulo 64. *)
Definition padZeros (len : Z) : list Z :=
  0x80 :: List.repeat 0 (Z.to_nat ((55 - len) mod 64)).

(** Blocks of sixteen words. *)
Fixpoint blocks (fuel : nat) (ws : list Z) : list (list Z) :=
  match fuel with
  | O => []
  | S fuel' =>
      match ws with
      | [] => []
      | _ => take 16 ws :: blocks fuel' (drop 16 ws)
      end
  end.

(** *** SHA-256 (FIPS 180-4) *)

Definition K256 : list Z :=
  [1116352408; 1899447441; 3049323471; 3921009573; 961987163; 1508970993;
   2453635748; 2870763221; 3624381080; 310598401; 607225278; 1426881987;
   1925078388; 2162078206; 2614888103; 3248222580; 3835390401; 4022224774;
   264347078; 604807628; 770255983; 1249150122; 1555081692; 1996064986;
   2554220882; 2821834349; 2952996808; 3210313671; 3336571891; 3584528711;
   113926993; 338241895; 666307205; 773529912; 1294757372; 1396182291;
   1695183700; 1986661051; 2177026350; 2456956037; 2730485921; 2820302411;
   3259730800; 3345764771; 3516065817; 3600352804; 4094571909; 275423344;
   430227734; 506948616; 659060556; 883997877; 958139571; 1322822218;
   1537002063; 1747873779; 1955562222; 2024104815; 2227730452; 2361852424;
   2428436474; 2756734187; 3204031479; 3329325298].

Definition H256 : list Z :=
  [1779033703; 3144134277; 1013904242; 2773480762; 1359893119; 2600822924;
   528734635; 1541459225].

Definition nthZ (l : list Z) (i : nat) : Z := List.nth i l 0.

(** The message schedule, most recent word first. *)
Fixpoint schedule (n : nat) (rev : list Z) : list Z :=
  match n with
  | O => rev
  | S n' =>
      let w2 := nthZ rev 1 in
      let w7 := nthZ rev 6 in
      let w15 := nthZ rev 14 in
      let w16 := nthZ rev 15 in
      let s0 := Z.lxor (Z.lxor (rotr 7 w15) (rotr 18 w15)) (Z.shiftr w15 3) in
      let s1 := Z.lxor (Z.lxor (rotr 17 w2) (rotr 19 w2)) (Z.shiftr w2 10) in
      schedule n' (w32 (w16 + s0 + w7 + s1) :: rev)
  end.

Definition round256 (st : list Z) (kw : Z * Z) : list Z :=
  match st with
  | [a; b; c; d; e; f; g; h] =>
      let S1 := Z.lxor (Z.lxor (rotr 6 e) (rotr 11 e)) (rotr 25 e) in
      let ch := Z.lxor (Z.land e f) (Z.land (not32 e) g) in
      let t1 := w32 (h + S1 + ch + fst kw + snd kw) in
      let S0 := Z.lxor (Z.lxor (rotr 2 a) (rotr 13 a)) (rotr 22 a) in
      let maj := Z.lxor (Z.lxor (Z.land a b) (Z.land a c)) (Z.land b c) in
      let t2 := w32 (S0 + maj) in
      [w32 (t1 + t2); a; b; c; w32 (d + t1); e; f; g]
  | _ => st
  end.

Definition addWords (xs ys : list Z) : list Z :=
  List.map (fun p => w32 (fst p + snd p)) (List.combine xs ys).

Definition compress256 (st block : list Z) : list Z :=
  let w := List.rev (schedule 48 (List.rev block)) in
  addWords st (List.fold_left round256 (List.combine K256 w) st).

Definition sha256 (msg : list Z) : list Z :=
  let len := Z.of_nat (List.length msg) in
  let padded := msg ++ padZeros len ++ be64 (8 * len) in
  let bs := blocks (List.length padded) (wordsBE padded) in
  List.concat (List.map be32 (List.fold_left compress256 bs H256)).

(** *** HMAC (RFC 2104) over SHA-256, block size 64 *)

Definition hmacKey (key : list Z) : list Z :=
  let k := if 64 <? Z.of_nat (List.length key) then sha256 key else key in
  k ++ List.repeat 0 (64 - List.length k)%nat.

Definition hmac_sha256 (key msg : list Z) : list Z :=
  let k := hmacKey key in
  let ipad := List.map (Z.lxor 0x36) k in
  let opad := List.map (Z.lxor 0x5c) k in
  sha256 (opad ++ sha256 (ipad ++ msg)).

(** *** MD5 (RFC 1321) *)

Definition T5 : list Z :=
  [3614090360; 3905402710; 606105819; 3250441966; 4118548399; 1200080426;
   2821735955; 4249261313; 1770035416; 2336552879; 4294925233; 2304563134;
   1804603682; 4254626195; 2792965006; 1236535329; 4129170786; 3225465664;
   643717713; 3921069994; 3593408605; 38016083; 3634488961; 3889429448;
   568446438; 3275163606; 4107603335; 1163531501; 2850285829; 4243563512;
   1735328473; 2368359562; 4294588738; 2272392833; 1839030562; 4259657740;
   2763975236; 1272893353; 4139469664; 3200236656; 681279174; 3936430074;
   3572445317; 76029189; 3654602809; 3873151461; 530742520; 3299628645;
   4096336452; 1126891415; 2878612391; 4237533241; 1700485571; 2399980690;
   4293915773; 2240044497; 1873313359; 4264355552; 2734768916; 1309151649;
   4149444226; 3174756917; 718787259; 3951481745].

Definition S5 : list Z :=
  [7; 12; 17; 22; 7; 12; 17; 22; 7; 12; 17; 22; 7; 12; 17; 22;
   5; 9; 14; 20; 5; 9; 14; 20; 5; 9; 14; 20; 5; 9; 14; 20;
   4; 11; 16; 23; 4; 11; 16; 23; 4; 11; 16; 23; 4; 11; 16; 23;
   6; 10; 15; 21; 6; 10; 15; 21; 6; 10; 15; 21; 6; 10; 15; 21].

Definition H5 : list Z := [1732584193; 4023233417; 2562383102; 271733878].

Definition round5 (block : list Z) (st : list Z) (i : nat) : list Z :=
  match st with
  | [a; b; c; d] =>
      let zi := Z.of_nat i in
      let '(f, g) :=
        if zi <? 16 then (Z.lor (Z.land b c) (Z.land (not32 b) d), zi)
        else if zi <? 32 then (Z.lor (Z.land d b) (Z.land (not32 d) c), (5 * zi + 1) mod 16)
        else if zi <? 48 then (Z.lxor (Z.lxor b c) d, (3 * zi + 5) mod 16)
        else (Z.lxor c (Z.lor b (not32 d)), (7 * zi) mod 16) in
      let x := w32 (a + f + nthZ T5 i + nthZ block (Z.to_nat g)) in
      [d; w32 (b + rotl (nthZ S5 i) x); b; c]
  | _ => st
  end.

Definition compress5 (st block : list Z) : list Z :=
  addWords st (List.fold_left (round5 block) (List.seq 0 64) st).

Definition md5 (msg : list Z) : list Z :=
  let len := Z.of_nat (List.length msg) in
  let padded := msg ++ padZeros len ++ le64 (8 * len) in
  let bs := blocks (List.length padded) (wordsLE padded) in
  List.concat (List.map le32 (List.fold_left compress5 bs H5)).

(** *** Base64, standard alphabet with padding (RFC 4648) *)

Definition b64char (v : Z) : ascii :=
  if v <? 26 then Go.asciiOf (65 + v)
  else if v <? 52 then Go.asciiOf (97 + (v - 26))
  else if v <? 62 then Go.asciiOf (48 + (v - 52))
  else if v =? 62 then "+"%char
  else "/"%char.

Fixpoint base64 (bs : list Z) : string :=
  match bs with
  | [] => EmptyString
  | [a] =>
      String (b64char (Z.shiftr a 2))
        (String (b64char (Z.shiftl (a mod 4) 4)) "==")
  | [a; b] =>
      String (b64char (Z.shiftr a 2))
        (String (b64char (Z.shiftl (a mod 4) 4 + Z.shiftr b 4))
           (String (b64char (Z.shiftl (b mod 16) 2)) "="))
  | a :: b :: c :: rest =>
      String (b64char (Z.shiftr a 2))
        (String (b64char (Z.shiftl (a mod 4) 4 + Z.shiftr b 4))
           (String (b64char (Z.shiftl (b mod 16) 2 + Z.shiftr c 6))
              (String (b64char (c mod 64)) (base64 rest))))
  end.

Definition hexDigit (v : Z) : ascii :=
  if v <? 10 then Go.asciiOf (48 + v) else Go.asciiOf (87 + v).

Fixpoint hex (bs : list Z) : string :=
  match bs with
  | [] => EmptyString
  | b :: rest => String (hexDigit (Z.shiftr b 4)) (String (hexDigit (b mod 16)) (hex rest))
  end.

End Crypto.

(** ** internal/turn: the TURN authentication handler (auth.go, server.go)

  Logging has no effect on the results and is left out. *)

Module Turn.

(** [AuthHandler]: the mutex only serialises access to the three REST
    fields, which are read and replaced together. *)
Record AuthHandler := mkAuthHandler {
  mode : string;
  secret : string;
  oldSecrets : list string;
  ttl : Z;
  staticUsers : gmap string string
}.

Definition NewAuthHandler (mode secret : string) (oldSecrets : list string)
    (ttl : Z) (staticUsers : gmap string string) : AuthHandler :=
  mkAuthHandler mode secret oldSecrets ttl staticUsers.

(** [base64.StdEncoding.EncodeToString(mac.Sum(nil))] for the HMAC-SHA256
    of [username] under [secret]. *)
Definition restPassword (secret username : string) : string :=
  Crypto.base64 (Crypto.hmac_sha256 (Go.bytesOf secret) (Go.bytesOf username)).

(** [turn.GenerateAuthKey] of the relay library: the MD5 digest of
    [username ":" realm ":" password]. *)
Definition GenerateAuthKey (username realm password : string) : list Z :=
  Crypto.md5 (Go.bytesOf (username +:+ ":" +:+ realm +:+ ":" +:+ password)).

(** The loop of [restAuth] over the candidate secrets: an empty secret is
    skipped, and the first other one ends the loop with its key. *)
Fixpoint trySecrets (secrets : list string) (username realm : string)
    : option (list Z) :=
  match secrets with
  | [] => None
  | s :: rest =>
      if String.eqb s "" then trySecrets rest username realm
      else Some (GenerateAuthKey username realm (restPassword s username))
  end.

(** [restAuth]: [now1] and [now2] are the two readings of [time.Now()],
    in the order the function takes them; the result is the key when the
    Go function returns [(ha1, true)] and [None] when it returns
    [(nil, false)]. *)
Definition restAuth (h : AuthHandler) (username realm : string)
    (now1 now2 : Go.Time) : option (list Z) :=
  match Go.SplitN username ":" 3 with
  | [peerType; peerID; timestampStr] =>
      match Go.ParseInt timestampStr with
      | None => None
      | Some expiry =>
          let expiryTime := Go.Unix expiry in
          if Go.Before expiryTime now1 then None
          else
            let maxFutureTime := Go.Add now2 (48 * Go.Hour) in
            if Go.After expiryTime maxFutureTime then None
            else trySecrets (secret h :: oldSecrets h) username realm
      end
  | _ => None
  end.

Definition staticAuth (h : AuthHandler) (username realm : string)
    : option (list Z) :=
  match staticUsers h !! username with
  | None => None
  | Some password => Some (GenerateAuthKey username realm password)
  end.

Definition AuthenticateRequest (h : AuthHandler) (username realm : string)
    (now1 now2 : Go.Time) : option (list Z) :=
  if String.eqb (mode h) "rest" then restAuth h username realm now1 now2
  else if String.eqb (mode h) "static" then staticAuth h username realm
  else None.

Definition UpdateSecrets (h : AuthHandler) (current : string)
    (old : list string) (newTtl : Z) : AuthHandler :=
  mkAuthHandler (mode h) current old newTtl (staticUsers h).

End Turn.

(** ** internal/config: the part of the TURN configuration the handlers read *)

Module Config.

Record TurnConfig := mkTurnConfig {
  PublicIP : string;
  PortsTLS : Z;
  AuthMode : string;
  AuthSecret : string;
  AuthOldSecrets : list string;
  AuthTTLSeconds : Z;
  AuthStaticUsers : list (string * string)
}.

End Config.

(** ** Credential issuance ([generateTURNCredentials], the same function in
     the api and signaling packages) *)

Module Credentials.

(** [now] is the reading of [time.Now()]; the result is
    [(username, password, expiry)]. *)
Definition generateTURNCredentials (cfg : Config.TurnConfig) (now : Go.Time)
    (peerType peerID : string) (ttl : Z) : string * string * Z :=
  let expiry := Go.wrap64 (Go.toUnix now + ttl) in
  let username := peerType +:+ ":" +:+ peerID +:+ ":" +:+ Go.FormatInt expiry in
  let password := Turn.restPassword (Config.AuthSecret cfg) username in
  (username, password, expiry).

End Credentials.

(** ** internal/pkg/models *)

Module Models.

Record Peer := mkPeer {
  ID : string;
  Type_ : string;
  AccountID : string;
  PublicKey : string;
  EdgeID : string;
  Connected : bool;
  LastPing : Go.Time;
  CreatedAt : Go.Time
}.

Record EdgeService := mkEdgeService {
  svcID : string;
  svcEdgeID : string;
  svcName : string;
  svcTunnelPort : Z;
  svcLocalHost : string;
  svcLocalPort : Z;
  svcProtocol : string;
  svcEnabled : bool;
  svcCreatedAt : Go.Time;
  svcUpdatedAt : Go.Time
}.

(** A [SignalingMessage] the server writes: its [Data] is a JSON object
    with string values in every message modelled here. *)
Record SignalingMessage := mkMessage {
  msgType : string;
  msgData : list (string * string)
}.

End Models.

(** ** internal/storage: the SQLite storage (sqlite.go)

  The table [edge_services] is a finite map from the primary key [id] to
  the row.  The engine is taken to work (no I/O failure): an operation
  fails only for the reason the schema or the function itself gives.  The
  time stamps of a row are the ones the caller wrote.  The [journal]
  records, in order, the calls made on the [Storage] interface. *)

Module Storage.

Import Models.

Inductive Call :=
| CallCreate (id : string)
| CallUpdate (id : string)
| CallDelete (id : string)
| CallGet (id : string)
| CallList (edgeID : string).

Record SQLiteStorage := mkStorage {
  rows : gmap string EdgeService;
  journal : list Call
}.

Definition empty : SQLiteStorage := mkStorage ∅ [].

(** Go's [fmt.Errorf("...: %w", err)], with errors as their texts. *)
Definition wrapErr (prefix err : string) : string := prefix +:+ ": " +:+ err.

(** The engine's report of a second row with the same primary key. *)
Definition errUnique : string := "UNIQUE constraint failed: edge_services.id".

Definition errServiceNotFound : string := "service not found".

(** [db.Create]: an INSERT, refused when the primary key is taken. *)
Definition CreateEdgeService (st : SQLiteStorage) (service : EdgeService)
    : SQLiteStorage * option string :=
  let j := journal st ++ [CallCreate (svcID service)] in
  match rows st !! svcID service with
  | Some _ => (mkStorage (rows st) j, Some (wrapErr "failed to create service" errUnique))
  | None => (mkStorage (<[svcID service := service]> (rows st)) j, None)
  end.

(** [db.Save]: every column of the row with this primary key is written
    (the row is inserted when there is none). *)
Definition UpdateEdgeService (st : SQLiteStorage) (service : EdgeService)
    : SQLiteStorage * option string :=
  (mkStorage (<[svcID service := service]> (rows st))
     (journal st ++ [CallUpdate (svcID service)]), None).

(** [db.Delete] with [id = ?]; no row affected is "service not found". *)
Definition DeleteEdgeService (st : SQLiteStorage) (id : string)
    : SQLiteStorage * option string :=
  let j := journal st ++ [CallDelete id] in
  match rows st !! id with
  | Some _ => (mkStorage (delete id (rows st)) j, None)
  | None => (mkStorage (rows st) j, Some errServiceNotFound)
  end.

Definition GetEdgeService (st : SQLiteStorage) (id : string)
    : SQLiteStorage * (EdgeService + string) :=
  let st' := mkStorage (rows st) (journal st ++ [CallGet id]) in
  match rows st !! id with
  | Some service => (st', inl service)
  | None => (st', inr errServiceNotFound)
  end.

End Storage.

(** ** internal/registry: the peer registry (registry.go)

  The registry maps a peer id to a pointer; the same pointer is held by
  the peer's connection.  Pointers are locations of [heap]. *)

Module Registry.

Import Models.

Record Registry := mkRegistry {
  heap : gmap nat Peer;
  peers : gmap string nat
}.

Definition New : Registry := mkRegistry ∅ ∅.

(** [AddPeer peer] for the peer at location [p] (every pointer the
    sources pass is that of a descriptor); [now1] and [now2] are the
    readings of [time.Now()] for [CreatedAt] and [LastPing]. *)
Definition AddPeer (r : Registry) (p : nat) (now1 now2 : Go.Time) : Registry :=
  match heap r !! p with
  | None => r
  | Some peer =>
      let created := if Go.IsZero (CreatedAt peer) then now1 else CreatedAt peer in
      let peer' := mkPeer (ID peer) (Type_ peer) (AccountID peer) (PublicKey peer)
                     (EdgeID peer) true now2 created in
      mkRegistry (<[p := peer']> (heap r)) (<[ID peer := p]> (peers r))
  end.

Definition GetPeer (r : Registry) (id : string) : option Peer :=
  match peers r !! id with
  | Some p => heap r !! p
  | None => None
  end.

Definition setConnected (peer : Peer) (b : bool) : Peer :=
  mkPeer (ID peer) (Type_ peer) (AccountID peer) (PublicKey peer) (EdgeID peer)
    b (LastPing peer) (CreatedAt peer).

Definition setLastPing (peer : Peer) (t : Go.Time) : Peer :=
  mkPeer (ID peer) (Type_ peer) (AccountID peer) (PublicKey peer) (EdgeID peer)
    (Connected peer) t (CreatedAt peer).

Definition RemovePeer (r : Registry) (id : string) : Registry :=
  match peers r !! id with
  | Some p => mkRegistry (alter (fun peer => setConnected peer false) p (heap r))
                (delete id (peers r))
  | None => r
  end.

Definition UpdateLastPing (r : Registry) (id : string) (now : Go.Time) : Registry :=
  match peers r !! id with
  | Some p => mkRegistry (alter (fun peer => setLastPing peer now) p (heap r)) (peers r)
  | None => r
  end.

Definition GetPeerCount (r : Registry) : nat := size (peers r).

End Registry.

(** ** internal/signaling: the hub (server.go), the service-sync handlers
     (service_handlers.go) and the validation (validation.go) *)

Module Signaling.

Import Models.

Definition maxBatchSize : Z := 1000.

Definition MessageTypeServiceSyncAck : string := "service-sync-ack".

(** A [PeerConnection]: the pointer to its peer, the channel it writes
    to, and whether [ClientDataChans] was made (edge peers).  Every
    channel builds one descriptor and one cancellation handle, so the
    channel's handle also names them. *)
Record PeerConnection := mkPeerConnection {
  pcPeer : nat;
  pcConn : nat;
  pcHasChans : bool
}.

(** The signaling [Server] with the objects it points to: [cancelled]
    holds the connections whose [Cancel] was called, [closed] the channels
    whose [Close] was called, [sent] the messages written, by channel. *)
Record Server := mkServer {
  registry : Registry.Registry;
  storage : Storage.SQLiteStorage;
  connections : gmap string PeerConnection;
  cancelled : gset nat;
  closed : gset nat;
  sent : list (nat * SignalingMessage)
}.

Definition New (reg : Registry.Registry) (store : Storage.SQLiteStorage) : Server :=
  mkServer reg store ∅ ∅ ∅ [].

Definition withRegistry (s : Server) (r : Registry.Registry) : Server :=
  mkServer r (storage s) (connections s) (cancelled s) (closed s) (sent s).

Definition withStorage (s : Server) (st : Storage.SQLiteStorage) : Server :=
  mkServer (registry s) st (connections s) (cancelled s) (closed s) (sent s).

Definition withConnections (s : Server) (c : gmap string PeerConnection) : Server :=
  mkServer (registry s) (storage s) c (cancelled s) (closed s) (sent s).

(** [conn.Cancel(); conn.Conn.Close()] *)
Definition cancelAndClose (s : Server) (c : PeerConnection) : Server :=
  mkServer (registry s) (storage s) (connections s)
    ({[pcConn c]} ∪ cancelled s) ({[pcConn c]} ∪ closed s) (sent s).

(** *** Admission *)

(** [wsMiddleware], after the upgrade test: the error text of the 400
    answer, or [None] when the request goes on to [handleWebSocket]. *)
Definition wsMiddleware (peerType id edgeID : string) : option string :=
  if negb (String.eqb peerType "edge") && negb (String.eqb peerType "client")
  then Some "type must be 'edge' or 'client'"
  else if String.eqb id "" then Some "missing id parameter"
  else if String.eqb peerType "client" && String.eqb edgeID ""
  then Some "missing edgeid parameter for client"
  else None.

(** [handleWebSocket] up to the start of the read loop, for the channel
    [conn]: the descriptor and the connection are built, the peer is added
    to the registry, an existing connection for the id is cancelled and
    closed, and the new one is stored. *)
Definition handleWebSocket (s : Server) (conn : nat) (peerType id edgeID publicKey : string)
    (now1 now2 : Go.Time) : Server :=
  let peer := mkPeer id peerType "" publicKey edgeID false Go.zeroTime Go.zeroTime in
  let peerConn := mkPeerConnection conn conn (String.eqb peerType "edge") in
  let r0 := registry s in
  let r1 := Registry.mkRegistry (<[conn := peer]> (Registry.heap r0)) (Registry.peers r0) in
  let s1 := withRegistry s (Registry.AddPeer r1 conn now1 now2) in
  let s2 := match connections s1 !! id with
            | Some oldConn => cancelAndClose s1 oldConn
            | None => s1
            end in
  withConnections s2 (<[id := peerConn]> (connections s2)).

(** The deferred function of [handleWebSocket], run when the read loop
    of the channel [conn], admitted under [id], ends. *)
Definition cleanup (s : Server) (conn : nat) (id : string) : Server :=
  let s1 := mkServer (registry s) (storage s) (connections s)
              ({[conn]} ∪ cancelled s) ({[conn]} ∪ closed s) (sent s) in
  let s2 := withRegistry s1 (Registry.RemovePeer (registry s1) id) in
  withConnections s2 (delete id (connections s2)).

(** The pong handler of a channel admitted under [id]. *)
Definition pong (s : Server) (id : string) (now : Go.Time) : Server :=
  withRegistry s (Registry.UpdateLastPing (registry s) id now).

(** What happens to the hub, one step at a time. *)
Inductive Event :=
| Connect (conn : nat) (peerType id edgeID publicKey : string) (now1 now2 : Go.Time)
| Disconnect (conn : nat) (id : string)
| Pong (id : string) (now : Go.Time).

Definition step (s : Server) (e : Event) : Server :=
  match e with
  | Connect conn peerType id edgeID publicKey now1 now2 =>
      match wsMiddleware peerType id edgeID with
      | Some _ => s
      | None => handleWebSocket s conn peerType id edgeID publicKey now1 now2
      end
  | Disconnect conn id => cleanup s conn id
  | Pong id now => pong s id now
  end.

Definition run (s : Server) (es : list Event) : Server := List.fold_left step es s.

(** *** Sending *)

Definition sendMessage (s : Server) (conn : nat) (m : SignalingMessage) : Server :=
  mkServer (registry s) (storage s) (connections s) (cancelled s) (closed s)
    (sent s ++ [(conn, m)]).

Definition sendError (s : Server) (conn : nat) (errMsg : string) : Server :=
  sendMessage s conn (mkMessage "error" [("error", errMsg)]).

Definition sendServiceSyncAck (s : Server) (conn : nat)
    (localID serverID status errorMsg : string) : Server :=
  sendMessage s conn
    (mkMessage MessageTypeServiceSyncAck
       [("localId", localID); ("serverId", serverID); ("status", status);
        ("error", errorMsg)]).

(** *** validation.go *)

(** The class of [nameRegex], [[a-zA-Z0-9 _-]]. *)
Definition nameChar (c : ascii) : bool :=
  let b := Go.byteOf c in
  ((97 <=? b) && (b <=? 122)) || ((65 <=? b) && (b <=? 90))
  || ((48 <=? b) && (b <=? 57)) || (b =? 32) || (b =? 95) || (b =? 45).

Fixpoint allChars (f : ascii -> bool) (s : string) : bool :=
  match s with
  | EmptyString => true
  | String c rest => f c && allChars f rest
  end.

(** [nameRegex.MatchString]: one or more characters of the class, and
    nothing else. *)
Definition nameRegexMatch (s : string) : bool :=
  negb (String.eqb s "") && allChars nameChar s.

Definition strlen (s : string) : Z := Z.of_nat (String.length s).

(** [validateService]: the error, or [None] for [nil]. *)
Definition validateService (service : EdgeService) : option string :=
  if String.eqb (svcID service) "" then Some "service ID is required"
  else if 8 <? strlen (svcID service) then Some "service ID too long (max 8 characters)"
  else if String.eqb (svcEdgeID service) "" then Some "edge ID is required"
  else if String.eqb (svcName service) "" then Some "service name is required"
  else if 128 <? strlen (svcName service) then Some "service name too long (max 128 characters)"
  else if negb (nameRegexMatch (svcName service))
  then Some "service name must contain only alphanumeric, hyphens, underscores, and spaces"
  else if String.eqb (svcLocalHost service) "" then Some "local host is required"
  else if (svcTunnelPort service <? 1) || (65535 <? svcTunnelPort service)
  then Some ("invalid tunnel port: " +:+ Go.FormatInt (svcTunnelPort service)
             +:+ " (must be 1-65535)")
  else if (svcLocalPort service <? 1) || (65535 <? svcLocalPort service)
  then Some ("invalid local port: " +:+ Go.FormatInt (svcLocalPort service)
             +:+ " (must be 1-65535)")
  else if negb (String.eqb (svcProtocol service) "http"
                || String.eqb (svcProtocol service) "websocket")
  then Some ("invalid protocol: " +:+ svcProtocol service
             +:+ " (must be http or websocket)")
  else None.

(** *** service_handlers.go: the helpers *)

Definition setEdgeID (service : EdgeService) (edge : string) : EdgeService :=
  mkEdgeService (svcID service) edge (svcName service) (svcTunnelPort service)
    (svcLocalHost service) (svcLocalPort service) (svcProtocol service)
    (svcEnabled service) (svcCreatedAt service) (svcUpdatedAt service).

Definition errDifferentEdge : string := "service belongs to different edge".

(** [now] is the reading of the clock for the message being handled; the
    time stamps written while handling it are that reading. *)
Definition createService (st : Storage.SQLiteStorage) (service : EdgeService)
    (now : Go.Time) : Storage.SQLiteStorage * option string :=
  let service' :=
    mkEdgeService (svcID service) (svcEdgeID service) (svcName service)
      (svcTunnelPort service) (svcLocalHost service) (svcLocalPort service)
      (svcProtocol service) (svcEnabled service) now now in
  match Storage.CreateEdgeService st service' with
  | (st', Some err) => (st', Some (Storage.wrapErr "failed to create service" err))
  | (st', None) => (st', None)
  end.

Definition updateService (st : Storage.SQLiteStorage) (service : EdgeService)
    (now : Go.Time) : Storage.SQLiteStorage * option string :=
  match Storage.GetEdgeService st (svcID service) with
  | (st1, inr err) => (st1, Some (Storage.wrapErr "service not found" err))
  | (st1, inl existing) =>
      if negb (String.eqb (svcEdgeID existing) (svcEdgeID service))
      then (st1, Some errDifferentEdge)
      else
        let existing' :=
          mkEdgeService (svcID existing) (svcEdgeID existing) (svcName service)
            (svcTunnelPort service) (svcLocalHost service) (svcLocalPort service)
            (svcProtocol service) (svcEnabled service) (svcCreatedAt existing) now in
        match Storage.UpdateEdgeService st1 existing' with
        | (st2, Some err) => (st2, Some (Storage.wrapErr "failed to update service" err))
        | (st2, None) => (st2, None)
        end
  end.

Definition deleteService (st : Storage.SQLiteStorage) (id : string)
    : Storage.SQLiteStorage * option string :=
  match Storage.DeleteEdgeService st id with
  | (st', Some err) => (st', Some (Storage.wrapErr "failed to delete service" err))
  | (st', None) => (st', None)
  end.

(** *** The messages, as [encoding/json] hands them to the handlers

    An element that should be a service is either not a JSON object, or
    an object on which [parseEdgeService] fails ([None]) or gives a
    service. *)
Inductive ServiceData :=
| NotAnObject
| AnObject (parsed : option EdgeService).

(** [msg.Data] of a [service-sync] message: not an object, or an object
    with its [operation] (the empty text when it is missing or no text)
    and its [service]. *)
Inductive SyncData :=
| SyncNotAnObject
| SyncObject (operation : string) (service : ServiceData).

(** [msg.Data] of a [service-sync-batch] message. *)
Inductive BatchData :=
| BatchNotAnObject
| BatchNoArray
| BatchServices (services : list ServiceData).

(** *** handleServiceSync, from the peer [edge] on the channel [conn] *)

Definition handleServiceSync (s : Server) (edge : string) (conn : nat)
    (data : SyncData) (now : Go.Time) : Server :=
  match data with
  | SyncNotAnObject => sendServiceSyncAck s conn "" "" "error" "Invalid message data format"
  | SyncObject operation NotAnObject =>
      sendServiceSyncAck s conn "" "" "error" "Invalid service data format"
  | SyncObject operation (AnObject None) =>
      (* the decoder's own text follows in the source's message *)
      sendServiceSyncAck s conn "" "" "error"
        "Failed to parse service: failed to unmarshal service data"
  | SyncObject operation (AnObject (Some parsed)) =>
      let service := setEdgeID parsed edge in
      match validateService service with
      | Some err => sendServiceSyncAck s conn (svcID service) (svcID service) "error" err
      | None =>
          let result :=
            if String.eqb operation "created" then Some (createService (storage s) service now)
            else if String.eqb operation "updated" then Some (updateService (storage s) service now)
            else if String.eqb operation "deleted" then Some (deleteService (storage s) (svcID service))
            else None in
          match result with
          | None => sendServiceSyncAck s conn (svcID service) "" "error" "invalid operation"
          | Some (st', Some err) =>
              sendServiceSyncAck (withStorage s st') conn (svcID service) "" "error" err
          | Some (st', None) =>
              sendServiceSyncAck (withStorage s st') conn (svcID service) (svcID service)
                "success" ""
          end
      end
  end.

(** *** handleServiceSyncBatch *)

(** One round of the loop: the storage after it and whether the entry is
    counted in [successCount] (otherwise in [failedCount]). *)
Definition syncOne (edge : string) (now : Go.Time) (st : Storage.SQLiteStorage)
    (svcData : ServiceData) : Storage.SQLiteStorage * bool :=
  match svcData with
  | NotAnObject => (st, false)
  | AnObject None => (st, false)
  | AnObject (Some parsed) =>
      let service := setEdgeID parsed edge in
      match validateService service with
      | Some _ => (st, false)
      | None =>
          match updateService st service now with
          | (st1, None) => (st1, true)
          | (st1, Some _) =>
              match createService st1 service now with
              | (st2, Some _) => (st2, false)
              | (st2, None) => (st2, true)
              end
          end
      end
  end.

(** The loop, with its two counters. *)
Fixpoint syncLoop (edge : string) (now : Go.Time) (servicesData : list ServiceData)
    (st : Storage.SQLiteStorage) (successCount failedCount : Z)
    : Storage.SQLiteStorage * Z * Z :=
  match servicesData with
  | [] => (st, successCount, failedCount)
  | svcData :: rest =>
      match syncOne edge now st svcData with
      | (st', true) => syncLoop edge now rest st' (successCount + 1) failedCount
      | (st', false) => syncLoop edge now rest st' successCount (failedCount + 1)
      end
  end.

Definition handleServiceSyncBatch (s : Server) (edge : string) (conn : nat)
    (data : BatchData) (now : Go.Time) : Server :=
  match data with
  | BatchNotAnObject => sendError s conn "Invalid batch sync message"
  | BatchNoArray => sendError s conn "Invalid services array"
  | BatchServices servicesData =>
      if maxBatchSize <? Z.of_nat (List.length servicesData)
      then sendError s conn
             ("Batch size exceeds maximum of " +:+ Go.FormatInt maxBatchSize +:+ " services")
      else
        match syncLoop edge now servicesData (storage s) 0 0 with
        | (st', successCount, failedCount) =>
            sendMessage (withStorage s st') conn
              (mkMessage MessageTypeServiceSyncAck
                 [("message", "Synced " +:+ Go.FormatInt successCount +:+ " services");
                  ("status", "success")])
        end
  end.

End Signaling.

(** ** internal/api: the responses (response.go) and the handlers
     (handlers.go) *)

Module Api.

Record ApiError := mkApiError { Code : Z; Message : string }.

Record IceServer := mkIceServer {
  urls : list string;
  iceUsername : string;
  iceCredential : string
}.

(** The [data] of a successful answer.  [expires] is the instant that the
    handler then prints in RFC 3339. *)
Inductive Data :=
| DataCredentials (username password : string) (ttl : Z) (expires : Go.Time)
| DataIceServers (iceServers : list IceServer) (expires : Go.Time)
| DataMessage (message : string).

(** The HTTP status and the [ApiResponse] written with it. *)
Record Response := mkResponse {
  Status : Z;
  Success : bool;
  RespData : option Data;
  RespError : option ApiError
}.

Definition StatusOK : Z := 200.
Definition StatusBadRequest : Z := 400.
Definition StatusNotFound : Z := 404.

Definition SuccessResp (data : Data) : Response :=
  mkResponse StatusOK true (Some data) None.

Definition ErrorResp (err : ApiError) : Response :=
  let code := if Code err =? 0 then StatusBadRequest else Code err in
  mkResponse code false None (Some err).

Definition ErrorCodeResp (code : Z) (message : string) : Response :=
  ErrorResp (mkApiError code message).

Definition ErrorNotFoundResp := ErrorCodeResp StatusNotFound.
Definition ErrorBadRequestResp := ErrorCodeResp StatusBadRequest.

(** The API [Server]: the fields its handlers read.  It holds the TURN
    configuration and the storage; it has no field for the TURN server. *)
Record Server := mkServer {
  turnCfg : Config.TurnConfig;
  storage : Storage.SQLiteStorage
}.

(** [c.Query(key, defaultValue)] of fiber: the first value given for the
    key, or the default when there is none or it is empty. *)
Fixpoint Peek (query : list (string * string)) (key : string) : string :=
  match query with
  | [] => ""
  | (k, v) :: rest => if String.eqb k key then v else Peek rest key
  end.

Definition Query (query : list (string * string)) (key defaultValue : string) : string :=
  let value := Peek query key in
  if String.eqb value "" then defaultValue else value.

(** The body of [POST /credentials] after [c.BodyParser]. *)
Record CredentialsRequest := mkCredentialsRequest {
  reqPeerType : string;
  reqPeerID : string;
  reqTTL : Z
}.

(** [handleGenerateCredentials]; [body] is [None] when [c.BodyParser]
    fails. *)
Definition handleGenerateCredentials (s : Server) (body : option CredentialsRequest)
    (now : Go.Time) : Response :=
  match body with
  | None => ErrorBadRequestResp "Invalid request body"
  | Some req =>
      if String.eqb (reqPeerType req) "" || String.eqb (reqPeerID req) ""
      then ErrorBadRequestResp "peer_type and peer_id are required"
      else if negb (String.eqb (reqPeerType req) "edge")
              && negb (String.eqb (reqPeerType req) "client")
      then ErrorBadRequestResp "peer_type must be 'edge' or 'client'"
      else
        let ttl := if reqTTL req =? 0 then Config.AuthTTLSeconds (turnCfg s) else reqTTL req in
        match Credentials.generateTURNCredentials (turnCfg s) now
                (reqPeerType req) (reqPeerID req) ttl with
        | (username, password, expiry) =>
            SuccessResp (DataCredentials username password ttl (Go.Unix expiry))
        end
  end.

(** [handleGetICEServers]; [query] holds the query parameters. *)
Definition handleGetICEServers (s : Server) (query : list (string * string))
    (now : Go.Time) : Response :=
  let peerType := Query query "peer_type" "client" in
  let peerID := Query query "peer_id" "" in
  if String.eqb peerID "" then ErrorBadRequestResp "peer_id query parameter is required"
  else
    match Credentials.generateTURNCredentials (turnCfg s) now peerType peerID
            (Config.AuthTTLSeconds (turnCfg s)) with
    | (username, password, expiry) =>
        let ip := Config.PublicIP (turnCfg s) in
        let iceServers :=
          [mkIceServer ["stun:" +:+ ip +:+ ":3478"] "" "";
           mkIceServer ["turn:" +:+ ip +:+ ":3478?transport=udp";
                        "turn:" +:+ ip +:+ ":3478?transport=tcp"] username password] in
        let iceServers :=
          if 0 <? Config.PortsTLS (turnCfg s)
          then iceServers ++
               [mkIceServer ["turns:" +:+ ip +:+ ":" +:+ Go.FormatInt (Config.PortsTLS (turnCfg s))
                             +:+ "?transport=tcp"] username password]
          else iceServers in
        SuccessResp (DataIceServers iceServers (Go.Unix expiry))
    end.


(** The body of [POST /admin/secrets] after [c.BodyParser]. *)
Record RotateRequest := mkRotateRequest {
  reqSecret : string;
  reqOldSecrets : list string
}.

(** [handleRotateSecrets]: the body is checked and the answer written;
    nothing else is done with the request. *)
Definition handleRotateSecrets (s : Server) (body : option RotateRequest) : Response :=
  match body with
  | None => ErrorBadRequestResp "Invalid request body"
  | Some req =>
      if String.eqb (reqSecret req) "" then ErrorBadRequestResp "secret is required"
      else SuccessResp (DataMessage "Secrets rotation endpoint - to be implemented")
  end.

End Api.

(** ** cmd/server: the running process (server.go of the command)

  [runServer] builds the TURN server, whose handler copies the secrets of
  the configuration, and the API server, which keeps the configuration. *)

Module Main.

Record Process := mkProcess {
  turnAuth : Turn.AuthHandler;
  apiServer : Api.Server
}.

(** [turn.New]: the static users of the configuration as a map, and the
    handler made of the configured mode, secrets and ttl. *)
Definition newTurnAuth (cfg : Config.TurnConfig) : Turn.AuthHandler :=
  let staticUsers :=
    List.fold_left (fun (m : gmap string string) user => <[user.1 := user.2]> m)
      (Config.AuthStaticUsers cfg) ∅ in
  Turn.NewAuthHandler (Config.AuthMode cfg) (Config.AuthSecret cfg)
    (Config.AuthOldSecrets cfg) (Config.AuthTTLSeconds cfg) staticUsers.

Definition runServer (cfg : Config.TurnConfig) (store : Storage.SQLiteStorage) : Process :=
  mkProcess (newTurnAuth cfg) (Api.mkServer cfg store).

(** A [POST /api/v1/admin/secrets] served by the process. *)
Definition postAdminSecrets (p : Process) (body : option Api.RotateRequest)
    : Process * Api.Response :=
  (p, Api.handleRotateSecrets (apiServer p) body).

(** SIGHUP with the reloaded configuration [newCfg]. *)
Definition sighup (p : Process) (newCfg : Config.TurnConfig) : Process :=
  mkProcess
    (Turn.UpdateSecrets (turnAuth p) (Config.AuthSecret newCfg)
       (Config.AuthOldSecrets newCfg) (Config.AuthTTLSeconds newCfg))
    (apiServer p).

End Main.

(** ** The vocabulary of the statements

  Instants are compared as nanoseconds since the Unix epoch; a clock
  reading is one that [time.Now()] can give (a normalised nanosecond
  field, a year far below the 64-bit limit of the seconds field). *)

Module Spec.

Import Models.

Definition unixNano (t : Go.Time) : Z :=
  (Go.sec t - Go.unixToInternal) * Go.Second + Go.nsec t.

Definition validClock (t : Go.Time) : Prop :=
  0 <= Go.sec t < 2 ^ 62 /\ 0 <= Go.nsec t < Go.Second.

Definition noColon (s : string) : Prop := Go.ContainsByte s ":" = false.

(** The snapshot of the secrets holds a secret that is not empty. *)
Definition hasSecret (h : Turn.AuthHandler) : Prop :=
  exists s, In s (Turn.secret h :: Turn.oldSecrets h) /\ s <> "".

(** The acceptance window in the words of the specification, for a
    credential issued at [t0] with ttl [T] and examined at [t] (seconds):
    [t0 <= t < t0 + T] and [t < t0 + 48h]. *)
Definition claimedWindow (t0 T t : Z) : Prop :=
  t0 <= t < t0 + T /\ t < t0 + 48 * 3600.

(** The password condition in the words of the specification: the
    credential's password is the one recomputed under some secret of the
    snapshot that is not empty. *)
Definition claimedPasswordMatch (h : Turn.AuthHandler) (username password : string) : Prop :=
  exists s, In s (Turn.secret h :: Turn.oldSecrets h) /\ s <> ""
            /\ password = Turn.restPassword s username.

(** *** Batch sync, entry by entry, by the state of the table

    An entry succeeds when it is a service that passes the validation and
    whose id is free or held by the same edge; it then updates the row it
    finds, or inserts a new one.  The calls made on the storage are listed
    with it. *)
Definition updatedRow (existing service : EdgeService) (now : Go.Time) : EdgeService :=
  mkEdgeService (svcID existing) (svcEdgeID existing) (svcName service)
    (svcTunnelPort service) (svcLocalHost service) (svcLocalPort service)
    (svcProtocol service) (svcEnabled service) (svcCreatedAt existing) now.

Definition createdRow (service : EdgeService) (now : Go.Time) : EdgeService :=
  mkEdgeService (svcID service) (svcEdgeID service) (svcName service)
    (svcTunnelPort service) (svcLocalHost service) (svcLocalPort service)
    (svcProtocol service) (svcEnabled service) now now.

Definition entryOutcome (edge : string) (now : Go.Time)
    (rows : gmap string EdgeService) (entry : Signaling.ServiceData)
    : gmap string EdgeService * list Storage.Call * bool :=
  match entry with
  | Signaling.AnObject (Some parsed) =>
      let service := Signaling.setEdgeID parsed edge in
      let id := svcID service in
      match Signaling.validateService service with
      | Some _ => (rows, [], false)
      | None =>
          match rows !! id with
          | None =>
              (<[id := createdRow service now]> rows,
               [Storage.CallGet id; Storage.CallCreate id], true)
          | Some existing =>
              if String.eqb (svcEdgeID existing) edge
              then (<[svcID existing := updatedRow existing service now]> rows,
                    [Storage.CallGet id; Storage.CallUpdate (svcID existing)], true)
              else (rows, [Storage.CallGet id; Storage.CallCreate id], false)
          end
      end
  | _ => (rows, [], false)
  end.

Fixpoint batchOutcome (edge : string) (now : Go.Time)
    (entries : list Signaling.ServiceData) (rows : gmap string EdgeService)
    : gmap string EdgeService * list Storage.Call * Z :=
  match entries with
  | [] => (rows, [], 0)
  | entry :: rest =>
      match entryOutcome edge now rows entry with
      | (rows1, calls1, ok) =>
          match batchOutcome edge now rest rows1 with
          | (rows2, calls2, n) => (rows2, calls1 ++ calls2, (if ok then 1 else 0) + n)
          end
      end
  end.



End Spec.

(** ** More of package time *)

Module GoTime.

Import Go.

Definition minDuration : Z := MinInt64.
Definition maxDuration : Z := MaxInt64.

Definition Equal (t u : Time) : bool := (sec t =? sec u) && (nsec t =? nsec u).

(** [t.Sub u], a duration in nanoseconds, by the wall clock readings (for
    two readings that carry a monotonic part, Go takes the difference of
    these parts instead; the clock is taken not to be stepped, so that the
    two differences are the same). *)
Definition Sub (t u : Time) : Z :=
  let d := wrap64 (wrap64 (wrap64 (sec t - sec u) * Second) + (nsec t - nsec u)) in
  if Equal (Add u d) t then d
  else if Before t u then minDuration
  else maxDuration.

End GoTime.

(** ** internal/registry, the rest of registry.go *)

Module RegistryMore.

Import Models Registry.

(** The descriptors the registry points to.  Go lists a map in an order
    it does not fix; the order here is the one of the model's map. *)
Definition GetAllPeers (r : Registry) : list Peer :=
  omap (fun entry : string * nat => heap r !! entry.2) (map_to_list (peers r)).

Definition GetPeersByType (r : Registry) (peerType : string) : list Peer :=
  List.filter (fun peer => String.eqb (Type_ peer) peerType) (GetAllPeers r).

(** [now.Sub(peer.LastPing) > timeout] for the descriptor at [p]. *)
Definition stale (r : Registry) (now : Go.Time) (timeout : Z) (p : nat) : bool :=
  match heap r !! p with
  | Some peer => timeout <? GoTime.Sub now (LastPing peer)
  | None => false
  end.

(** One round of the loop of [CleanupStale]. *)
Definition cleanupOne (now : Go.Time) (timeout : Z) (acc : Registry * list string)
    (entry : string * nat) : Registry * list string :=
  if stale acc.1 now timeout entry.2
  then (mkRegistry (alter (fun peer => setConnected peer false) entry.2 (heap acc.1))
          (delete entry.1 (peers acc.1)),
        acc.2 ++ [entry.1])
  else acc.

(** [CleanupStale timeout] with the reading [now] of the clock: the
    registry after it and the ids removed, in the order of the model's
    map (Go does not fix the order). *)
Definition CleanupStale (r : Registry) (now : Go.Time) (timeout : Z)
    : Registry * list string :=
  List.fold_left (cleanupOne now timeout) (map_to_list (peers r)) (r, []).

End RegistryMore.

(** ** internal/signaling, more of server.go *)

Module Hub.

Import Models Signaling.

(** One round of the loop of [cleanupLoop] over the removed ids: a
    connection held under the id is cancelled (every connection is made
    with its [Cancel]) and leaves the connection map. *)
Definition dropConnection (s : Server) (id : string) : Server :=
  match connections s !! id with
  | Some conn =>
      mkServer (registry s) (storage s) (delete id (connections s))
        ({[pcConn conn]} ∪ cancelled s) (closed s) (sent s)
  | None => s
  end.

(** The body of [cleanupLoop] at a tick, with the session timeout of the
    configuration and the reading [now] of the clock in [CleanupStale]. *)
Definition cleanupTick (s : Server) (now : Go.Time) (sessionTimeout : Z) : Server :=
  match RegistryMore.CleanupStale (registry s) now sessionTimeout with
  | (r', removed) => List.fold_left dropConnection removed (withRegistry s r')
  end.



(** [forwardMessage] for a message with the recipient [to]: the channel
    the message is written to, if any. *)
Definition forwardMessage (s : Server) (to : string) : option nat :=
  if String.eqb to "" then None
  else match connections s !! to with
       | Some targetConn => Some (pcConn targetConn)
       | None => None
       end.

(** What happens to the hub, with the ticks of the clean-up loop. *)
Inductive Action :=
| Channel (e : Event)
| Tick (now : Go.Time) (sessionTimeout : Z).

Definition act (s : Server) (a : Action) : Server :=
  match a with
  | Channel e => step s e
  | Tick now sessionTimeout => cleanupTick s now sessionTimeout
  end.

Definition runActions (s : Server) (actions : list Action) : Server :=
  List.fold_left act actions s.

End Hub.

(** ** internal/config: the configuration file (config.go)

  The structures as the file declares them, and [Load] from the point
  where the YAML file is unmarshalled.  Where two structures have a field
  of the same name, the field carries the name of its structure
  ([SigPorts], [ApiPort], [AdminPort], [KeyCreatedAt]). *)

Module ConfigFile.

Record ACMEConfig := mkACMEConfig {
  Enabled : bool;
  CAURL : string;
  Challenge : string;
  HTTP01Listen : string;
  TLSALPN01Listen : string;
  DNSProvider : string;
  DNSConfig : list (string * string);
  DNSTimeout : string;
  DNSPropagationTimeout : string
}.

Record TurnPorts := mkTurnPorts { UDP : Z; TCP : Z; TLS : Z }.

Record PortRange := mkPortRange { Min : Z; Max : Z }.

Record AuthConfig := mkAuthConfig {
  Mode : string;
  Secret : string;
  OldSecrets : list string;
  TTLSeconds : Z;
  StaticUsers : list (string * string)
}.

Record TurnConfig := mkTurnConfig {
  Realm : string;
  PublicIP : string;
  Ports : TurnPorts;
  RelayPortRange : PortRange;
  Auth : AuthConfig
}.

Record SignalingPorts := mkSignalingPorts { WS : Z; WSS : Z }.

Record SignalingConfig := mkSignalingConfig {
  SigPorts : SignalingPorts;
  MaxPeersPerRoom : Z;
  SessionTimeout : Z
}.

Record APIKeyConfig := mkAPIKeyConfig { Hash : string; KeyCreatedAt : string }.

Record APIConfig := mkAPIConfig {
  ApiPort : Z;
  CORSOrigins : list string;
  APIKey : APIKeyConfig
}.

Record AdminConfig := mkAdminConfig { AdminPort : Z; Token : string; Bind : string }.

Record LoggingConfig := mkLoggingConfig { Level : string; Format : string }.

Record Config := mkConfig {
  Domain : string;
  Email : string;
  CertDir : string;
  ACME : ACMEConfig;
  Turn : TurnConfig;
  Signaling : SignalingConfig;
  API : APIConfig;
  Admin : AdminConfig;
  Logging : LoggingConfig
}.

(** [if s == "" { s = d }] and [if n == 0 { n = d }] *)
Definition orText (s d : string) : string := if String.eqb s "" then d else s.
Definition orInt (n d : Z) : Z := if n =? 0 then d else n.

Definition applyDefaults (cfg : Config) : Config :=
  let acme := ACME cfg in
  let turn := Turn cfg in
  let sig := Signaling cfg in
  mkConfig (Domain cfg) (Email cfg) (orText (CertDir cfg) "./certs")
    (if Enabled acme
     then mkACMEConfig (Enabled acme)
            (orText (CAURL acme) "https://acme-v02.api.letsencrypt.org/directory")
            (orText (Challenge acme) "http-01")
            (orText (HTTP01Listen acme) ":80")
            (orText (TLSALPN01Listen acme) ":443")
            (DNSProvider acme) (DNSConfig acme)
            (orText (DNSTimeout acme) "60s")
            (orText (DNSPropagationTimeout acme) "300s")
     else acme)
    (mkTurnConfig (orText (Realm turn) (Domain cfg)) (PublicIP turn)
       (mkTurnPorts (orInt (UDP (Ports turn)) 3478) (orInt (TCP (Ports turn)) 3478)
          (orInt (TLS (Ports turn)) 5349))
       (mkPortRange (orInt (Min (RelayPortRange turn)) 49152)
          (orInt (Max (RelayPortRange turn)) 65535))
       (mkAuthConfig (Mode (Auth turn)) (Secret (Auth turn)) (OldSecrets (Auth turn))
          (orInt (TTLSeconds (Auth turn)) 86400) (StaticUsers (Auth turn))))
    (mkSignalingConfig
       (mkSignalingPorts (orInt (WS (SigPorts sig)) 8080) (orInt (WSS (SigPorts sig)) 8443))
       (orInt (MaxPeersPerRoom sig) 10)
       (orInt (SessionTimeout sig) (300 * Go.Second)))
    (mkAPIConfig (orInt (ApiPort (API cfg)) 9000) (CORSOrigins (API cfg)) (APIKey (API cfg)))
    (mkAdminConfig (orInt (AdminPort (Admin cfg)) 9001) (Token (Admin cfg))
       (orText (Bind (Admin cfg)) "127.0.0.1"))
    (mkLoggingConfig (orText (Level (Logging cfg)) "info")
       (orText (Format (Logging cfg)) "text")).

(** [validate]: the text of the error, if any. *)
Definition validate (cfg : Config) : option string :=
  if String.eqb (Domain cfg) "" then Some "domain is required"
  else
    let acme := ACME cfg in
    let acmeErr :=
      if Enabled acme then
        if String.eqb (Email cfg) "" then Some "email is required when ACME is enabled"
        else if negb (String.eqb (Challenge acme) "http-01")
                && negb (String.eqb (Challenge acme) "tls-alpn-01")
                && negb (String.eqb (Challenge acme) "dns-01")
        then Some ("invalid ACME challenge type: " +:+ Challenge acme)
        else if String.eqb (Challenge acme) "dns-01" && String.eqb (DNSProvider acme) ""
        then Some "dns_provider is required for dns-01 challenge"
        else None
      else None in
    match acmeErr with
    | Some e => Some e
    | None =>
        let auth := Auth (Turn cfg) in
        if negb (String.eqb (Mode auth) "rest") && negb (String.eqb (Mode auth) "static")
        then Some ("invalid auth mode: " +:+ Mode auth +:+ " (must be 'rest' or 'static')")
        else if String.eqb (Mode auth) "rest" && String.eqb (Secret auth) ""
        then Some "auth secret is required for REST mode"
        else if String.eqb (Mode auth) "static" && (Z.of_nat (length (StaticUsers auth)) =? 0)
        then Some "at least one static user is required for static auth mode"
        else if String.eqb (Token (Admin cfg)) "" then Some "admin token is required"
        else None
    end.

(** [Load] after the file is read and unmarshalled into [cfg]. *)
Definition Load (cfg : Config) : Config + string :=
  let cfg' := applyDefaults cfg in
  match validate cfg' with
  | Some e => inr ("validating config: " +:+ e)
  | None => inl cfg'
  end.

End ConfigFile.

(** ** encoding/base64, the encodings without padding *)

Module Base64.

(** An encoding is its alphabet, by the value of the six bits. *)
Definition Encoding := Z -> ascii.

Definition StdAlphabet : Encoding := Crypto.b64char.

Definition URLAlphabet : Encoding := fun v =>
  if v =? 62 then "-"%char
  else if v =? 63 then "_"%char
  else Crypto.b64char v.

(** [decodeMap], filled from the alphabet; [None] is its [0xff]. *)
Definition decodeMap (enc : Encoding) (c : ascii) : option Z :=
  List.find (fun v => Ascii.eqb (enc v) c) (List.map Z.of_nat (List.seq 0 64)).

(** [EncodeToString] of an encoding without padding. *)
Fixpoint EncodeToString (enc : Encoding) (src : list Z) : string :=
  match src with
  | [] => EmptyString
  | [a] =>
      let val := Z.shiftl a 16 in
      String (enc (Z.land (Z.shiftr val 18) 63))
        (String (enc (Z.land (Z.shiftr val 12) 63)) EmptyString)
  | [a; b] =>
      let val := Z.lor (Z.shiftl a 16) (Z.shiftl b 8) in
      String (enc (Z.land (Z.shiftr val 18) 63))
        (String (enc (Z.land (Z.shiftr val 12) 63))
           (String (enc (Z.land (Z.shiftr val 6) 63)) EmptyString))
  | a :: b :: c :: rest =>
      let val := Z.lor (Z.lor (Z.shiftl a 16) (Z.shiftl b 8)) c in
      String (enc (Z.land (Z.shiftr val 18) 63))
        (String (enc (Z.land (Z.shiftr val 12) 63))
           (String (enc (Z.land (Z.shiftr val 6) 63))
              (String (enc (Z.land val 63)) (EncodeToString enc rest))))
  end.

(** The six-bit values of the characters of [s]: new lines and carriage
    returns are skipped, any other character outside the alphabet is an
    error. *)
Fixpoint sextets (enc : Encoding) (s : string) : option (list Z) :=
  match s with
  | EmptyString => Some []
  | String c rest =>
      match decodeMap enc c with
      | Some v =>
          match sextets enc rest with
          | Some vs => Some (v :: vs)
          | None => None
          end
      | None =>
          if Ascii.eqb c "010"%char || Ascii.eqb c "013"%char then sextets enc rest
          else None
      end
  end.

(** The bytes of the quanta; a last quantum of one character is an
    error, the unused bits of a last quantum are not looked at. *)
Fixpoint quanta (vs : list Z) : option (list Z) :=
  match vs with
  | [] => Some []
  | [_] => None
  | [v0; v1] =>
      let val := Z.lor (Z.shiftl v0 18) (Z.shiftl v1 12) in
      Some [Z.shiftr val 16 mod 256]
  | [v0; v1; v2] =>
      let val := Z.lor (Z.lor (Z.shiftl v0 18) (Z.shiftl v1 12)) (Z.shiftl v2 6) in
      Some [Z.shiftr val 16 mod 256; Z.shiftr val 8 mod 256]
  | v0 :: v1 :: v2 :: v3 :: rest =>
      let val := Z.lor (Z.lor (Z.lor (Z.shiftl v0 18) (Z.shiftl v1 12)) (Z.shiftl v2 6)) v3 in
      match quanta rest with
      | Some bs => Some (Z.shiftr val 16 mod 256 :: Z.shiftr val 8 mod 256 :: val mod 256 :: bs)
      | None => None
      end
  end.

(** [DecodeString] of an encoding without padding; [None] for an error. *)
Definition DecodeString (enc : Encoding) (s : string) : option (list Z) :=
  match sextets enc s with
  | Some vs => quanta vs
  | None => None
  end.

End Base64.

(** ** crypto/subtle *)

Module Subtle.

Definition ConstantTimeByteEq (x y : Z) : Z := if x =? y then 1 else 0.

Fixpoint differences (x y : list Z) (v : Z) : Z :=
  match x, y with
  | a :: x', b :: y' => differences x' y' (Z.lor v (Z.lxor a b))
  | _, _ => v
  end.

Definition ConstantTimeCompare (x y : list Z) : Z :=
  if negb (Nat.eqb (length x) (length y)) then 0
  else ConstantTimeByteEq (differences x y 0) 0.

End Subtle.

(** ** internal/apikey (apikey.go)

  Argon2id is a parameter of the model; the random source is taken not
  to fail and its bytes are arguments. *)

Module ApiKey.

Definition KeyPrefix : string := "arq_".
Definition KeyLength : nat := 32.
Definition Argon2Time : Z := 3.
Definition Argon2Memory : Z := 64 * 1024.
Definition Argon2Threads : Z := 4.
Definition Argon2KeyLen : Z := 32.
Definition SaltLength : nat := 16.

(** [Generate] with the bytes [randomBytes] read from the random source. *)
Definition Generate (randomBytes : list Z) : string :=
  KeyPrefix +:+ Base64.EncodeToString Base64.URLAlphabet randomBytes.

(** [parseHash]: the salt and the hash, or [None] for an error. *)
Definition parseHash (encodedHash : string) : option (list Z * list Z) :=
  match Go.Cut encodedHash ":" with
  | None => None
  | Some (saltText, hashText) =>
      match Base64.DecodeString Base64.StdAlphabet saltText with
      | None => None
      | Some salt =>
          match Base64.DecodeString Base64.StdAlphabet hashText with
          | None => None
          | Some hash => Some (salt, hash)
          end
      end
  end.

(** [ValidateFormat] *)
Definition ValidateFormat (apiKey : string) : bool :=
  if Nat.ltb (String.length apiKey) (String.length KeyPrefix) then false
  else if negb (String.eqb (String.substring 0 (String.length KeyPrefix) apiKey) KeyPrefix)
  then false
  else if negb (Nat.eqb (String.length apiKey) (String.length KeyPrefix + 43)) then false
  else
    let encoded := String.substring (String.length KeyPrefix)
                     (String.length apiKey - String.length KeyPrefix) apiKey in
    match Base64.DecodeString Base64.URLAlphabet encoded with
    | None => false
    | Some decoded => Nat.eqb (length decoded) KeyLength
    end.

(** [ValidateConstantTime] *)
Definition ValidateConstantTime (a b : string) : bool :=
  Subtle.ConstantTimeCompare (Go.bytesOf a) (Go.bytesOf b) =? 1.

Section Argon2.

(** [argon2.IDKey password salt time memory threads keyLen] *)
Variable IDKey : list Z -> list Z -> Z -> Z -> Z -> Z -> list Z.

(** [Hash] with the bytes [salt] read from the random source. *)
Definition Hash (apiKey : string) (salt : list Z) : string :=
  let hash := IDKey (Go.bytesOf apiKey) salt Argon2Time Argon2Memory Argon2Threads
                Argon2KeyLen in
  Base64.EncodeToString Base64.StdAlphabet salt +:+ ":"
    +:+ Base64.EncodeToString Base64.StdAlphabet hash.

Definition Validate (apiKey encodedHash : string) : bool :=
  match parseHash encodedHash with
  | None => false
  | Some (salt, hash) =>
      let computedHash := IDKey (Go.bytesOf apiKey) salt Argon2Time Argon2Memory
                            Argon2Threads Argon2KeyLen in
      Subtle.ConstantTimeCompare hash computedHash =? 1
  end.

Definition GenerateWithHash (randomBytes salt : list Z) : string * string :=
  let apiKey := Generate randomBytes in (apiKey, Hash apiKey salt).

(** ** internal/middleware (auth.go) *)

(** [APIKeyAuth apiKeyHash] on a request with the [Authorization] header
    [authHeader]: the message of the 401 answer, or [None] when the
    request goes on. *)
Definition APIKeyAuth (apiKeyHash authHeader : string) : option string :=
  if String.eqb authHeader "" then Some "Missing Authorization header"
  else
    match Go.SplitN authHeader " " 2 with
    | [scheme; providedKey] =>
        if negb (String.eqb scheme "Bearer")
        then Some "Invalid Authorization header format. Expected: Bearer <api_key>"
        else if negb (ValidateFormat providedKey) then Some "Invalid API key format"
        else if negb (Validate providedKey apiKeyHash) then Some "Invalid API key"
        else None
    | _ => Some "Invalid Authorization header format. Expected: Bearer <api_key>"
    end.

End Argon2.

End ApiKey.

(** ** Invariants and expected values

  What the properties of Part III are stated with, beside the definitions
  of the code. *)

Module Invariants.

Import Models.

(** Every row of the table is stored under its own id. *)
Definition rowsKeyed (rows : gmap string EdgeService) : Prop :=
  forall id row, rows !! id = Some row -> svcID row = id.

(** Every row of the table is stored under its own id and passes
    [validateService]. *)
Definition rowsValid (rows : gmap string EdgeService) : Prop :=
  forall id row, rows !! id = Some row ->
    svcID row = id /\ Signaling.validateService row = None.

(** Every id of the registry points to a connected descriptor with this
    id. *)
Definition registryOK (r : Registry.Registry) : Prop :=
  forall id p, Registry.peers r !! id = Some p ->
    exists peer, Registry.heap r !! p = Some peer /\ ID peer = id /\ Connected peer = true.

(** The connection map and the registry hold the same ids, with the same
    descriptors. *)
Definition mapsAgree (s : Signaling.Server) : Prop :=
  forall id,
    Signaling.pcPeer <$> Signaling.connections s !! id
    = Registry.peers (Signaling.registry s) !! id.

(** A byte. *)
Definition isByte (b : Z) : Prop := 0 <= b < 256.

End Invariants.

Module Props.

Import Models.

(** The password of the last entry for [username] in the list of static
    users of the configuration. *)
Fixpoint lastPassword (users : list (string * string)) (username : string)
    : option string :=
  match users with
  | [] => None
  | user :: rest =>
      match lastPassword rest username with
      | Some password => Some password
      | None => if String.eqb user.1 username then Some user.2 else None
      end
  end.


(** The entries the loop of [CleanupStale] removes out of a list of
    entries. *)
Definition staleEntries (r : Registry.Registry) (now : Go.Time) (timeout : Z)
    (l : list (string * nat))
    : list (string * nat) :=
  List.filter (fun entry => RegistryMore.stale r now timeout entry.2) l.

(** A registry with one edge, for examples. *)
Definition oneEdge : Registry.Registry :=
  Registry.AddPeer
    (Registry.mkRegistry
       {[ 1%nat := mkPeer "E" "edge" "" "" "" false Go.zeroTime Go.zeroTime ]} ∅)
    1 (Go.Unix 1700000000) (Go.Unix 1700000000).

(** An alphabet of sixty-four different characters with no new line, no
    carriage return and not the character [c]. *)
Definition alphabetOK (enc : Base64.Encoding) (c : ascii) : bool :=
  List.forallb
    (fun v =>
       match Base64.decodeMap enc (enc v) with Some w => w =? v | None => false end
       && negb (Ascii.eqb (enc v) "010"%char) && negb (Ascii.eqb (enc v) "013"%char)
       && negb (Ascii.eqb (enc v) c))
    (List.map Z.of_nat (List.seq 0 64)).

(** A stand-in for a key derivation, for examples. *)
Definition sampleKDF (password salt : list Z) (time memory threads keyLen : Z) : list Z :=
  List.map (fun b => b mod 256) (salt ++ password).

End Props.

(* ===================================================================== *)
(** * Part II: properties *)
(* ===================================================================== *)

Arguments Turn.GenerateAuthKey : simpl never.
Arguments Turn.restPassword : simpl never.

(** Closed goals are settled by evaluation. *)
Ltac by_compute := vm_compute; first [reflexivity | discriminate | congruence].

(** ** The library functions on known values, and the tests of the
       repository on the model *)

Section KnownValues.

Import Go Crypto Turn.

Example sha256_abc :
  hex (sha256 (bytesOf "abc"))
  = "ba7816bf8f01cfea414140de5dae2223b00361a396177a9cb410ff61f20015ad".
Proof. by_compute. Qed.

Example sha256_two_blocks :
  hex (sha256 (bytesOf "abcdbcdecdefdefgefghfghighijhijkijkljklmklmnlmnomnopnopq"))
  = "248d6a61d20638b8e5c026930c3e6039a33ce45964ff2167f6ecedd419db06c1".
Proof. by_compute. Qed.

Example md5_abc : hex (md5 (bytesOf "abc")) = "900150983cd24fb0d6963f7d28e17f72".
Proof. by_compute. Qed.

Example hmac_sha256_rfc4231_case2 :
  hex (hmac_sha256 (bytesOf "Jefe") (bytesOf "what do ya want for nothing?"))
  = "5bdcc146bf60754e6a042426089575c75a003f089d2739839dec58b964ec3843".
Proof. by_compute. Qed.

Example base64_rfc4648 :
  base64 (bytesOf "f") = "Zg==" /\ base64 (bytesOf "fo") = "Zm8="
  /\ base64 (bytesOf "foo") = "Zm9v" /\ base64 (bytesOf "foobar") = "Zm9vYmFy".
Proof. repeat split; by_compute. Qed.

Example ParseInt_values :
  ParseInt "1700000060" = Some 1700000060 /\ ParseInt "-123" = Some (-123)
  /\ ParseInt "+7" = Some 7 /\ ParseInt "" = None /\ ParseInt "abc" = None
  /\ ParseInt "123.45" = None /\ ParseInt "9223372036854775807" = Some MaxInt64
  /\ ParseInt "9223372036854775808" = None
  /\ ParseInt "-9223372036854775808" = Some MinInt64.
Proof. repeat split; by_compute. Qed.

Example SplitN_values :
  SplitN "edge:peer" ":" 3 = ["edge"; "peer"]
  /\ SplitN "edge:peer:" ":" 3 = ["edge"; "peer"; ""]
  /\ SplitN "edge:a:b:17" ":" 3 = ["edge"; "a"; "b:17"]
  /\ SplitN "" ":" 3 = [""].
Proof. repeat split; by_compute. Qed.

(** auth_test.go: the user names [TestAuthHandler_RESTAuth_InvalidUsernameFormat]
    and [TestAuthHandler_RESTAuth_InvalidTimestamp] expect to be refused. *)
Example restAuth_invalid_usernames :
  let h := NewAuthHandler "rest" "secret" [] 86400 ∅ in
  let now := Unix 1700000000 in
  List.map (fun username => restAuth h username "test.com" now now)
    ["edge:peer"; "edge"; ""; "edge:peer:"; "edge:peer:abc"; "edge:peer:123.45";
     "edge:peer:-123"]
  = [None; None; None; None; None; None; None].
Proof. by_compute. Qed.

(** auth_test.go, [TestAuthHandler_RESTAuth_BoundaryExpiry], for a clock
    that reads half a second past 1700000000. *)
Example restAuth_boundary_expiry :
  let h := NewAuthHandler "rest" "secret" [] 86400 ∅ in
  let now := mkTime (sec (Unix 1700000000)) 500000000 in
  List.map (fun expiry =>
              bool_decide (is_Some (restAuth h ("edge:peer:" +:+ FormatInt expiry)
                                      "test.com" now now)))
    [1700000000; 1700000001; 1700000000 + 47 * 3600; 1700000000 + 48 * 3600;
     1700000000 + 48 * 3600 + 1]
  = [false; true; true; true; false].
Proof. by_compute. Qed.

(** auth_test.go, [TestAuthHandler_RESTAuth_EmptySecret] and the first
    case of [TestAuthHandler_RESTAuth_OldSecrets]. *)
Example restAuth_secrets :
  let now := Unix 1700000000 in
  let username := "edge:peer1:1700003600" in
  restAuth (NewAuthHandler "rest" "" [""] 86400 ∅) username "test.com" now now = None
  /\ restAuth (NewAuthHandler "rest" "current-secret" ["old-secret"; "very-old-secret"]
                 86400 ∅) username "test.com" now now
     = Some (GenerateAuthKey username "test.com" (restPassword "current-secret" username)).
Proof. cbv zeta. split; by_compute. Qed.

(** validation_test.go *)
Example validateService_table :
  let svc id edge name tunnel host port proto :=
    Models.mkEdgeService id edge name tunnel host port proto true zeroTime zeroTime in
  Signaling.validateService (svc "svc-123" "edge-1" "my-service" 8080 "localhost" 3000 "http") = None
  /\ Signaling.validateService
       (svc "svc-456" "edge-1" "my_web-service_123" 8080 "localhost" 3000 "websocket") = None
  /\ Signaling.validateService (svc "svc-123" "edge-1" "" 8080 "localhost" 3000 "http")
     = Some "service name is required"
  /\ Signaling.validateService (svc "svc-123" "edge-1" "my service!" 8080 "localhost" 3000 "http")
     = Some "service name must contain only alphanumeric, hyphens, underscores, and spaces"
  /\ Signaling.validateService (svc "" "edge-1" "my-service" 8080 "localhost" 3000 "http")
     = Some "service ID is required"
  /\ Signaling.validateService (svc "svc-123" "" "my-service" 8080 "localhost" 3000 "http")
     = Some "edge ID is required"
  /\ Signaling.validateService (svc "svc-123" "edge-1" "my-service" 8080 "" 3000 "http")
     = Some "local host is required"
  /\ Signaling.validateService (svc "svc-123" "edge-1" "my-service" 65536 "localhost" 3000 "http")
     = Some "invalid tunnel port: 65536 (must be 1-65535)"
  /\ Signaling.validateService (svc "svc-123" "edge-1" "my-service" 8080 "localhost" 0 "http")
     = Some "invalid local port: 0 (must be 1-65535)"
  /\ Signaling.validateService (svc "svc-123" "edge-1" "my-service" 8080 "localhost" 3000 "grpc")
     = Some "invalid protocol: grpc (must be http or websocket)"
  /\ Signaling.validateService (svc "svc-12345" "edge-1" "my-service" 8080 "localhost" 3000 "http")
     = Some "service ID too long (max 8 characters)".
Proof. cbv zeta. repeat split; by_compute. Qed.

(** registry_test.go, [TestRegistry_AddPeer_Update] and
    [TestRegistry_CreatedAtTimestamp]. *)
Example registry_tests :
  let now := Unix 1700000000 in
  let earlier := Unix 1699996400 in
  let fresh key := Models.mkPeer "peer-1" "edge" "" key "" false zeroTime zeroTime in
  let r0 := Registry.mkRegistry {[1%nat := fresh "key123"; 2%nat := fresh "new-key456";
                                   3%nat := Models.mkPeer "peer-2" "edge" "" "" "" false
                                              zeroTime earlier]} ∅ in
  let r2 := Registry.AddPeer (Registry.AddPeer r0 1 now now) 2 now now in
  let r3 := Registry.AddPeer r2 3 now now in
  Registry.GetPeerCount r2 = 1%nat
  /\ Models.PublicKey <$> Registry.GetPeer r2 "peer-1" = Some "new-key456"
  /\ Models.CreatedAt <$> Registry.GetPeer r2 "peer-1" = Some now
  /\ Models.CreatedAt <$> Registry.GetPeer r3 "peer-2" = Some earlier.
Proof. cbv zeta. repeat split; by_compute. Qed.

(** sqlite_test.go, [TestDeleteEdgeService] and
    [TestDeleteEdgeService_NotFound]. *)
Example storage_delete_tests :
  let now := Unix 1700000000 in
  let service := Models.mkEdgeService "svc-123" "edge-1" "test-service" 8080 "localhost" 3000
                   "http" true now now in
  let created := (Storage.CreateEdgeService Storage.empty service).1 in
  let deleted := Storage.DeleteEdgeService created "svc-123" in
  deleted.2 = None
  /\ (Storage.GetEdgeService deleted.1 "svc-123").2 = inr "service not found"
  /\ (Storage.DeleteEdgeService Storage.empty "svc-999").2 = Some "service not found".
Proof. cbv zeta. repeat split; by_compute. Qed.

End KnownValues.

(** ** The library functions: general facts *)

Section GoFacts.

Import Go.

Lemma wrap64_small x : MinInt64 <= x <= MaxInt64 -> wrap64 x = x.
Proof.
  unfold wrap64, MinInt64, MaxInt64. intros H.
  rewrite Z.mod_small; lia.
Qed.

Lemma wrap64_range x : MinInt64 <= wrap64 x <= MaxInt64.
Proof.
  unfold wrap64, MinInt64, MaxInt64.
  pose proof (Z.mod_pos_bound (x + 2 ^ 63) (2 ^ 64)). lia.
Qed.

Lemma wrap64_over x : MaxInt64 < x < 2 ^ 64 -> wrap64 x = x - 2 ^ 64.
Proof.
  unfold wrap64, MaxInt64. intros H.
  replace (x + 2 ^ 63) with ((x - 2 ^ 63) + 1 * 2 ^ 64) by lia.
  rewrite Z.mod_add by lia. rewrite Z.mod_small; lia.
Qed.

Lemma digit_cases d : 0 <= d < 10 ->
  isDigit (digitChar d) = true /\ digitVal (digitChar d) = d.
Proof.
  intros H.
  assert (Hd : d = 0 \/ d = 1 \/ d = 2 \/ d = 3 \/ d = 4 \/ d = 5 \/ d = 6
               \/ d = 7 \/ d = 8 \/ d = 9) by lia.
  repeat (destruct Hd as [-> | Hd]; [split; reflexivity |]).
  subst d. split; reflexivity.
Qed.

(** Reading the digits that [formatDigits] writes gives the number back,
    whatever was read before and whatever follows. *)
Lemma parse_formatDigits fuel : forall n suffix acc,
  0 <= n < 10 ^ Z.of_nat fuel ->
  exists k, 0 <= k /\
    parseDigits (formatDigits fuel n suffix) acc
    = parseDigits suffix (acc * 10 ^ k + n).
Proof.
  induction fuel as [| fuel IH]; intros n suffix acc Hn.
  - change (10 ^ Z.of_nat 0) with 1 in Hn. exists 0. split; [lia |].
    cbn [formatDigits]. f_equal; lia.
  - cbn [formatDigits]. destruct (n <? 10) eqn:Hlt.
    + apply Z.ltb_lt in Hlt. exists 1. split; [lia |].
      rewrite Z.mod_small by lia. cbn [parseDigits].
      destruct (digit_cases n ltac:(lia)) as [-> ->].
      f_equal; lia.
    + apply Z.ltb_ge in Hlt.
      assert (Hq : 0 <= n / 10 < 10 ^ Z.of_nat fuel).
      { split; [apply Z.div_pos; lia |].
        apply Z.div_lt_upper_bound; [lia |].
        rewrite Nat2Z.inj_succ, Z.pow_succ_r in Hn by lia. lia. }
      destruct (IH (n / 10) (String (digitChar (n mod 10)) suffix) acc Hq)
        as (k & Hk & ->).
      exists (k + 1). split; [lia |].
      cbn [parseDigits].
      pose proof (Z.mod_pos_bound n 10 ltac:(lia)) as Hm.
      destruct (digit_cases (n mod 10) Hm) as [-> ->].
      f_equal. rewrite Z.pow_add_r by lia.
      pose proof (Z.div_mod n 10 ltac:(lia)). lia.
  Qed.

Lemma formatDigits_nonempty fuel n suffix :
  formatDigits (S fuel) n suffix <> EmptyString.
Proof.
  revert n suffix. induction fuel as [| fuel IH]; intros n suffix.
  - cbn. destruct (n <? 10); discriminate.
  - cbn [formatDigits]. destruct (n <? 10); [discriminate |]. apply IH.
Qed.

Lemma formatDigits_head fuel n suffix :
  0 <= n ->
  exists c rest, formatDigits (S fuel) n suffix = String c rest /\ isDigit c = true.
Proof.
  revert n suffix. induction fuel as [| fuel IH]; intros n suffix Hn.
  - cbn [formatDigits].
    pose proof (Z.mod_pos_bound n 10 ltac:(lia)) as Hm.
    destruct (digit_cases (n mod 10) Hm) as [Hd _].
    destruct (n <? 10); eauto.
  - cbn [formatDigits].
    pose proof (Z.mod_pos_bound n 10 ltac:(lia)) as Hm.
    destruct (digit_cases (n mod 10) Hm) as [Hd _].
    destruct (n <? 10); [eauto |].
    apply IH. apply Z.div_pos; lia.
Qed.

Lemma ParseUint_formatDigits n :
  0 <= n < 2 ^ 64 -> ParseUint (formatDigits 20 n EmptyString) = Some n.
Proof.
  intros Hn. unfold ParseUint.
  destruct (formatDigits 20 n EmptyString) eqn:E.
  - exfalso. eapply formatDigits_nonempty; eauto.
  - rewrite <- E.
    destruct (parse_formatDigits 20 n EmptyString 0) as (k & _ & ->).
    { change (10 ^ Z.of_nat 20) with 100000000000000000000. lia. }
    cbn [parseDigits]. rewrite Z.mul_0_l, Z.add_0_l.
    destruct (n <? 2 ^ 64) eqn:Hlt; [reflexivity |].
    apply Z.ltb_ge in Hlt. lia.
Qed.

(** [strconv.ParseInt] reads back what [strconv.FormatInt] prints. *)
Lemma ParseInt_FormatInt n :
  MinInt64 <= n <= MaxInt64 -> ParseInt (FormatInt n) = Some n.
Proof.
  unfold MinInt64, MaxInt64, FormatInt. intros Hn.
  destruct (n <? 0) eqn:Hneg.
  - apply Z.ltb_lt in Hneg. unfold ParseInt.
    change (Ascii.eqb "-" "-") with true.
    change (Ascii.eqb "-" "+") with false. cbn [orb negb andb].
    rewrite ParseUint_formatDigits by lia.
    destruct (2 ^ 63 <? - n) eqn:Hlt; [apply Z.ltb_lt in Hlt; lia |].
    f_equal. lia.
  - apply Z.ltb_ge in Hneg.
    destruct (formatDigits_head 19 n EmptyString Hneg) as (c & rest & E & Hc).
    unfold ParseInt. rewrite E.
    assert (Hm : Ascii.eqb c "-" = false).
    { destruct (Ascii.eqb_spec c "-"%char) as [-> |]; [discriminate | reflexivity]. }
    assert (Hp : Ascii.eqb c "+" = false).
    { destruct (Ascii.eqb_spec c "+"%char) as [-> |]; [discriminate | reflexivity]. }
    rewrite Hm, Hp. cbn [orb negb andb]. rewrite <- E.
    rewrite ParseUint_formatDigits by lia.
    destruct (2 ^ 63 <=? n) eqn:Hle; [apply Z.leb_le in Hle; lia | reflexivity].
Qed.

Lemma Cut_app a b sep :
  ContainsByte a sep = false -> Cut (a +:+ String sep b) sep = Some (a, b).
Proof.
  induction a as [| c a IH]; intros H; simpl in *.
  - rewrite Ascii.eqb_refl. reflexivity.
  - apply orb_false_iff in H as [Hc Ha]. rewrite Hc, (IH Ha). reflexivity.
Qed.

(** A text of three fields, the first two free of the separator, splits
    into these fields. *)
Lemma SplitN_three a b c sep :
  ContainsByte a sep = false -> ContainsByte b sep = false ->
  SplitN (a +:+ String sep (b +:+ String sep c)) sep 3 = [a; b; c].
Proof.
  intros Ha Hb. cbn [SplitN]. rewrite (Cut_app _ _ _ Ha), (Cut_app _ _ _ Hb).
  reflexivity.
Qed.

End GoFacts.

(** ** TURN authentication *)

Section TurnFacts.

Import Go Turn Spec.

Lemma trySecrets_is_Some secrets username realm :
  is_Some (trySecrets secrets username realm)
  <-> exists s, In s secrets /\ s <> "".
Proof.
  induction secrets as [| s rest IH]; cbn [trySecrets].
  - split; [intros [k Hk]; discriminate | intros (s & [] & _)].
  - destruct (String.eqb_spec s "") as [-> | Hne].
    + rewrite IH. split.
      * intros (s & Hin & Hs). exists s. split; [right; exact Hin | exact Hs].
      * intros (s & [<- | Hin] & Hs); [congruence | eauto].
    + split; [| intros _; eexists; reflexivity].
      intros _. exists s. split; [left; reflexivity | exact Hne].
Qed.

(** With a current secret that is not empty, the loop ends in its first
    round: the old secrets are not looked at. *)
Lemma trySecrets_current current olds username realm :
  current <> "" ->
  trySecrets (current :: olds) username realm
  = Some (GenerateAuthKey username realm (restPassword current username)).
Proof.
  intros Hne. cbn [trySecrets].
  destruct (String.eqb_spec current ""); [contradiction | reflexivity].
Qed.

(** [restAuth] on a user name of three fields. *)
Lemma restAuth_three_fields h peerType peerID expiry realm now1 now2 :
  noColon peerType -> noColon peerID -> MinInt64 <= expiry <= MaxInt64 ->
  restAuth h (peerType +:+ ":" +:+ peerID +:+ ":" +:+ FormatInt expiry) realm now1 now2
  = if Before (Unix expiry) now1 then None
    else if After (Unix expiry) (Add now2 (48 * Hour)) then None
    else trySecrets (secret h :: oldSecrets h)
           (peerType +:+ ":" +:+ peerID +:+ ":" +:+ FormatInt expiry) realm.
Proof.
  intros Ht Hi He. unfold restAuth.
  change (":" +:+ peerID +:+ ":" +:+ FormatInt expiry)
    with (String ":" (peerID +:+ String ":" (FormatInt expiry))).
  rewrite (SplitN_three _ _ _ _ Ht Hi), (ParseInt_FormatInt _ He).
  reflexivity.
Qed.

Lemma Add_48h now :
  validClock now -> Add now (48 * Hour) = mkTime (sec now + 172800) (nsec now).
Proof.
  intros [Hs Hn]. unfold Add.
  change (Z.quot (48 * Hour) Second) with 172800.
  change (Z.rem (48 * Hour) Second) with 0.
  rewrite Z.add_0_r. unfold Second in *.
  destruct (1000000000 <=? nsec now) eqn:E1; [apply Z.leb_le in E1; lia |].
  destruct (nsec now <? 0) eqn:E2; [apply Z.ltb_lt in E2; lia |].
  rewrite wrap64_small; [reflexivity |]. unfold MinInt64, MaxInt64. lia.
Qed.

(** The two tests on the expiry, read as a window of instants. *)
Lemma expiry_tests expiry now1 now2 :
  validClock now1 -> validClock now2 -> MinInt64 <= expiry <= MaxInt64 ->
  (Before (Unix expiry) now1 = false
   /\ After (Unix expiry) (Add now2 (48 * Hour)) = false)
  <-> (unixNano now1 <= expiry * Second
       /\ expiry * Second <= unixNano now2 + 48 * Hour).
Proof.
  intros H1 H2 He. rewrite (Add_48h _ H2).
  destruct H1 as [Hs1 Hn1], H2 as [Hs2 Hn2].
  unfold Before, After, Unix, unixNano, Hour, Second, MinInt64, MaxInt64,
    unixToInternal in *.
  cbn [sec nsec].
  destruct (Z_le_gt_dec (expiry + 62135596800) (2 ^ 63 - 1)) as [Hsmall | Hbig].
  - rewrite wrap64_small by (unfold MinInt64, MaxInt64; lia).
    rewrite !orb_false_iff, !andb_false_iff, !Z.ltb_ge, !Z.eqb_neq. lia.
  - rewrite wrap64_over by (unfold MaxInt64; lia).
    rewrite !orb_false_iff, !andb_false_iff, !Z.ltb_ge, !Z.eqb_neq. lia.
Qed.

End TurnFacts.


Section TurnClaims.

Import Go Turn Spec.

(** C1 (as the code has it).  For a credential issued for a peer type and a peer
    id free of [":"], the authentication callback returns key material
    exactly when the expiry written in the user name is not before the
    first reading of the clock, is at most 48 hours after the second
    reading, and the snapshot of the secrets holds a secret that is not
    empty.  The callback is given no password and compares none. *)
Theorem restAuth_accepts_iff h cfg peerType peerID ttl t0 realm now1 now2
    username password expiry :
  noColon peerType -> noColon peerID ->
  validClock now1 -> validClock now2 ->
  Credentials.generateTURNCredentials cfg t0 peerType peerID ttl
  = (username, password, expiry) ->
  is_Some (restAuth h username realm now1 now2)
  <-> (unixNano now1 <= expiry * Second
       /\ expiry * Second <= unixNano now2 + 48 * Hour
       /\ hasSecret h).
Proof.
  intros Ht Hi H1 H2 Hgen. unfold Credentials.generateTURNCredentials in Hgen.
  injection Hgen as <- _ <-.
  pose proof (wrap64_range (toUnix t0 + ttl)) as He.
  rewrite (restAuth_three_fields _ _ _ _ _ _ _ Ht Hi He).
  pose proof (expiry_tests _ _ _ H1 H2 He) as Hwin.
  destruct (Before _ now1) eqn:Eb.
  - split; [intros [k Hk]; discriminate |].
    intros (Ha & Hb & _). destruct Hwin as [_ Hwin].
    destruct (Hwin (conj Ha Hb)) as [Hf _]. discriminate.
  - destruct (After _ _) eqn:Ea.
    + split; [intros [k Hk]; discriminate |].
      intros (Ha & Hb & _). destruct Hwin as [_ Hwin].
      destruct (Hwin (conj Ha Hb)) as [_ Hf]. discriminate.
    + rewrite trySecrets_is_Some. destruct Hwin as [Hwin _].
      destruct (Hwin (conj eq_refl eq_refl)) as [Ha Hb].
      unfold hasSecret. tauto.
Qed.

Lemma restAuth_accepts_iff_witness :
  is_Some (restAuth (NewAuthHandler "rest" "s" [] 60 ∅) "edge:e1:1700000060" "realm"
             (Unix 1700000030) (Unix 1700000030))
  <-> (unixNano (Unix 1700000030) <= 1700000060 * Second
       /\ 1700000060 * Second <= unixNano (Unix 1700000030) + 48 * Hour
       /\ hasSecret (NewAuthHandler "rest" "s" [] 60 ∅)).
Proof.
  apply (restAuth_accepts_iff (NewAuthHandler "rest" "s" [] 60 ∅)
           (Config.mkTurnConfig "203.0.113.7" 0 "rest" "s" [] 60 []) "edge" "e1" 60
           (Unix 1700000000) "realm" (Unix 1700000030) (Unix 1700000030)
           "edge:e1:1700000060" "QsXAFK8itNMd/SctQyPvyfBjH9Jy6xYzWFfu/DXMLuw="
           1700000060).
  - reflexivity.
  - reflexivity.
  - repeat split; by_compute.
  - repeat split; by_compute.
  - vm_compute. reflexivity.
Defined.

(** C1, as stated, fails on the code in four ways: a credential of 72
    hours examined at its issuance meets the stated window and the stated
    password condition and is rejected; a credential examined at the very
    second of its expiry is outside the stated window and gets key
    material; a credential whose password matches no secret of the
    snapshot gets key material; a credential for the peer id ["a:b"]
    meets the stated conditions and is rejected. *)
Lemma restAuth_claimed_conditions_fail :
  (claimedWindow 1700000000 259200 1700000000
   /\ claimedPasswordMatch (NewAuthHandler "rest" "s" [] 60 ∅)
        "edge:e1:1700259200" (restPassword "s" "edge:e1:1700259200")
   /\ restAuth (NewAuthHandler "rest" "s" [] 60 ∅) "edge:e1:1700259200" "realm"
        (Unix 1700000000) (Unix 1700000000) = None)
  /\ (~ claimedWindow 1700000000 60 1700000060
      /\ restAuth (NewAuthHandler "rest" "s" [] 60 ∅) "edge:e1:1700000060" "realm"
           (Unix 1700000060) (Unix 1700000060) <> None)
  /\ (~ claimedPasswordMatch (NewAuthHandler "rest" "other" [] 60 ∅)
          "edge:e1:1700000060" (restPassword "s" "edge:e1:1700000060")
      /\ restAuth (NewAuthHandler "rest" "other" [] 60 ∅) "edge:e1:1700000060" "realm"
           (Unix 1700000030) (Unix 1700000030) <> None)
  /\ (claimedWindow 1700000000 60 1700000030
      /\ claimedPasswordMatch (NewAuthHandler "rest" "s" [] 60 ∅)
           "edge:a:b:1700000060" (restPassword "s" "edge:a:b:1700000060")
      /\ restAuth (NewAuthHandler "rest" "s" [] 60 ∅) "edge:a:b:1700000060" "realm"
           (Unix 1700000030) (Unix 1700000030) = None).
Proof.
  split; [| split; [| split]]; [| | |
    split; [unfold claimedWindow; lia |];
    split; [| by_compute];
    exists "s"; split; [left; reflexivity |]; split; [discriminate | reflexivity]].
  - split; [unfold claimedWindow; lia |]. split.
    + exists "s". split; [left; reflexivity |]. split; [discriminate | reflexivity].
    + by_compute.
  - split; [unfold claimedWindow; lia | by_compute].
  - split; [| by_compute].
    intros (s & [<- | []] & _ & Heq). vm_compute in Heq. discriminate.
Qed.

(** C9 (as the code has it).  A credential issued for a peer type and a peer id
    free of [":"], under a secret that is not empty and with a ttl of at
    most 48 hours, gets from the validator that holds this secret as its
    current one the key of its own password, at every instant from the
    second of issuance to the second of expiry. *)
Theorem issue_verify_roundtrip h cfg peerType peerID ttl t0 realm now1 now2
    username password expiry :
  noColon peerType -> noColon peerID ->
  Config.AuthSecret cfg <> "" -> secret h = Config.AuthSecret cfg ->
  validClock t0 -> validClock now1 -> validClock now2 ->
  ttl <= 48 * 3600 ->
  Credentials.generateTURNCredentials cfg t0 peerType peerID ttl
  = (username, password, expiry) ->
  toUnix t0 * Second <= unixNano now2 ->
  unixNano now1 <= (toUnix t0 + ttl) * Second ->
  restAuth h username realm now1 now2
  = Some (GenerateAuthKey username realm password).
Proof.
  intros Ht Hi Hs Hh H0 H1 H2 Httl Hgen Hlo Hhi.
  unfold Credentials.generateTURNCredentials in Hgen.
  injection Hgen as <- <- _.
  assert (Hu : toUnix t0 = sec t0 - unixToInternal).
  { unfold toUnix. apply wrap64_small.
    destruct H0 as [H0 _]. unfold MinInt64, MaxInt64, unixToInternal. lia. }
  assert (He : MinInt64 <= toUnix t0 + ttl <= MaxInt64).
  { destruct H0 as [H0 _], H1 as [H1 H1'].
    unfold unixNano, Second, MinInt64, MaxInt64, unixToInternal in *. lia. }
  rewrite (wrap64_small _ He).
  rewrite (restAuth_three_fields _ _ _ _ _ _ _ Ht Hi He).
  destruct (expiry_tests _ _ _ H1 H2 He) as [_ Hwin].
  destruct Hwin as [-> ->].
  { split; [exact Hhi |]. unfold Hour, Second in *. lia. }
  rewrite Hh. apply trySecrets_current. exact Hs.
Qed.

Lemma issue_verify_roundtrip_witness :
  restAuth (NewAuthHandler "rest" "s" [] 60 ∅) "edge:e1:1700000060" "realm"
    (Unix 1700000030) (Unix 1700000030)
  = Some (GenerateAuthKey "edge:e1:1700000060" "realm"
            "QsXAFK8itNMd/SctQyPvyfBjH9Jy6xYzWFfu/DXMLuw=").
Proof.
  apply (issue_verify_roundtrip (NewAuthHandler "rest" "s" [] 60 ∅)
           (Config.mkTurnConfig "203.0.113.7" 0 "rest" "s" [] 60 []) "edge" "e1" 60
           (Unix 1700000000) "realm" (Unix 1700000030) (Unix 1700000030)
           "edge:e1:1700000060" "QsXAFK8itNMd/SctQyPvyfBjH9Jy6xYzWFfu/DXMLuw="
           1700000060).
  - reflexivity.
  - reflexivity.
  - discriminate.
  - reflexivity.
  - repeat split; by_compute.
  - repeat split; by_compute.
  - repeat split; by_compute.
  - by_compute.
  - vm_compute. reflexivity.
  - by_compute.
  - by_compute.
Defined.

(** C9, as stated, fails on the code: under the single secret ["s"], a
    credential for the peer id ["a:b"] is rejected half a minute after
    its issuance; so is, at its issuance, a credential of 72 hours; so is
    a credential of one second issued nine tenths into a second and
    examined six tenths of a second later; and under the empty secret
    every credential is rejected. *)
Lemma issue_verify_roundtrip_fails :
  restAuth (NewAuthHandler "rest" "s" [] 60 ∅)
    (Credentials.generateTURNCredentials (Config.mkTurnConfig "203.0.113.7" 0 "rest" "s" [] 60 [])
       (Unix 1700000000) "edge" "a:b" 60).1.1
    "realm" (Unix 1700000030) (Unix 1700000030) = None
  /\ restAuth (NewAuthHandler "rest" "s" [] 60 ∅)
       (Credentials.generateTURNCredentials (Config.mkTurnConfig "203.0.113.7" 0 "rest" "s" [] 60 [])
          (Unix 1700000000) "edge" "e1" 259200).1.1
       "realm" (Unix 1700000000) (Unix 1700000000) = None
  /\ restAuth (NewAuthHandler "rest" "s" [] 60 ∅)
       (Credentials.generateTURNCredentials (Config.mkTurnConfig "203.0.113.7" 0 "rest" "s" [] 60 [])
          (mkTime (sec (Unix 1700000000)) 900000000) "edge" "e1" 1).1.1
       "realm" (mkTime (sec (Unix 1700000001)) 500000000)
       (mkTime (sec (Unix 1700000001)) 500000000) = None
  /\ restAuth (NewAuthHandler "rest" "" [] 60 ∅)
       (Credentials.generateTURNCredentials (Config.mkTurnConfig "203.0.113.7" 0 "rest" "" [] 60 [])
          (Unix 1700000000) "edge" "e1" 60).1.1
       "realm" (Unix 1700000030) (Unix 1700000030) = None.
Proof. repeat split; by_compute. Qed.


(** Whatever the old secrets are, the key returned is the one of the
    current secret when that is not empty. *)
Lemma restAuth_ignores_old_secrets h username realm now1 now2 key :
  secret h <> "" ->
  restAuth h username realm now1 now2 = Some key ->
  key = GenerateAuthKey username realm (restPassword (secret h) username).
Proof.
  intros Hs. unfold restAuth.
  destruct (SplitN username ":" 3) as [| a [| b [| c [| d l]]]]; try discriminate.
  destruct (ParseInt c); [| discriminate].
  destruct (Before _ _); [discriminate |].
  destruct (After _ _); [discriminate |].
  rewrite (trySecrets_current _ _ _ _ Hs). congruence.
Qed.

(** C2 on the code, at the rotation scenario of the specification: the
    credential issued under ["a"] at 1700000000 for 60 seconds is examined
    at 1700000030.  After the rotation to ["b"] with old secret ["a"] the
    callback returns the key of the password under ["b"], which is not
    the key of the credential's own password, the one the client signs
    its request with; and after the second rotation, to ["c"] with old
    secret ["b"], the callback still returns key material for it. *)
Theorem rotation_grace_secret_not_used :
  let h0 := NewAuthHandler "rest" "a" [] 60 ∅ in
  let h1 := UpdateSecrets h0 "b" ["a"] 60 in
  let h2 := UpdateSecrets h1 "c" ["b"] 60 in
  let username := "edge:e1:1700000060" in
  let password := restPassword "a" username in
  let now := Unix 1700000030 in
  Credentials.generateTURNCredentials (Config.mkTurnConfig "203.0.113.7" 0 "rest" "a" [] 60 [])
    (Unix 1700000000) "edge" "e1" 60 = (username, password, 1700000060)
  /\ restAuth h0 username "realm" now now
     = Some (GenerateAuthKey username "realm" password)
  /\ restAuth h1 username "realm" now now
     = Some (GenerateAuthKey username "realm" (restPassword "b" username))
  /\ GenerateAuthKey username "realm" (restPassword "b" username)
     <> GenerateAuthKey username "realm" password
  /\ restAuth h2 username "realm" now now
     = Some (GenerateAuthKey username "realm" (restPassword "c" username)).
Proof. repeat split; by_compute. Qed.

End TurnClaims.

(** ** The registry and the hub *)

Section HubFacts.

Import Models Registry Signaling.

Lemma AddPeer_lookup r p peer now1 now2 :
  heap r !! p = Some peer ->
  GetPeer (AddPeer r p now1 now2) (ID peer)
  = Some (mkPeer (ID peer) (Type_ peer) (AccountID peer) (PublicKey peer) (EdgeID peer)
            true now2
            (if Go.IsZero (CreatedAt peer) then now1 else CreatedAt peer)).
Proof.
  intros Hp. unfold AddPeer, GetPeer. rewrite Hp. cbn [peers heap].
  rewrite lookup_insert_eq. apply lookup_insert_eq.
Qed.

Lemma handleWebSocket_registry s conn peerType id edgeID publicKey now1 now2 :
  GetPeer (registry (handleWebSocket s conn peerType id edgeID publicKey now1 now2)) id
  = Some (mkPeer id peerType "" publicKey edgeID true now2 now1).
Proof.
  unfold handleWebSocket.
  set (peer := mkPeer id peerType "" publicKey edgeID false Go.zeroTime Go.zeroTime).
  set (r1 := mkRegistry _ _).
  assert (Hp : heap r1 !! conn = Some peer) by apply lookup_insert_eq.
  pose proof (AddPeer_lookup r1 conn peer now1 now2 Hp) as H.
  cbn [ID Type_ AccountID PublicKey EdgeID CreatedAt peer] in H.
  change (Go.IsZero Go.zeroTime) with true in H. cbn iota in H.
  destruct (connections _ !! id); exact H.
Qed.

Lemma handleWebSocket_peers s conn peerType id edgeID publicKey now1 now2 :
  peers (registry (handleWebSocket s conn peerType id edgeID publicKey now1 now2)) !! id = Some conn.
Proof.
  unfold handleWebSocket, AddPeer. cbn [heap peers registry withRegistry].
  rewrite lookup_insert_eq. cbn [ID].
  destruct (connections _ !! id); cbn; apply lookup_insert_eq.
Qed.

Lemma handleWebSocket_connections s conn peerType id edgeID publicKey now1 now2 :
  connections (handleWebSocket s conn peerType id edgeID publicKey now1 now2) !! id
  = Some (mkPeerConnection conn conn (String.eqb peerType "edge")).
Proof.
  unfold handleWebSocket. cbn [connections withConnections]. apply lookup_insert_eq.
Qed.

(** The incumbent of a duplicate admission is cancelled and closed. *)
Lemma handleWebSocket_preempts s conn peerType id edgeID publicKey now1 now2 old :
  connections s !! id = Some old ->
  pcConn old ∈ cancelled (handleWebSocket s conn peerType id edgeID publicKey now1 now2)
  /\ pcConn old ∈ closed (handleWebSocket s conn peerType id edgeID publicKey now1 now2).
Proof.
  intros Hold. unfold handleWebSocket. cbn [connections withRegistry withConnections].
  rewrite Hold. cbn. set_solver.
Qed.

(** The deferred clean-up removes whatever the two maps hold for the id,
    also when that is another channel's. *)
Lemma cleanup_removes s conn id :
  peers (registry (cleanup s conn id)) !! id = None
  /\ connections (cleanup s conn id) !! id = None.
Proof.
  unfold cleanup, RemovePeer. cbn [registry connections withRegistry withConnections].
  split; [| apply lookup_delete_eq].
  destruct (peers (registry s) !! id) eqn:E; cbn [peers]; [apply lookup_delete_eq | exact E].
Qed.

End HubFacts.

Section HubClaims.

Import Models Registry Signaling.

(** C4 on the code, at the duplicate admission of the specification: the
    edge ["E"] is admitted on channel 1, then on channel 2, and the read
    loop of channel 1 ends.  The second admission cancels and closes
    channel 1 and makes channel 2 the connection of ["E"] in both maps;
    the clean-up of channel 1 then removes the entries of ["E"] from the
    registry and from the connection map, although channel 2 is neither
    cancelled nor closed; its descriptor is marked disconnected. *)
Theorem duplicate_admission_teardown_removes_newcomer :
  let t1 := Go.Unix 1700000000 in
  let t2 := Go.Unix 1700000100 in
  let s0 := New Registry.New Storage.empty in
  let s2 := run s0 [Connect 1 "edge" "E" "" "" t1 t1; Connect 2 "edge" "E" "" "" t2 t2] in
  let s3 := run s2 [Disconnect 1 "E"] in
  (connections s2 !! "E" = Some (mkPeerConnection 2 2 true)
   /\ peers (registry s2) !! "E" = Some 2%nat
   /\ 1%nat ∈ cancelled s2 /\ 1%nat ∈ closed s2)
  /\ (connections s3 !! "E" = None
      /\ peers (registry s3) !! "E" = None
      /\ GetPeerCount (registry s3) = 0%nat
      /\ (2%nat ∉ cancelled s3) /\ (2%nat ∉ closed s3)
      /\ Connected <$> heap (registry s3) !! 2%nat = Some false).
Proof.
  cbv zeta. repeat split; try by_compute.
Qed.

(** C8 (as the code has it).  The registry sets [created_at] on admission when
    the descriptor it is given has none, and keeps the one a caller
    supplies; the hub admits every channel with a new descriptor, so the
    registered [created_at] is the time of the latest admission under the
    id; a pong leaves it unchanged. *)
Theorem created_at_set_by_latest_admission :
  (forall r p peer now1 now2,
      heap r !! p = Some peer ->
      CreatedAt <$> GetPeer (AddPeer r p now1 now2) (ID peer)
      = Some (if Go.IsZero (CreatedAt peer) then now1 else CreatedAt peer))
  /\ (forall s conn peerType id edgeID publicKey now1 now2,
         CreatedAt <$> GetPeer (registry (handleWebSocket s conn peerType id edgeID publicKey now1 now2)) id
         = Some now1)
  /\ (forall s id now,
         CreatedAt <$> GetPeer (registry (pong s id now)) id
         = CreatedAt <$> GetPeer (registry s) id).
Proof.
  split; [| split].
  - intros r p peer now1 now2 Hp. rewrite (AddPeer_lookup _ _ _ _ _ Hp). reflexivity.
  - intros. rewrite handleWebSocket_registry. reflexivity.
  - intros s id now. unfold pong, UpdateLastPing, GetPeer.
    cbn [registry withRegistry].
    destruct (peers (registry s) !! id) as [p |] eqn:E; cbn [peers heap]; rewrite E;
      [| reflexivity].
    rewrite lookup_alter_eq. destruct (heap (registry s) !! p); reflexivity.
Qed.

(** C8, as stated, fails on the code: the edge ["E"] admitted at
    1700000000 and again, on a second channel, at 1700000100 is
    registered with the later time as its [created_at]. *)
Lemma created_at_replaced_on_duplicate_admission :
  let t1 := Go.Unix 1700000000 in
  let t2 := Go.Unix 1700000100 in
  let s1 := run (New Registry.New Storage.empty) [Connect 1 "edge" "E" "" "" t1 t1] in
  let s2 := run s1 [Connect 2 "edge" "E" "" "" t2 t2] in
  CreatedAt <$> GetPeer (registry s1) "E" = Some t1
  /\ CreatedAt <$> GetPeer (registry s2) "E" = Some t2
  /\ t2 <> t1.
Proof. cbv zeta. repeat split; by_compute. Qed.

End HubClaims.

(** ** The storage and the service-sync handlers *)

Section ServiceFacts.

Import Models Storage Signaling Spec.

(** An update that goes through found a row of the same edge. *)
Lemma updateService_owned st service now st' :
  updateService st service now = (st', None) ->
  exists existing,
    rows st !! svcID service = Some existing
    /\ svcEdgeID existing = svcEdgeID service.
Proof.
  unfold updateService, GetEdgeService.
  destruct (rows st !! svcID service) as [existing |] eqn:E; [| discriminate].
  destruct (String.eqb_spec (svcEdgeID existing) (svcEdgeID service)) as [Heq | Hne];
    cbn [negb]; [| discriminate].
  intros _. eauto.
Qed.

(** An update of a row held by another edge is refused with the
    ownership error, and no row changes. *)
Lemma updateService_other_edge st service now existing :
  rows st !! svcID service = Some existing ->
  svcEdgeID existing <> svcEdgeID service ->
  exists st', updateService st service now = (st', Some errDifferentEdge)
              /\ rows st' = rows st.
Proof.
  intros E Hne. unfold updateService, GetEdgeService. rewrite E.
  destruct (String.eqb_spec (svcEdgeID existing) (svcEdgeID service));
    [contradiction |].
  cbn [negb]. eexists. split; reflexivity.
Qed.

(** A delete goes through for every row that exists, whoever holds it. *)
Lemma deleteService_any_edge st id existing :
  rows st !! id = Some existing ->
  deleteService st id
  = (mkStorage (delete id (rows st)) (journal st ++ [CallDelete id]), None).
Proof.
  intros E. unfold deleteService, DeleteEdgeService. rewrite E. reflexivity.
Qed.

(** One round of the batch loop is the outcome told by the table. *)
Lemma syncOne_outcome edge now st entry :
  syncOne edge now st entry
  = match entryOutcome edge now (rows st) entry with
    | (rows', calls, ok) => (mkStorage rows' (journal st ++ calls), ok)
    end.
Proof.
  destruct st as [rws jnl].
  destruct entry as [| [parsed |]]; cbn [syncOne entryOutcome rows journal];
    rewrite ?app_nil_r; try reflexivity.
  destruct (validateService (setEdgeID parsed edge)); [rewrite app_nil_r; reflexivity |].
  unfold updateService, createService, GetEdgeService, UpdateEdgeService,
    CreateEdgeService.
  cbn [rows journal svcID svcEdgeID setEdgeID].
  destruct (rws !! svcID parsed) as [existing |] eqn:E.
  - destruct (String.eqb (svcEdgeID existing) edge) eqn:Eo;
      cbn [negb rows journal svcID]; rewrite ?E; cbn [rows journal];
      rewrite <- app_assoc; reflexivity.
  - cbn [rows journal svcID]. rewrite E. cbn [rows journal].
    rewrite <- app_assoc. reflexivity.
Qed.

Lemma syncLoop_outcome edge now entries : forall st successCount failedCount,
  syncLoop edge now entries st successCount failedCount
  = match batchOutcome edge now entries (rows st) with
    | (rows', calls, n) =>
        (mkStorage rows' (journal st ++ calls), successCount + n,
         failedCount + (Z.of_nat (List.length entries) - n))
    end.
Proof.
  induction entries as [| entry rest IH]; intros st successCount failedCount.
  - cbn. destruct st. rewrite app_nil_r, !Z.add_0_r. reflexivity.
  - cbn [syncLoop batchOutcome]. rewrite syncOne_outcome.
    destruct (entryOutcome edge now (rows st) entry) as [[rows1 calls1] ok].
    destruct ok; rewrite IH; cbn [rows journal];
      destruct (batchOutcome edge now rest rows1) as [[rows2 calls2] n];
      rewrite <- app_assoc; cbn [List.length]; rewrite Nat2Z.inj_succ;
      (apply pair_equal_spec; split; [apply pair_equal_spec; split |]);
      first [reflexivity | lia].
Qed.


End ServiceFacts.

Section ServiceClaims.

Import Models Storage Signaling Spec.

(** C3 on the code, at the ownership scenario of the specification: the
    service ["S1"] is stored for the edge ["E1"], and the edge ["E2"]
    sends a [service-sync] for the id ["S1"] on channel 7.  With the
    operation [updated] the handler answers with the ownership error and
    the table is unchanged; with the operation [deleted] the handler
    deletes the row of ["E1"] and acknowledges success. *)
Theorem service_sync_delete_skips_ownership :
  let now := Go.Unix 1700000000 in
  let stored := mkEdgeService "S1" "E1" "ok" 8080 "h" 3000 "http" true now now in
  let s0 := Signaling.New Registry.New (mkStorage {["S1" := stored]} []) in
  let service := mkEdgeService "S1" "" "ok" 8080 "h" 3000 "http" true Go.zeroTime Go.zeroTime in
  let updated := handleServiceSync s0 "E2" 7 (SyncObject "updated" (AnObject (Some service))) now in
  let deleted := handleServiceSync s0 "E2" 7 (SyncObject "deleted" (AnObject (Some service))) now in
  (rows (Signaling.storage updated) !! "S1" = Some stored
   /\ sent updated
      = [(7%nat, mkMessage "service-sync-ack"
                   [("localId", "S1"); ("serverId", ""); ("status", "error");
                    ("error", "service belongs to different edge")])])
  /\ (rows (Signaling.storage deleted) !! "S1" = None
      /\ journal (Signaling.storage deleted) = [CallDelete "S1"]
      /\ sent deleted
         = [(7%nat, mkMessage "service-sync-ack"
                      [("localId", "S1"); ("serverId", "S1"); ("status", "success");
                       ("error", "")])]).
Proof. cbv zeta. repeat split; by_compute. Qed.



End ServiceClaims.

(** ** The REST handlers *)

Section ApiClaims.

Import Storage Api Spec.




(** C5 on the code.  The route answers and changes nothing in the
    process; in the process started with the secret ["a"], after
    [POST /admin/secrets] with the secret ["b"] and the old secret ["a"]
    the answer is a success, the handler of the TURN server still holds
    ["a"] alone, and a credential made under ["b"] gets the key of the
    password under ["a"], not its own.  The reload on SIGHUP of a
    configuration with these secrets does replace them. *)
Theorem rotate_endpoint_leaves_secrets :
  (forall p body, (Main.postAdminSecrets p body).1 = p)
  /\ (let cfg := Config.mkTurnConfig "203.0.113.7" 0 "rest" "a" [] 60 [] in
      let p0 := Main.runServer cfg Storage.empty in
      let posted := Main.postAdminSecrets p0 (Some (mkRotateRequest "b" ["a"])) in
      let username := "edge:e1:1700000060" in
      let now := Go.Unix 1700000030 in
      posted.2 = SuccessResp (DataMessage "Secrets rotation endpoint - to be implemented")
      /\ Status posted.2 = 200
      /\ Turn.secret (Main.turnAuth posted.1) = "a"
      /\ Turn.oldSecrets (Main.turnAuth posted.1) = []
      /\ Turn.restAuth (Main.turnAuth posted.1) username "realm" now now
         = Some (Turn.GenerateAuthKey username "realm" (Turn.restPassword "a" username))
      /\ Turn.GenerateAuthKey username "realm" (Turn.restPassword "a" username)
         <> Turn.GenerateAuthKey username "realm" (Turn.restPassword "b" username)
      /\ Turn.secret (Main.turnAuth
                        (Main.sighup p0 (Config.mkTurnConfig "203.0.113.7" 0 "rest" "b" ["a"] 60 [])))
         = "b").
Proof.
  split; [reflexivity |].
  cbv zeta. repeat split; by_compute.
Qed.

(** C10.  [POST /credentials] answers 400 exactly when the peer type or
    the peer id is empty or the peer type is neither ["edge"] nor
    ["client"] (and when the body does not parse);
    [GET /ice-servers] answers 400 exactly when the peer id is empty, and
    otherwise issues, for whatever peer type the query gives (["client"]
    when it gives none), credentials whose user name starts with that
    peer type and whose password is signed under the configured secret. *)
Theorem credential_routes_peer_type :
  (forall s now, Status (handleGenerateCredentials s None now) = 400)
  /\ (forall s req now,
         Status (handleGenerateCredentials s (Some req) now) = 400
         <-> (reqPeerType req = "" \/ reqPeerID req = ""
              \/ (reqPeerType req <> "edge" /\ reqPeerType req <> "client")))
  /\ (forall s query now,
         Status (handleGetICEServers s query now) = 400
         <-> Query query "peer_id" "" = "")
  /\ (forall s query now,
         Query query "peer_id" "" <> "" ->
         exists stun turn more expiry,
           handleGetICEServers s query now
           = SuccessResp (DataIceServers (stun :: turn :: more) (Go.Unix expiry))
           /\ iceUsername turn
              = Query query "peer_type" "client" +:+ ":" +:+ Query query "peer_id" ""
                +:+ ":" +:+ Go.FormatInt expiry
           /\ iceCredential turn
              = Turn.restPassword (Config.AuthSecret (turnCfg s)) (iceUsername turn))
  /\ (forall query, Peek query "peer_type" = "" -> Query query "peer_type" "client" = "client").
Proof.
  split; [reflexivity |]. split; [| split; [| split]].
  - intros s req now. unfold handleGenerateCredentials.
    destruct (String.eqb_spec (reqPeerType req) "") as [Ht | Ht]; cbn [orb].
    { split; [intros _; left; exact Ht | reflexivity]. }
    destruct (String.eqb_spec (reqPeerID req) "") as [Hi | Hi].
    { split; [intros _; right; left; exact Hi | reflexivity]. }
    destruct (String.eqb_spec (reqPeerType req) "edge") as [He | He]; cbn [negb andb].
    { split; [discriminate | intros [? | [? | [? _]]]; contradiction]. }
    destruct (String.eqb_spec (reqPeerType req) "client") as [Hc | Hc]; cbn [negb].
    { split; [discriminate | intros [? | [? | [_ ?]]]; contradiction]. }
    split; [intros _; right; right; split; assumption | reflexivity].
  - intros s query now. unfold handleGetICEServers.
    destruct (String.eqb_spec (Query query "peer_id" "") "") as [Hi | Hi].
    + split; [intros _; exact Hi | reflexivity].
    + split; [| contradiction].
      cbn -[Query Go.FormatInt Turn.restPassword]. discriminate.
  - intros s query now Hi. unfold handleGetICEServers.
    destruct (String.eqb_spec (Query query "peer_id" "") ""); [contradiction |].
    unfold Credentials.generateTURNCredentials.
    destruct (0 <? Config.PortsTLS (turnCfg s)); do 4 eexists;
      (split; [reflexivity | split; reflexivity]).
  - intros query Hq. unfold Query. rewrite Hq. reflexivity.
Qed.

End ApiClaims.

(* ===================================================================== *)
(** * Part III: further properties of the code *)
(* ===================================================================== *)

(** ** The added library functions on known values, and more tests of
       the repository on the model *)

Section MoreKnownValues.

Import Go GoTime Models Registry RegistryMore Base64 ApiKey.

(** RFC 4648, section 10, without the padding. *)
Example raw_base64_rfc4648 :
  List.map (fun s => EncodeToString StdAlphabet (bytesOf s))
    ["f"; "fo"; "foo"; "foob"; "fooba"; "foobar"]
  = ["Zg"; "Zm8"; "Zm9v"; "Zm9vYg"; "Zm9vYmE"; "Zm9vYmFy"]
  /\ List.map (DecodeString StdAlphabet) ["Zg"; "Zm8"; "Zm9v"; "Zm9vYg"; "Zm9vYmE"; "Zm9vYmFy"]
     = List.map (fun s => Some (bytesOf s)) ["f"; "fo"; "foo"; "foob"; "fooba"; "foobar"].
Proof. split; by_compute. Qed.

(** The two alphabets differ in the last two characters; padding and a
    quantum of one character are errors, the unused bits of the last
    quantum are not looked at. *)
Example raw_base64_edges :
  EncodeToString StdAlphabet [251; 255] = "+/8"
  /\ EncodeToString URLAlphabet [251; 255] = "-_8"
  /\ DecodeString URLAlphabet "-_8" = Some [251; 255]
  /\ DecodeString URLAlphabet "+/8" = None
  /\ DecodeString StdAlphabet "Zg==" = None
  /\ DecodeString StdAlphabet "Zm9vY" = None
  /\ DecodeString StdAlphabet "Zh" = Some [102].
Proof. repeat split; by_compute. Qed.

(** [TestValidateFormat], the keys of the table that are written out. *)
Example ValidateFormat_table :
  List.map ValidateFormat
    ["xxx_1234567890123456789012345678901234567890123";
     "arq_123";
     "arq_12345678901234567890123456789012345678901234567890";
     "";
     KeyPrefix;
     "arq_!!!!!!!!!!!!!!!!!!!!!!!!!!!!!!!!!!!!!!!"]
  = [false; false; false; false; false; false].
Proof. by_compute. Qed.

(** [TestParseHash] *)
Example parseHash_table :
  parseHash "c2FsdA:aGFzaA" = Some (bytesOf "salt", bytesOf "hash")
  /\ parseHash "invalidseparator" = None
  /\ parseHash "!!!:aGFzaA" = None
  /\ parseHash "c2FsdA:!!!" = None.
Proof. repeat split; by_compute. Qed.

(** [TestValidateConstantTime] *)
Example ValidateConstantTime_table :
  ValidateConstantTime "arq_test123" "arq_test123" = true
  /\ ValidateConstantTime "arq_test123" "arq_test456" = false
  /\ ValidateConstantTime "arq_test123" "arq_test" = false
  /\ ValidateConstantTime "" "" = true.
Proof. repeat split; by_compute. Qed.

(** [TestRegistry_CleanupStale]: a peer added now and one last pinged ten
    minutes ago, with a timeout of five minutes. *)
Example CleanupStale_test :
  let now := Unix 1700000000 in
  let minute := 60 * Second in
  let fresh := mkPeer "fresh-peer" "edge" "" "" "" false now zeroTime in
  let stalePeer := mkPeer "stale-peer" "edge" "" "" "" true (Add now (- 10 * minute))
                     (Add now (- 15 * minute)) in
  let r1 := AddPeer (mkRegistry {[ 1%nat := fresh ]} ∅) 1 now now in
  let r2 := mkRegistry (<[2%nat := stalePeer]> (heap r1)) (<["stale-peer" := 2%nat]> (peers r1)) in
  let cleaned := CleanupStale r2 now (5 * minute) in
  cleaned.2 = ["stale-peer"]
  /\ GetPeerCount cleaned.1 = 1%nat
  /\ is_Some (GetPeer cleaned.1 "fresh-peer")
  /\ GetPeer cleaned.1 "stale-peer" = None.
Proof. cbv zeta. repeat split; try by_compute. eexists. by_compute. Qed.

(** [Sub] at the ends of its range. *)
Example Sub_values :
  Sub (Unix 1700000600) (Unix 1700000000) = 600 * Second
  /\ Sub (Unix 1700000000) (Unix 1700000600) = - 600 * Second
  /\ Sub (Unix 10000000000) (Unix 0) = maxDuration
  /\ Sub (Unix 0) (Unix 10000000000) = minDuration.
Proof. repeat split; by_compute. Qed.

End MoreKnownValues.

Section ConfigKnownValues.

Import ConfigFile.

(** [TestApplyDefaults], [TestApplyDefaults_ACMEEnabled] and
    [TestApplyDefaults_RealmFromDomain] *)
Example applyDefaults_tests :
  let zero enabled domain email :=
    mkConfig domain email ""
      (mkACMEConfig enabled "" "" "" "" "" [] "" "")
      (mkTurnConfig "" "" (mkTurnPorts 0 0 0) (mkPortRange 0 0) (mkAuthConfig "" "" [] 0 []))
      (mkSignalingConfig (mkSignalingPorts 0 0) 0 0)
      (mkAPIConfig 0 [] (mkAPIKeyConfig "" ""))
      (mkAdminConfig 0 "" "") (mkLoggingConfig "" "") in
  let c1 := applyDefaults (zero false "test.com" "test@test.com") in
  let c2 := applyDefaults (zero true "test.com" "test@test.com") in
  let c3 := applyDefaults (zero false "turn.example.com" "") in
  (CertDir c1, UDP (Ports (Turn c1)), TCP (Ports (Turn c1)), TLS (Ports (Turn c1)),
   TTLSeconds (Auth (Turn c1)), Level (Logging c1), Format (Logging c1))
  = ("./certs", 3478, 3478, 5349, 86400, "info", "text")
  /\ (CAURL (ACME c2), Challenge (ACME c2), HTTP01Listen (ACME c2),
      TLSALPN01Listen (ACME c2), DNSTimeout (ACME c2), DNSPropagationTimeout (ACME c2))
     = ("https://acme-v02.api.letsencrypt.org/directory", "http-01", ":80", ":443",
        "60s", "300s")
  /\ Realm (Turn c3) = "turn.example.com".
Proof. cbv zeta. repeat split; by_compute. Qed.

End ConfigKnownValues.

(** ** Services: the sync handlers and the table *)

Section ServiceMore.

Import Models Storage Signaling Spec Invariants.

(** [handleServiceSync] by the state of the table, for a service that
    parses. *)
Lemma handleServiceSync_parsed s edge conn operation parsed now :
  handleServiceSync s edge conn (SyncObject operation (AnObject (Some parsed))) now
  = let service := setEdgeID parsed edge in
    match validateService service with
    | Some err => sendServiceSyncAck s conn (svcID service) (svcID service) "error" err
    | None =>
        if String.eqb operation "created" then
          match createService (Signaling.storage s) service now with
          | (st', Some err) => sendServiceSyncAck (withStorage s st') conn (svcID service) "" "error" err
          | (st', None) => sendServiceSyncAck (withStorage s st') conn (svcID service) (svcID service) "success" ""
          end
        else if String.eqb operation "updated" then
          match updateService (Signaling.storage s) service now with
          | (st', Some err) => sendServiceSyncAck (withStorage s st') conn (svcID service) "" "error" err
          | (st', None) => sendServiceSyncAck (withStorage s st') conn (svcID service) (svcID service) "success" ""
          end
        else if String.eqb operation "deleted" then
          match deleteService (Signaling.storage s) (svcID service) with
          | (st', Some err) => sendServiceSyncAck (withStorage s st') conn (svcID service) "" "error" err
          | (st', None) => sendServiceSyncAck (withStorage s st') conn (svcID service) (svcID service) "success" ""
          end
        else sendServiceSyncAck s conn (svcID service) "" "error" "invalid operation"
    end.
Proof.
  cbv zeta. unfold handleServiceSync.
  destruct (validateService (setEdgeID parsed edge)); [reflexivity |].
  destruct (String.eqb operation "created"); [reflexivity |].
  destruct (String.eqb operation "updated"); [reflexivity |].
  destruct (String.eqb operation "deleted"); reflexivity.
Qed.

(** The three helpers change nothing but the rows and the journal, and
    the rows only as follows. *)
Lemma createService_rows st service now :
  rows (createService st service now).1
  = match rows st !! svcID service with
    | Some _ => rows st
    | None => <[svcID service := createdRow service now]> (rows st)
    end
  /\ ((createService st service now).2 = None <-> rows st !! svcID service = None).
Proof.
  unfold createService, CreateEdgeService. cbn [svcID].
  destruct (rows st !! svcID service); cbn; split; try reflexivity; split; congruence.
Qed.

Lemma updateService_rows st service now :
  rows (updateService st service now).1
  = match rows st !! svcID service with
    | Some existing =>
        if String.eqb (svcEdgeID existing) (svcEdgeID service)
        then <[svcID existing := updatedRow existing service now]> (rows st)
        else rows st
    | None => rows st
    end
  /\ ((updateService st service now).2 = None
      <-> exists existing, rows st !! svcID service = Some existing
                           /\ svcEdgeID existing = svcEdgeID service).
Proof.
  unfold updateService, GetEdgeService, UpdateEdgeService.
  destruct (rows st !! svcID service) as [existing |]; cbn [rows journal].
  - destruct (String.eqb_spec (svcEdgeID existing) (svcEdgeID service)); cbn.
    + split; [reflexivity |]. split; [eauto | reflexivity].
    + split; [reflexivity |]. split; [discriminate |].
      intros (ex & [= <-] & ?). contradiction.
  - cbn. split; [reflexivity |]. split; [discriminate | intros (ex & ? & _); discriminate].
Qed.

Lemma deleteService_rows st id :
  rows (deleteService st id).1 = delete id (rows st)
  /\ ((deleteService st id).2 = None <-> is_Some (rows st !! id)).
Proof.
  unfold deleteService, DeleteEdgeService.
  destruct (rows st !! id) eqn:E; cbn.
  - split; [reflexivity |]. split; eauto.
  - split; [symmetry; apply delete_id; exact E |].
    split; [discriminate | intros [x Hx]; discriminate].
Qed.

(** What [validateService] accepts. *)
Lemma validateService_None service :
  validateService service = None
  <-> (svcID service <> "" /\ strlen (svcID service) <= 8
       /\ svcEdgeID service <> ""
       /\ svcName service <> "" /\ strlen (svcName service) <= 128
       /\ allChars nameChar (svcName service) = true
       /\ svcLocalHost service <> ""
       /\ 1 <= svcTunnelPort service <= 65535
       /\ 1 <= svcLocalPort service <= 65535
       /\ (svcProtocol service = "http" \/ svcProtocol service = "websocket")).
Proof.
  unfold validateService, nameRegexMatch.
  destruct (String.eqb_spec (svcID service) "") as [E1 | E1];
    [split; [discriminate | tauto] |].
  destruct (Z.ltb_spec 8 (strlen (svcID service)));
    [split; [discriminate | lia] |].
  destruct (String.eqb_spec (svcEdgeID service) "") as [E2 | E2];
    [split; [discriminate | tauto] |].
  destruct (String.eqb_spec (svcName service) "") as [E3 | E3];
    [split; [discriminate | tauto] |].
  destruct (Z.ltb_spec 128 (strlen (svcName service)));
    [split; [discriminate | lia] |].
  cbn [negb andb].
  destruct (allChars nameChar (svcName service)) eqn:E4; cbn [negb];
    [| split; [discriminate | intros (_ & _ & _ & _ & _ & ? & _); discriminate]].
  destruct (String.eqb_spec (svcLocalHost service) "") as [E5 | E5];
    [split; [discriminate | tauto] |].
  destruct (Z.ltb_spec (svcTunnelPort service) 1); cbn [orb];
    [split; [discriminate | lia] |].
  destruct (Z.ltb_spec 65535 (svcTunnelPort service));
    [split; [discriminate | lia] |].
  destruct (Z.ltb_spec (svcLocalPort service) 1); cbn [orb];
    [split; [discriminate | lia] |].
  destruct (Z.ltb_spec 65535 (svcLocalPort service));
    [split; [discriminate | lia] |].
  destruct (String.eqb_spec (svcProtocol service) "http") as [E6 | E6]; cbn [orb negb].
  { split; [intros _ | reflexivity]. repeat split; auto; lia. }
  destruct (String.eqb_spec (svcProtocol service) "websocket") as [E7 | E7]; cbn [negb].
  { split; [intros _ | reflexivity]. repeat split; auto; lia. }
  split; [discriminate | intros (_ & _ & _ & _ & _ & _ & _ & _ & _ & [? | ?]); contradiction].
Qed.

Lemma validateService_createdRow service now :
  validateService (createdRow service now) = validateService service.
Proof. reflexivity. Qed.

Lemma validateService_updatedRow existing service now :
  validateService existing = None -> validateService service = None ->
  validateService (updatedRow existing service now) = None.
Proof.
  rewrite !validateService_None. cbn [updatedRow svcID svcEdgeID svcName svcTunnelPort
    svcLocalHost svcLocalPort svcProtocol]. tauto.
Qed.

Lemma entryOutcome_valid edge now rws entry :
  rowsValid rws -> rowsValid (entryOutcome edge now rws entry).1.1.
Proof.
  intros Hv. destruct entry as [| [parsed |]]; cbn [entryOutcome]; try exact Hv.
  destruct (validateService (setEdgeID parsed edge)) eqn:Ev; [exact Hv |].
  cbn [svcID setEdgeID].
  destruct (rws !! svcID parsed) as [existing |] eqn:E.
  - destruct (String.eqb (svcEdgeID existing) edge); [| exact Hv]. cbn [fst].
    intros id row. destruct (Hv _ _ E) as [Hk Hval].
    destruct (decide (svcID existing = id)) as [<- | Hne].
    + rewrite lookup_insert_eq. intros [= <-]. split; [reflexivity |].
      apply validateService_updatedRow; assumption.
    + rewrite lookup_insert_ne by exact Hne. apply Hv.
  - cbn [fst]. intros id row.
    destruct (decide (svcID parsed = id)) as [<- | Hne].
    + rewrite lookup_insert_eq. intros [= <-]. split; [reflexivity | exact Ev].
    + rewrite lookup_insert_ne by exact Hne. apply Hv.
Qed.

Lemma batchOutcome_valid edge now entries : forall rws,
  rowsValid rws -> rowsValid (batchOutcome edge now entries rws).1.1.
Proof.
  induction entries as [| entry rest IH]; intros rws Hv; cbn [batchOutcome]; [exact Hv |].
  pose proof (entryOutcome_valid edge now rws entry Hv) as H1.
  destruct (entryOutcome edge now rws entry) as [[rows1 calls1] ok]. cbn [fst] in H1.
  specialize (IH rows1 H1).
  destruct (batchOutcome edge now rest rows1) as [[rows2 calls2] n]. exact IH.
Qed.

Lemma entryOutcome_foreign edge now rws entry :
  rowsKeyed rws ->
  rowsKeyed (entryOutcome edge now rws entry).1.1
  /\ forall id row, rws !! id = Some row -> svcEdgeID row <> edge ->
       (entryOutcome edge now rws entry).1.1 !! id = Some row.
Proof.
  intros Hk. destruct entry as [| [parsed |]]; cbn [entryOutcome]; try (split; [exact Hk | auto]).
  destruct (validateService (setEdgeID parsed edge)) eqn:Ev; [split; [exact Hk | auto] |].
  cbn [svcID setEdgeID].
  destruct (rws !! svcID parsed) as [existing |] eqn:E.
  - destruct (String.eqb_spec (svcEdgeID existing) edge) as [Ho | Ho];
      [| split; [exact Hk | auto]].
    cbn [fst]. pose proof (Hk _ _ E) as Hid. split.
    + intros id row. destruct (decide (svcID existing = id)) as [<- | Hne].
      * rewrite lookup_insert_eq. intros [= <-]. reflexivity.
      * rewrite lookup_insert_ne by exact Hne. apply Hk.
    + intros id row Hrow Hf. rewrite lookup_insert_ne; [exact Hrow |].
      intros <-. rewrite Hid, E in Hrow. injection Hrow as <-. contradiction.
  - cbn [fst]. split.
    + intros id row. destruct (decide (svcID parsed = id)) as [<- | Hne].
      * rewrite lookup_insert_eq. intros [= <-]. reflexivity.
      * rewrite lookup_insert_ne by exact Hne. apply Hk.
    + intros id row Hrow Hf. rewrite lookup_insert_ne; [exact Hrow |].
      intros <-. congruence.
Qed.

Lemma batchOutcome_foreign edge now entries : forall rws,
  rowsKeyed rws ->
  forall id row, rws !! id = Some row -> svcEdgeID row <> edge ->
    (batchOutcome edge now entries rws).1.1 !! id = Some row.
Proof.
  induction entries as [| entry rest IH]; intros rws Hk id row Hrow Hf;
    cbn [batchOutcome]; [exact Hrow |].
  destruct (entryOutcome_foreign edge now rws entry Hk) as [Hk1 Hf1].
  specialize (Hf1 id row Hrow Hf).
  destruct (entryOutcome edge now rws entry) as [[rows1 calls1] ok]. cbn [fst] in *.
  specialize (IH rows1 Hk1 id row Hf1 Hf).
  destruct (batchOutcome edge now rest rows1) as [[rows2 calls2] n]. exact IH.
Qed.

(** The rows after a batch are the ones the outcome tells. *)
Lemma handleServiceSyncBatch_rows s edge conn services now :
  rows (Signaling.storage (handleServiceSyncBatch s edge conn (BatchServices services) now))
  = if maxBatchSize <? Z.of_nat (List.length services) then rows (Signaling.storage s)
    else (batchOutcome edge now services (rows (Signaling.storage s))).1.1.
Proof.
  unfold handleServiceSyncBatch.
  destruct (maxBatchSize <? Z.of_nat (List.length services)); [reflexivity |].
  rewrite syncLoop_outcome.
  destruct (batchOutcome edge now services (rows (Signaling.storage s))) as [[rows' calls] n].
  reflexivity.
Qed.

End ServiceMore.

Section ServiceExtras.

Import Models Storage Signaling Spec Invariants Props.


(** X2.  [handleServiceSync] leaves the storage as it was, unless the
    message holds a service that parses and, with the sender as its edge,
    passes [validateService], and the operation is one of ["created"],
    ["updated"] and ["deleted"]. *)
Theorem service_sync_storage_untouched_unless_valid s edge conn data now :
  Signaling.storage (handleServiceSync s edge conn data now) = Signaling.storage s
  \/ exists operation parsed,
       data = SyncObject operation (AnObject (Some parsed))
       /\ validateService (setEdgeID parsed edge) = None
       /\ (operation = "created" \/ operation = "updated" \/ operation = "deleted").
Proof.
  destruct data as [| operation [| [parsed |]]]; try (left; reflexivity).
  rewrite handleServiceSync_parsed. cbv zeta.
  destruct (validateService (setEdgeID parsed edge)) eqn:Ev; [left; reflexivity |].
  destruct (String.eqb_spec operation "created"); [right; eauto 8 |].
  destruct (String.eqb_spec operation "updated"); [right; eauto 8 |].
  destruct (String.eqb_spec operation "deleted"); [right; eauto 8 |].
  left. reflexivity.
Qed.





(** X5.  From a table whose rows are stored under their own id and
    pass [validateService], [handleServiceSync] and
    [handleServiceSyncBatch] lead to such a table, whatever the message. *)
Theorem service_handlers_keep_rows_valid s edge conn now :
  rowsValid (rows (Signaling.storage s)) ->
  (forall data, rowsValid (rows (Signaling.storage (handleServiceSync s edge conn data now))))
  /\ (forall data,
         rowsValid (rows (Signaling.storage (handleServiceSyncBatch s edge conn data now)))).
Proof.
  intros Hv. split.
  - intros [| operation [| [parsed |]]]; try exact Hv.
    rewrite handleServiceSync_parsed. cbv zeta.
    destruct (validateService (setEdgeID parsed edge)) eqn:Ev; [exact Hv |].
    destruct (String.eqb operation "created").
    { pose proof (createService_rows (Signaling.storage s) (setEdgeID parsed edge) now) as [Hr _].
      destruct (createService _ _ _) as [st' [err |]]; cbn [fst] in Hr;
        cbn [Signaling.storage sendServiceSyncAck sendMessage withStorage]; rewrite Hr;
        (destruct (rows (Signaling.storage s) !! _) eqn:E; [exact Hv |]);
        intros id row; (destruct (decide (svcID (setEdgeID parsed edge) = id)) as [<- | Hne];
          [rewrite lookup_insert_eq; intros [= <-]; split; [reflexivity | exact Ev]
          | rewrite lookup_insert_ne by exact Hne; apply Hv]). }
    destruct (String.eqb operation "updated").
    { pose proof (updateService_rows (Signaling.storage s) (setEdgeID parsed edge) now) as [Hr _].
      destruct (updateService _ _ _) as [st' [err |]]; cbn [fst] in Hr;
        cbn [Signaling.storage sendServiceSyncAck sendMessage withStorage]; rewrite Hr;
        (destruct (rows (Signaling.storage s) !! _) as [existing |] eqn:E; [| exact Hv]);
        (destruct (String.eqb (svcEdgeID existing) _); [| exact Hv]);
        destruct (Hv _ _ E) as [Hk Hval];
        intros id row; (destruct (decide (svcID existing = id)) as [<- | Hne];
          [rewrite lookup_insert_eq; intros [= <-]; split;
             [reflexivity | apply validateService_updatedRow; assumption]
          | rewrite lookup_insert_ne by exact Hne; apply Hv]). }
    destruct (String.eqb operation "deleted"); [| exact Hv].
    pose proof (deleteService_rows (Signaling.storage s) (svcID (setEdgeID parsed edge))) as [Hr _].
    destruct (deleteService _ _) as [st' [err |]]; cbn [fst] in Hr;
      cbn [Signaling.storage sendServiceSyncAck sendMessage withStorage]; rewrite Hr;
      intros id row Hrow; apply lookup_delete_Some in Hrow as [_ Hrow]; exact (Hv _ _ Hrow).
  - intros [| | services]; try exact Hv.
    rewrite handleServiceSyncBatch_rows.
    destruct (maxBatchSize <? _); [exact Hv |]. apply batchOutcome_valid. exact Hv.
Qed.

Lemma service_handlers_keep_rows_valid_witness :
  let now := Go.Unix 1700000000 in
  let stored := mkEdgeService "S1" "E1" "ok" 8080 "h" 3000 "http" true now now in
  let s := Signaling.New Registry.New (mkStorage {["S1" := stored]} []) in
  (forall data, rowsValid (rows (Signaling.storage (handleServiceSync s "E1" 7 data now))))
  /\ (forall data,
         rowsValid (rows (Signaling.storage (handleServiceSyncBatch s "E1" 7 data now)))).
Proof.
  apply (service_handlers_keep_rows_valid
           (Signaling.New Registry.New
              (mkStorage {["S1" := mkEdgeService "S1" "E1" "ok" 8080 "h" 3000 "http" true
                                     (Go.Unix 1700000000) (Go.Unix 1700000000)]} []))
           "E1" 7 (Go.Unix 1700000000)).
  intros id row H. cbn [rows Signaling.storage Signaling.New] in H.
  apply lookup_singleton_Some in H as [<- <-]. split; reflexivity.
Defined.

(** X6.  In a table whose rows are stored under their own id, a row
    that belongs to another edge than the sender is left as it is by
    [handleServiceSyncBatch], whatever the message, and by
    [handleServiceSync] for every operation other than ["deleted"]. *)
Theorem sync_leaves_foreign_rows s edge conn now id row :
  rowsKeyed (rows (Signaling.storage s)) ->
  rows (Signaling.storage s) !! id = Some row ->
  svcEdgeID row <> edge ->
  (forall data,
      rows (Signaling.storage (handleServiceSyncBatch s edge conn data now)) !! id = Some row)
  /\ (forall operation service,
         operation <> "deleted" ->
         rows (Signaling.storage
                 (handleServiceSync s edge conn (SyncObject operation service) now)) !! id
         = Some row).
Proof.
  intros Hk Hrow Hf. split.
  - intros [| | services]; try exact Hrow.
    rewrite handleServiceSyncBatch_rows.
    destruct (maxBatchSize <? _); [exact Hrow |].
    apply batchOutcome_foreign; assumption.
  - intros operation [| [parsed |]] Hop; try exact Hrow.
    rewrite handleServiceSync_parsed. cbv zeta.
    destruct (validateService (setEdgeID parsed edge)) eqn:Ev; [exact Hrow |].
    destruct (String.eqb operation "created").
    { pose proof (createService_rows (Signaling.storage s) (setEdgeID parsed edge) now) as [Hr _].
      destruct (createService _ _ _) as [st' [err |]]; cbn [fst] in Hr;
        cbn [Signaling.storage sendServiceSyncAck sendMessage withStorage]; rewrite Hr;
        (destruct (rows (Signaling.storage s) !! svcID (setEdgeID parsed edge)) eqn:E;
           [exact Hrow |]);
        (rewrite lookup_insert_ne; [exact Hrow | intros <-; congruence]). }
    destruct (String.eqb operation "updated").
    { pose proof (updateService_rows (Signaling.storage s) (setEdgeID parsed edge) now) as [Hr _].
      destruct (updateService _ _ _) as [st' [err |]]; cbn [fst] in Hr;
        cbn [Signaling.storage sendServiceSyncAck sendMessage withStorage]; rewrite Hr;
        (destruct (rows (Signaling.storage s) !! svcID (setEdgeID parsed edge))
           as [existing |] eqn:E; [| exact Hrow]);
        (destruct (String.eqb_spec (svcEdgeID existing) (svcEdgeID (setEdgeID parsed edge)))
           as [Ho | Ho]; [| exact Hrow]);
        (rewrite lookup_insert_ne; [exact Hrow |]);
        intros <-; rewrite (Hk _ _ E), E in Hrow; injection Hrow as <-;
        cbn [svcEdgeID setEdgeID] in Ho; contradiction. }
    destruct (String.eqb_spec operation "deleted"); [contradiction | exact Hrow].
Qed.

Lemma sync_leaves_foreign_rows_witness :
  let now := Go.Unix 1700000000 in
  let stored := mkEdgeService "S1" "E1" "ok" 8080 "h" 3000 "http" true now now in
  let s := Signaling.New Registry.New (mkStorage {["S1" := stored]} []) in
  (forall data,
      rows (Signaling.storage (handleServiceSyncBatch s "E2" 7 data now)) !! "S1" = Some stored)
  /\ (forall operation service,
         operation <> "deleted" ->
         rows (Signaling.storage
                 (handleServiceSync s "E2" 7 (SyncObject operation service) now)) !! "S1"
         = Some stored).
Proof.
  apply (sync_leaves_foreign_rows
           (Signaling.New Registry.New
              (mkStorage {["S1" := mkEdgeService "S1" "E1" "ok" 8080 "h" 3000 "http" true
                                     (Go.Unix 1700000000) (Go.Unix 1700000000)]} []))
           "E2" 7 (Go.Unix 1700000000) "S1").
  - intros id row H. cbn [rows Signaling.storage Signaling.New] in H.
    apply lookup_singleton_Some in H as [<- <-]. reflexivity.
  - reflexivity.
  - discriminate.
Defined.




End ServiceExtras.

(** ** TURN credentials: the shape of what is accepted *)

Section TurnMore.

Import Go Turn Spec Props.

Lemma Cut_Some s sep a b :
  Cut s sep = Some (a, b) -> s = a +:+ String sep b /\ ContainsByte a sep = false.
Proof.
  revert a. induction s as [| c s IH]; intros a; simpl; [discriminate |].
  destruct (Ascii.eqb_spec c sep) as [-> | Hne].
  - intros [= <- <-]. split; reflexivity.
  - destruct (Cut s sep) as [[a' b'] |]; [| discriminate].
    intros [= <- <-]. destruct (IH a' eq_refl) as [-> Ha]. split; [reflexivity |].
    simpl. rewrite Ha. destruct (Ascii.eqb_spec c sep); [contradiction | reflexivity].
Qed.

Lemma SplitN_three_inv s sep a b c :
  SplitN s sep 3 = [a; b; c] ->
  s = a +:+ String sep (b +:+ String sep c)
  /\ ContainsByte a sep = false /\ ContainsByte b sep = false.
Proof.
  cbn [SplitN]. destruct (Cut s sep) as [[a' r] |] eqn:E1; [| discriminate].
  destruct (Cut r sep) as [[b' c'] |] eqn:E2; [| discriminate].
  intros [= <- <- <-].
  destruct (Cut_Some _ _ _ _ E1) as [-> Ha], (Cut_Some _ _ _ _ E2) as [-> Hb].
  repeat split; assumption.
Qed.

Lemma parseDigits_noColon s : forall acc n,
  parseDigits s acc = Some n -> ContainsByte s ":" = false.
Proof.
  induction s as [| c s IH]; intros acc n; cbn [parseDigits ContainsByte]; [reflexivity |].
  destruct (isDigit c) eqn:Hd; [| discriminate]. intros H.
  rewrite (IH _ _ H), orb_false_r.
  destruct (Ascii.eqb_spec c ":"%char) as [-> |]; [discriminate | reflexivity].
Qed.

Lemma ParseUint_noColon s n : ParseUint s = Some n -> ContainsByte s ":" = false.
Proof.
  unfold ParseUint. destruct s as [| c s]; [discriminate |].
  destruct (parseDigits (String c s) 0) eqn:E; [| discriminate].
  intros _. exact (parseDigits_noColon _ _ _ E).
Qed.

Lemma parseDigits_nonneg s : forall acc n,
  0 <= acc -> parseDigits s acc = Some n -> 0 <= n.
Proof.
  induction s as [| c s IH]; intros acc n Hacc; cbn [parseDigits].
  - intros [= <-]. exact Hacc.
  - destruct (isDigit c) eqn:Hc; [| discriminate]. apply IH.
    unfold isDigit, digitVal in *. apply andb_true_iff in Hc as [Hc _].
    apply Z.leb_le in Hc. lia.
Qed.

Lemma ParseUint_nonneg s n : ParseUint s = Some n -> 0 <= n.
Proof.
  unfold ParseUint. destruct s as [| c s]; [discriminate |].
  destruct (parseDigits (String c s) 0) as [m |] eqn:E; [| discriminate].
  destruct (m <? 2 ^ 64); [| discriminate]. intros [= <-].
  eapply parseDigits_nonneg; [| exact E]. lia.
Qed.

(** What [strconv.ParseInt] reads holds no [":"] and fits 64 bits. *)
Lemma ParseInt_Some s n :
  ParseInt s = Some n -> ContainsByte s ":" = false /\ MinInt64 <= n <= MaxInt64.
Proof.
  unfold ParseInt. destruct s as [| c s]; [discriminate |].
  destruct (ParseUint (if (Ascii.eqb c "+" || Ascii.eqb c "-")%bool then s else String c s))
    as [un |] eqn:E; [| discriminate].
  pose proof (ParseUint_nonneg _ _ E) as Hun.
  pose proof (ParseUint_noColon _ _ E) as Hc.
  destruct (negb (Ascii.eqb c "-") && (2 ^ 63 <=? un)) eqn:E1; [discriminate |].
  destruct (Ascii.eqb c "-" && (2 ^ 63 <? un)) eqn:E2; [discriminate |].
  intros [= <-]. split.
  - destruct (Ascii.eqb_spec c "+"%char) as [-> | Hp]; cbn [orb] in Hc.
    { cbn. exact Hc. }
    destruct (Ascii.eqb_spec c "-"%char) as [-> | Hm]; [cbn; exact Hc | exact Hc].
  - unfold MinInt64, MaxInt64.
    destruct (Ascii.eqb c "-"); cbn [negb andb] in *.
    + apply Z.ltb_ge in E2. lia.
    + apply Z.leb_gt in E1. lia.
Qed.




(** The static users of the configuration as [turn.New] stores them. *)
Lemma static_users_lookup users username : forall m : gmap string string,
  List.fold_left (fun (m : gmap string string) user => <[user.1 := user.2]> m) users m
    !! username
  = match lastPassword users username with
    | Some password => Some password
    | None => m !! username
    end.
Proof.
  induction users as [| user rest IH]; intros m; cbn [List.fold_left lastPassword];
    [reflexivity |].
  rewrite IH. destruct (lastPassword rest username); [reflexivity |].
  destruct (String.eqb_spec user.1 username) as [<- | Hne].
  - apply lookup_insert_eq.
  - apply lookup_insert_ne. exact Hne.
Qed.


End TurnMore.

Section TurnExtras.

Import Go Turn Spec Props.

(** X9.  Whatever [restAuth] accepts has the form
    [type:id:expiry] with three fields free of colons, the third a decimal
    integer of 64 bits; the expiry lies between the first reading of the
    clock and 48 hours after the second; and the handler holds a secret
    that is not empty. *)
Theorem restAuth_accepted_shape h username realm now1 now2 key :
  validClock now1 -> validClock now2 ->
  restAuth h username realm now1 now2 = Some key ->
  exists peerType peerID expiryText expiry,
    username = peerType +:+ ":" +:+ peerID +:+ ":" +:+ expiryText
    /\ noColon peerType /\ noColon peerID /\ noColon expiryText
    /\ ParseInt expiryText = Some expiry
    /\ unixNano now1 <= expiry * Second
    /\ expiry * Second <= unixNano now2 + 48 * Hour
    /\ hasSecret h.
Proof.
  intros H1 H2. unfold restAuth.
  destruct (SplitN username ":" 3) as [| a [| b [| c [| d l]]]] eqn:Es; try discriminate.
  destruct (ParseInt c) as [expiry |] eqn:Ep; [| discriminate].
  destruct (Before _ now1) eqn:Eb; [discriminate |].
  destruct (After _ _) eqn:Ea; [discriminate |].
  intros Hk. destruct (SplitN_three_inv _ _ _ _ _ Es) as (-> & Ha & Hb).
  destruct (ParseInt_Some _ _ Ep) as [Hc He].
  destruct (expiry_tests _ _ _ H1 H2 He) as [Hwin _].
  destruct (Hwin (conj Eb Ea)) as [Hlo Hhi].
  exists a, b, c, expiry. repeat split; try assumption.
  apply (trySecrets_is_Some _ (a +:+ String ":" (b +:+ String ":" c)) realm).
  rewrite Hk. eexists. reflexivity.
Qed.

Lemma restAuth_accepted_shape_witness :
  exists peerType peerID expiryText expiry,
    "edge:e1:1700000060" = peerType +:+ ":" +:+ peerID +:+ ":" +:+ expiryText
    /\ noColon peerType /\ noColon peerID /\ noColon expiryText
    /\ ParseInt expiryText = Some expiry
    /\ unixNano (Unix 1700000030) <= expiry * Second
    /\ expiry * Second <= unixNano (Unix 1700000030) + 48 * Hour
    /\ hasSecret (NewAuthHandler "rest" "s" [] 60 ∅).
Proof.
  apply (restAuth_accepted_shape (NewAuthHandler "rest" "s" [] 60 ∅) "edge:e1:1700000060"
           "realm" (Unix 1700000030) (Unix 1700000030)
           (GenerateAuthKey "edge:e1:1700000060" "realm"
              (restPassword "s" "edge:e1:1700000060"))).
  - repeat split; by_compute.
  - repeat split; by_compute.
  - by_compute.
Defined.

(** X10.  With a current secret that is not empty, the answer of
    [restAuth] does not depend on the old secrets nor on the time to live
    of the handler: [UpdateSecrets] with the same current secret changes
    nothing for any user name and any clock. *)
Theorem restAuth_old_secrets_irrelevant h olds newTtl username realm now1 now2 :
  secret h <> "" ->
  restAuth (UpdateSecrets h (secret h) olds newTtl) username realm now1 now2
  = restAuth h username realm now1 now2.
Proof.
  intros Hs. unfold restAuth, UpdateSecrets. cbn [secret oldSecrets].
  destruct (SplitN username ":" 3) as [| a [| b [| c [| d l]]]]; try reflexivity.
  destruct (ParseInt c); [| reflexivity].
  destruct (Before _ _); [reflexivity |].
  destruct (After _ _); [reflexivity |].
  rewrite !(trySecrets_current _ _ _ _ Hs). reflexivity.
Qed.

Lemma restAuth_old_secrets_irrelevant_witness :
  restAuth (UpdateSecrets (NewAuthHandler "rest" "b" ["a"] 60 ∅) "b" [] 60)
    "edge:e1:1700000060" "realm" (Unix 1700000030) (Unix 1700000030)
  = restAuth (NewAuthHandler "rest" "b" ["a"] 60 ∅)
      "edge:e1:1700000060" "realm" (Unix 1700000030) (Unix 1700000030).
Proof.
  apply (restAuth_old_secrets_irrelevant (NewAuthHandler "rest" "b" ["a"] 60 ∅) [] 60
           "edge:e1:1700000060" "realm" (Unix 1700000030) (Unix 1700000030)).
  discriminate.
Defined.

(** X11.  In the mode ["static"], the handler that [New] of the TURN
    server builds from the configuration answers for a user name with the
    key of the password of the last entry of that name in the list of
    static users, and refuses a name that has no entry. *)
Theorem static_auth_last_entry_wins cfg username realm now1 now2 :
  Config.AuthMode cfg = "static" ->
  AuthenticateRequest (Main.newTurnAuth cfg) username realm now1 now2
  = GenerateAuthKey username realm <$> lastPassword (Config.AuthStaticUsers cfg) username.
Proof.
  intros Hm. unfold AuthenticateRequest, Main.newTurnAuth, NewAuthHandler, staticAuth.
  cbn [mode staticUsers]. rewrite Hm.
  change (String.eqb "static" "rest") with false.
  change (String.eqb "static" "static") with true. cbn iota.
  rewrite static_users_lookup. rewrite lookup_empty.
  destruct (lastPassword (Config.AuthStaticUsers cfg) username); reflexivity.
Qed.

Lemma static_auth_last_entry_wins_witness :
  AuthenticateRequest
    (Main.newTurnAuth
       (Config.mkTurnConfig "203.0.113.7" 0 "static" "" [] 0
          [("alice", "first"); ("bob", "bob-pass"); ("alice", "second")]))
    "alice" "realm" (Unix 1700000030) (Unix 1700000030)
  = GenerateAuthKey "alice" "realm"
      <$> lastPassword [("alice", "first"); ("bob", "bob-pass"); ("alice", "second")] "alice".
Proof.
  apply (static_auth_last_entry_wins
           (Config.mkTurnConfig "203.0.113.7" 0 "static" "" [] 0
              [("alice", "first"); ("bob", "bob-pass"); ("alice", "second")])
           "alice" "realm" (Unix 1700000030) (Unix 1700000030)).
  reflexivity.
Defined.



(** X13.  Two credentials issued with the same user name, for peer
    types and ids free of colons, are for the same peer type, the same
    peer id and the same expiry. *)
Theorem issued_username_determines_identity
    cfg cfg' t t' peerType peerType' peerID peerID' ttl ttl' :
  noColon peerType -> noColon peerID -> noColon peerType' -> noColon peerID' ->
  (Credentials.generateTURNCredentials cfg t peerType peerID ttl).1.1
  = (Credentials.generateTURNCredentials cfg' t' peerType' peerID' ttl').1.1 ->
  peerType = peerType' /\ peerID = peerID'
  /\ (Credentials.generateTURNCredentials cfg t peerType peerID ttl).2
     = (Credentials.generateTURNCredentials cfg' t' peerType' peerID' ttl').2.
Proof.
  intros Ht Hi Ht' Hi'. unfold Credentials.generateTURNCredentials. cbn [fst snd].
  intros Heq.
  assert (Hs : SplitN (peerType +:+ ":" +:+ peerID +:+ ":" +:+ FormatInt (wrap64 (toUnix t + ttl)))
                 ":" 3
               = SplitN (peerType' +:+ ":" +:+ peerID' +:+ ":"
                         +:+ FormatInt (wrap64 (toUnix t' + ttl'))) ":" 3)
    by (rewrite Heq; reflexivity).
  change (":" +:+ peerID +:+ ":" +:+ FormatInt (wrap64 (toUnix t + ttl)))
    with (String ":" (peerID +:+ String ":" (FormatInt (wrap64 (toUnix t + ttl))))) in Hs.
  change (":" +:+ peerID' +:+ ":" +:+ FormatInt (wrap64 (toUnix t' + ttl')))
    with (String ":" (peerID' +:+ String ":" (FormatInt (wrap64 (toUnix t' + ttl'))))) in Hs.
  rewrite (SplitN_three _ _ _ _ Ht Hi), (SplitN_three _ _ _ _ Ht' Hi') in Hs.
  injection Hs as -> -> Hf. repeat split.
  assert (Hp : ParseInt (FormatInt (wrap64 (toUnix t + ttl)))
               = ParseInt (FormatInt (wrap64 (toUnix t' + ttl')))) by (rewrite Hf; reflexivity).
  rewrite !ParseInt_FormatInt in Hp by apply wrap64_range. congruence.
Qed.

Lemma issued_username_determines_identity_witness :
  "edge" = "edge" /\ "e1" = "e1"
  /\ (Credentials.generateTURNCredentials (Config.mkTurnConfig "203.0.113.7" 0 "rest" "s" [] 60 [])
        (Unix 1700000000) "edge" "e1" 60).2
     = (Credentials.generateTURNCredentials (Config.mkTurnConfig "203.0.113.7" 0 "rest" "t" [] 60 [])
          (Unix 1700000030) "edge" "e1" 30).2.
Proof.
  apply (issued_username_determines_identity
           (Config.mkTurnConfig "203.0.113.7" 0 "rest" "s" [] 60 [])
           (Config.mkTurnConfig "203.0.113.7" 0 "rest" "t" [] 60 [])
           (Unix 1700000000) (Unix 1700000030) "edge" "edge" "e1" "e1" 60 30).
  - reflexivity.
  - reflexivity.
  - reflexivity.
  - reflexivity.
  - vm_compute. reflexivity.
Defined.

End TurnExtras.

Section ApiExtras.

Import Go Turn Spec Api.






End ApiExtras.

(** ** The registry and the clean-up of stale peers *)

Section TimeFacts.

Import Go GoTime Spec.

Lemma wrap64_id z : MinInt64 <= z <= MaxInt64 -> wrap64 z = z.
Proof. apply wrap64_small. Qed.

(** [Sub] is the difference of the two instants, in nanoseconds, when it
    is well inside the range of a duration. *)
Lemma Sub_unixNano t u :
  validClock t -> validClock u ->
  - 2 ^ 62 <= unixNano t - unixNano u <= 2 ^ 62 ->
  Sub t u = unixNano t - unixNano u.
Proof.
  intros [Hts Htn] [Hus Hun] Hd. unfold Sub, unixNano, Second in *.
  rewrite (wrap64_id (sec t - sec u)) by (unfold MinInt64, MaxInt64; lia).
  rewrite (wrap64_id ((sec t - sec u) * 1000000000)) by (unfold MinInt64, MaxInt64; lia).
  rewrite (wrap64_id ((sec t - sec u) * 1000000000 + (nsec t - nsec u)))
    by (unfold MinInt64, MaxInt64; lia).
  set (d := (sec t - sec u) * 1000000000 + (nsec t - nsec u)).
  assert (Hadd : Add u d = t).
  { unfold Add, Second.
    pose proof (Z.quot_rem' d 1000000000) as Hqr.
    pose proof (Z.rem_bound_abs d 1000000000 ltac:(lia)) as Hb.
    assert (Hsign : 0 <= d -> 0 <= Z.rem d 1000000000)
      by (intros H; apply Z.rem_nonneg; lia).
    assert (Hsign' : d <= 0 -> Z.rem d 1000000000 <= 0)
      by (intros H; apply Z.rem_nonpos; lia).
    set (q := Z.quot d 1000000000) in *. set (r := Z.rem d 1000000000) in *.
    assert (Hr : - 1000000000 < r < 1000000000) by lia.
    destruct t as [ts tn], u as [us un]. cbn [sec nsec] in *.
    destruct (1000000000 <=? un + r) eqn:E1.
    - apply Z.leb_le in E1.
      assert (q = ts - us - 1 /\ un + r - 1000000000 = tn) as [Hq Hn] by (subst d; lia).
      rewrite Hq, wrap64_id by (unfold MinInt64, MaxInt64; lia). f_equal; lia.
    - apply Z.leb_gt in E1. destruct (un + r <? 0) eqn:E2.
      + apply Z.ltb_lt in E2.
        assert (q = ts - us + 1 /\ un + r + 1000000000 = tn) as [Hq Hn] by (subst d; lia).
        rewrite Hq, wrap64_id by (unfold MinInt64, MaxInt64; lia). f_equal; lia.
      + apply Z.ltb_ge in E2.
        assert (q = ts - us /\ un + r = tn) as [Hq Hn] by (subst d; lia).
        rewrite Hq, wrap64_id by (unfold MinInt64, MaxInt64; lia). f_equal; lia. }
  rewrite Hadd. unfold Equal. rewrite !Z.eqb_refl. cbn. subst d. lia.
Qed.

End TimeFacts.

Section RegistryMoreFacts.

Import Models Registry RegistryMore Props.

Lemma stale_alter (r : Registry) now timeout q p ps :
  stale (mkRegistry (alter (fun peer => setConnected peer false) q (heap r)) ps) now timeout p
  = stale r now timeout p.
Proof.
  unfold stale. cbn [heap].
  destruct (decide (q = p)) as [->|Hne].
  - rewrite lookup_alter_eq. destruct (heap r !! p); reflexivity.
  - rewrite lookup_alter_ne by exact Hne. reflexivity.
Qed.

Lemma cleanup_fold now timeout (l : list (string * nat)) :
  forall acc : Registry * list string,
    let res := List.fold_left (cleanupOne now timeout) l acc in
    (forall p, stale res.1 now timeout p = stale acc.1 now timeout p)
    /\ res.2 = acc.2 ++ (staleEntries acc.1 now timeout l).*1
    /\ (forall id, peers res.1 !! id =
          if decide (id ∈ (staleEntries acc.1 now timeout l).*1) then None
          else peers acc.1 !! id)
    /\ (forall q, heap res.1 !! q =
          if decide (q ∈ (staleEntries acc.1 now timeout l).*2)
          then (fun peer => setConnected peer false) <$> heap acc.1 !! q
          else heap acc.1 !! q).
Proof.
  induction l as [|[id0 p0] l IH]; intros acc res.
  - subst res. cbn. split; [|split; [|split]].
    + reflexivity.
    + rewrite app_nil_r. reflexivity.
    + intros id. destruct (decide _) as [H|_]; [inversion H | reflexivity].
    + intros q. destruct (decide _) as [H|_]; [inversion H | reflexivity].
  - subst res. cbn [List.fold_left].
    specialize (IH (cleanupOne now timeout acc (id0, p0))).
    cbv zeta in IH.
    assert (Hone : cleanupOne now timeout acc (id0, p0) =
              if stale acc.1 now timeout p0
              then (mkRegistry (alter (fun peer => setConnected peer false) p0 (heap acc.1))
                      (delete id0 (peers acc.1)), acc.2 ++ [id0])
              else acc) by reflexivity.
    rewrite Hone in IH |- *. clear Hone.
    unfold staleEntries in *. cbn [List.filter fst snd] in *.
    destruct (stale acc.1 now timeout p0) eqn:Est; cbn [fst snd] in *;
      destruct IH as (IHs & IHr & IHp & IHh).
    + assert (Hf : List.filter (fun entry : string * nat =>
                 stale (mkRegistry (alter (fun peer => setConnected peer false) p0 (heap acc.1))
                          (delete id0 (peers acc.1))) now timeout entry.2) l
               = List.filter (fun entry : string * nat => stale acc.1 now timeout entry.2) l).
      { apply List.filter_ext. intros e. apply stale_alter. }
      rewrite Hf in *. clear Hf.
      split; [|split; [|split]].
      * intros p. rewrite IHs. apply stale_alter.
      * rewrite IHr, <- app_assoc. reflexivity.
      * intros id. rewrite IHp. cbn [fmap list_fmap fst peers heap].
        destruct (decide (id = id0)) as [->|Hne].
        -- rewrite lookup_delete_eq.
           rewrite (decide_True (P := id0 ∈ id0 :: _)) by (apply elem_of_cons; left; reflexivity).
           destruct (decide _); reflexivity.
        -- rewrite lookup_delete_ne by (intros E; apply Hne; symmetry; exact E).
           destruct (decide (id ∈ _)) as [Hin|Hnin].
           ++ rewrite decide_True by (apply elem_of_cons; right; exact Hin). reflexivity.
           ++ rewrite decide_False; [reflexivity|].
              intros [E|Hin]%elem_of_cons; [exact (Hne E) | exact (Hnin Hin)].
      * intros q. rewrite IHh. cbn [fmap list_fmap snd peers heap].
        destruct (decide (q = p0)) as [->|Hne].
        -- rewrite lookup_alter_eq.
           rewrite (decide_True (P := p0 ∈ p0 :: _)) by (apply elem_of_cons; left; reflexivity).
           destruct (decide _); destruct (heap acc.1 !! p0); reflexivity.
        -- rewrite lookup_alter_ne by (intros E; apply Hne; symmetry; exact E).
           destruct (decide (q ∈ _)) as [Hin|Hnin].
           ++ rewrite decide_True by (apply elem_of_cons; right; exact Hin). reflexivity.
           ++ rewrite decide_False; [reflexivity|].
              intros [E|Hin]%elem_of_cons; [exact (Hne E) | exact (Hnin Hin)].
    + split; [|split; [|split]]; assumption.
Qed.

Lemma staleEntries_elem r now timeout l id p :
  (id, p) ∈ staleEntries r now timeout l <-> (id, p) ∈ l /\ stale r now timeout p = true.
Proof.
  unfold staleEntries. rewrite !list_elem_of_In, List.filter_In. reflexivity.
Qed.

Lemma staleEntries_sub r now timeout l : staleEntries r now timeout l ⊆ l.
Proof. intros [id p] H. apply staleEntries_elem in H. tauto. Qed.

Lemma staleEntries_NoDup_fst r now timeout l :
  NoDup l.*1 -> NoDup (staleEntries r now timeout l).*1.
Proof.
  unfold staleEntries. induction l as [|[id p] l IH]; cbn; intros H.
  - constructor.
  - apply NoDup_cons in H as [Hn H].
    destruct (stale r now timeout p); cbn.
    + apply NoDup_cons. split; [|exact (IH H)].
      intros Hin. apply Hn. apply list_elem_of_fmap in Hin as ([id' p'] & -> & Hin).
      apply list_elem_of_fmap. exists (id', p'). split; [reflexivity|].
      apply list_elem_of_In, List.filter_In in Hin. apply list_elem_of_In. tauto.
    + exact (IH H).
Qed.

(** The ids [CleanupStale] removes are those of the registry whose
    descriptor is stale. *)
Lemma CleanupStale_removed r now timeout id :
  id ∈ (CleanupStale r now timeout).2
  <-> exists p, peers r !! id = Some p /\ stale r now timeout p = true.
Proof.
  unfold CleanupStale.
  destruct (cleanup_fold now timeout (map_to_list (peers r)) (r, [])) as (_ & -> & _).
  cbn [fst snd app]. rewrite list_elem_of_fmap. split.
  - intros ([id' p] & -> & H). apply staleEntries_elem in H as [H Hs].
    exists p. split; [apply elem_of_map_to_list; exact H | exact Hs].
  - intros (p & H & Hs). exists (id, p). split; [reflexivity|].
    apply staleEntries_elem. split; [apply elem_of_map_to_list; exact H | exact Hs].
Qed.

Lemma CleanupStale_peers r now timeout id :
  peers (CleanupStale r now timeout).1 !! id =
  if decide (id ∈ (CleanupStale r now timeout).2) then None else peers r !! id.
Proof.
  unfold CleanupStale.
  destruct (cleanup_fold now timeout (map_to_list (peers r)) (r, [])) as (_ & -> & -> & _).
  reflexivity.
Qed.

Lemma CleanupStale_NoDup r now timeout : NoDup (CleanupStale r now timeout).2.
Proof.
  unfold CleanupStale.
  destruct (cleanup_fold now timeout (map_to_list (peers r)) (r, [])) as (_ & -> & _).
  cbn [fst snd app]. apply staleEntries_NoDup_fst, NoDup_fst_map_to_list.
Qed.

Lemma CleanupStale_stale r now timeout p :
  stale (CleanupStale r now timeout).1 now timeout p = stale r now timeout p.
Proof.
  unfold CleanupStale.
  destruct (cleanup_fold now timeout (map_to_list (peers r)) (r, [])) as (-> & _).
  reflexivity.
Qed.

Lemma CleanupStale_heap r now timeout q :
  ((exists id, id ∈ (CleanupStale r now timeout).2 /\ peers r !! id = Some q) ->
   heap (CleanupStale r now timeout).1 !! q
   = (fun peer => setConnected peer false) <$> heap r !! q)
  /\ (~ (exists id, id ∈ (CleanupStale r now timeout).2 /\ peers r !! id = Some q) ->
      heap (CleanupStale r now timeout).1 !! q = heap r !! q).
Proof.
  pose proof (CleanupStale_removed r now timeout) as Hrem.
  unfold CleanupStale in *.
  destruct (cleanup_fold now timeout (map_to_list (peers r)) (r, [])) as (_ & _ & _ & ->).
  cbn [fst snd].
  assert (Hiff : q ∈ (staleEntries r now timeout (map_to_list (peers r))).*2
            <-> exists id, id ∈ (List.fold_left (cleanupOne now timeout)
                                   (map_to_list (peers r)) (r, [])).2
                           /\ peers r !! id = Some q).
  { split.
    - intros Hin. apply list_elem_of_fmap in Hin as ([id p] & -> & Hin).
      apply staleEntries_elem in Hin as [Hin Hs]. apply elem_of_map_to_list in Hin.
      exists id. split; [|exact Hin]. apply Hrem. exists p. tauto.
    - intros (id & Hr & Hp).
      apply Hrem in Hr as (p & Hp' & Hs). rewrite Hp in Hp'. injection Hp' as <-.
      apply list_elem_of_fmap. exists (id, q). split; [reflexivity|].
      apply staleEntries_elem. split; [apply elem_of_map_to_list; exact Hp | exact Hs]. }
  split; intros H.
  - rewrite decide_True by (apply Hiff; exact H). reflexivity.
  - rewrite decide_False by (intros Hin; apply H, Hiff; exact Hin). reflexivity.
Qed.

Lemma size_after_deletes {A} (m m' : gmap string A) (ks : list string) :
  NoDup ks ->
  (forall k, k ∈ ks -> is_Some (m !! k)) ->
  (forall k, m' !! k = if decide (k ∈ ks) then None else m !! k) ->
  (size m' + length ks = size m)%nat.
Proof.
  revert m m'. induction ks as [|k ks IH]; intros m m' Hnd Hin Hm'.
  - assert (m' = m) as ->; [|cbn; lia].
    apply map_eq. intros i. rewrite Hm'. destruct (decide _) as [H|_]; [inversion H|reflexivity].
  - apply NoDup_cons in Hnd as [Hk Hnd].
    assert (Hsz : size m = S (size (delete k m))).
    { destruct (Hin k) as [x Hx]; [apply elem_of_cons; left; reflexivity|].
      rewrite <- (insert_id m k x Hx) at 1. rewrite <- insert_delete_eq.
      apply map_size_insert_None, lookup_delete_eq. }
    cbn [length]. rewrite Hsz.
    rewrite <- (IH (delete k m) m' Hnd).
    + lia.
    + intros k' Hk'. rewrite lookup_delete_ne by (intros ->; exact (Hk Hk')).
      apply Hin, elem_of_cons. right. exact Hk'.
    + intros k'. rewrite Hm'. destruct (decide (k' = k)) as [->|Hne].
      * rewrite decide_True by (apply elem_of_cons; left; reflexivity).
        rewrite decide_False by exact Hk. rewrite lookup_delete_eq. reflexivity.
      * rewrite lookup_delete_ne by (intros E; apply Hne; symmetry; exact E).
        destruct (decide (k' ∈ ks)) as [H|H].
        -- rewrite decide_True by (apply elem_of_cons; right; exact H). reflexivity.
        -- rewrite decide_False; [reflexivity|].
           intros [E|H']%elem_of_cons; [exact (Hne E)|exact (H H')].
Qed.

Lemma CleanupStale_count r now timeout :
  (GetPeerCount (CleanupStale r now timeout).1 + length (CleanupStale r now timeout).2
   = GetPeerCount r)%nat.
Proof.
  unfold GetPeerCount. apply size_after_deletes.
  - apply CleanupStale_NoDup.
  - intros k Hk. apply CleanupStale_removed in Hk as (p & -> & _). eexists. reflexivity.
  - apply CleanupStale_peers.
Qed.

Lemma GetAllPeers_elem r peer :
  peer ∈ GetAllPeers r <-> exists id, GetPeer r id = Some peer.
Proof.
  unfold GetAllPeers, GetPeer. rewrite list_elem_of_omap. split.
  - intros ([id p] & Hin & H). apply elem_of_map_to_list in Hin.
    exists id. rewrite Hin. exact H.
  - intros (id & H). destruct (peers r !! id) as [p|] eqn:E; [|discriminate].
    exists (id, p). split; [apply elem_of_map_to_list; exact E | exact H].
Qed.

Lemma GetPeersByType_elem r peerType peer :
  peer ∈ GetPeersByType r peerType
  <-> (exists id, GetPeer r id = Some peer) /\ Type_ peer = peerType.
Proof.
  unfold GetPeersByType. rewrite list_elem_of_In, List.filter_In, <- list_elem_of_In.
  rewrite GetAllPeers_elem, String.eqb_eq. reflexivity.
Qed.

End RegistryMoreFacts.

Section HubMoreFacts.

Import Models Registry RegistryMore Signaling Hub Invariants Props.

Lemma dropConnection_fold (ks : list string) :
  forall s,
    let s' := List.fold_left dropConnection ks s in
    registry s' = registry s /\ storage s' = storage s
    /\ closed s' = closed s /\ sent s' = sent s
    /\ (forall id, connections s' !! id =
          if decide (id ∈ ks) then None else connections s !! id)
    /\ (forall c, c ∈ cancelled s' <->
          c ∈ cancelled s
          \/ exists id pc, id ∈ ks /\ connections s !! id = Some pc /\ pcConn pc = c).
Proof.
  induction ks as [|k ks IH]; intros s s'.
  - subst s'. cbn. do 4 (split; [reflexivity|]). split.
    + intros id. destruct (decide _) as [H|_]; [inversion H|reflexivity].
    + intros c. split.
      * intros H. left. exact H.
      * intros [H|(id & pc & H & _)]; [exact H | inversion H].
  - subst s'. cbn [List.fold_left].
    destruct (IH (dropConnection s k)) as (Hr & Hst & Hcl & Hse & Hco & Hca).
    assert (Hd : registry (dropConnection s k) = registry s
                 /\ storage (dropConnection s k) = storage s
                 /\ closed (dropConnection s k) = closed s
                 /\ sent (dropConnection s k) = sent s
                 /\ connections (dropConnection s k) = delete k (connections s)
                 /\ (forall c, c ∈ cancelled (dropConnection s k) <->
                        c ∈ cancelled s
                        \/ exists pc, connections s !! k = Some pc /\ pcConn pc = c)).
    { unfold dropConnection. destruct (connections s !! k) as [pc|] eqn:E; cbn.
      - do 5 (split; [reflexivity|]). intros c. split.
        + intros [H|H]%elem_of_union; [right|left; exact H].
          apply elem_of_singleton in H. exists pc. split; [reflexivity|symmetry; exact H].
        + intros [H|(pc' & Hpc & H)]; apply elem_of_union; [right; exact H|left].
          injection Hpc as <-. apply elem_of_singleton. symmetry; exact H.
      - do 4 (split; [reflexivity|]). split; [symmetry; apply delete_id; exact E|].
        intros c. split.
        + intros H; left; exact H.
        + intros [H|(pc & Hpc & _)]; [exact H|discriminate]. }
    destruct Hd as (Hr1 & Hst1 & Hcl1 & Hse1 & Hco1 & Hca1).
    split; [congruence|]. split; [congruence|]. split; [congruence|]. split; [congruence|].
    split.
    + intros id. rewrite Hco, Hco1. destruct (decide (id = k)) as [->|Hne].
      * rewrite lookup_delete_eq.
        rewrite (decide_True (P := k ∈ k :: ks)) by (apply elem_of_cons; left; reflexivity).
        destruct (decide _); reflexivity.
      * rewrite lookup_delete_ne by (intros E; apply Hne; symmetry; exact E).
        destruct (decide (id ∈ ks)) as [H|H].
        -- rewrite decide_True by (apply elem_of_cons; right; exact H). reflexivity.
        -- rewrite decide_False; [reflexivity|].
           intros [E|H']%elem_of_cons; [exact (Hne E)|exact (H H')].
    + intros c. rewrite Hca, Hca1, Hco1. split.
      * intros [[H|(pc & Hpc & H)]|(id & pc & Hin & Hpc & H)].
        -- left; exact H.
        -- right. exists k, pc. split; [apply elem_of_cons; left; reflexivity|]. tauto.
        -- right. exists id, pc. split; [apply elem_of_cons; right; exact Hin|].
           apply lookup_delete_Some in Hpc. tauto.
      * intros [H|(id & pc & Hin & Hpc & H)]; [left; left; exact H|].
        destruct (decide (id = k)) as [->|Hne].
        -- left. right. exists pc. tauto.
        -- right. exists id, pc. apply elem_of_cons in Hin as [E|Hin]; [contradiction|].
           split; [exact Hin|]. split; [|exact H].
           apply lookup_delete_Some. split; [intros E; apply Hne; symmetry; exact E | exact Hpc].
Qed.

Lemma cleanupTick_spec s now timeout :
  let removed := (CleanupStale (registry s) now timeout).2 in
  let s' := cleanupTick s now timeout in
  registry s' = (CleanupStale (registry s) now timeout).1
  /\ storage s' = storage s /\ closed s' = closed s /\ sent s' = sent s
  /\ (forall id, connections s' !! id =
        if decide (id ∈ removed) then None else connections s !! id)
  /\ (forall c, c ∈ cancelled s' <->
        c ∈ cancelled s
        \/ exists id pc, id ∈ removed /\ connections s !! id = Some pc /\ pcConn pc = c).
Proof.
  cbv zeta. unfold cleanupTick.
  destruct (CleanupStale (registry s) now timeout) as [r' removed] eqn:E. cbn [fst snd].
  destruct (dropConnection_fold removed (withRegistry s r')) as (Hr & Hst & Hcl & Hse & Hco & Hca).
  do 4 (split; [assumption|]). split; assumption.
Qed.

Lemma mapsAgree_New store : mapsAgree (New Registry.New store).
Proof. intros id. cbn. rewrite !lookup_empty. reflexivity. Qed.

Lemma mapsAgree_handleWebSocket s conn peerType id edgeID publicKey now1 now2 :
  mapsAgree s ->
  mapsAgree (handleWebSocket s conn peerType id edgeID publicKey now1 now2).
Proof.
  intros H id'. destruct (decide (id' = id)) as [->|Hne].
  - rewrite handleWebSocket_connections, handleWebSocket_peers. reflexivity.
  - unfold handleWebSocket, AddPeer. cbn [heap peers registry withRegistry connections].
    rewrite lookup_insert_eq. cbn [ID].
    destruct (connections s !! id); cbn [connections withConnections cancelAndClose
      registry withRegistry peers];
      rewrite !lookup_insert_ne by (intros E; apply Hne; symmetry; exact E); apply H.
Qed.

Lemma mapsAgree_cleanup s conn id : mapsAgree s -> mapsAgree (cleanup s conn id).
Proof.
  intros H id'. unfold cleanup, RemovePeer.
  cbn [registry connections withRegistry withConnections].
  destruct (decide (id' = id)) as [->|Hne].
  - rewrite lookup_delete_eq.
    destruct (peers (registry s) !! id) eqn:E; cbn [peers];
      [rewrite lookup_delete_eq | rewrite E]; reflexivity.
  - rewrite lookup_delete_ne by (intros E; apply Hne; symmetry; exact E).
    destruct (peers (registry s) !! id) eqn:E; cbn [peers];
      [rewrite lookup_delete_ne by (intros E'; apply Hne; symmetry; exact E') |]; apply H.
Qed.

Lemma mapsAgree_pong s id now : mapsAgree s -> mapsAgree (pong s id now).
Proof.
  intros H id'. unfold pong, UpdateLastPing. cbn [registry connections withRegistry].
  destruct (peers (registry s) !! id); cbn [peers]; apply H.
Qed.

Lemma mapsAgree_cleanupTick s now timeout :
  mapsAgree s -> mapsAgree (cleanupTick s now timeout).
Proof.
  intros H id.
  destruct (cleanupTick_spec s now timeout) as (Hr & _ & _ & _ & Hco & _).
  rewrite Hr, Hco, CleanupStale_peers.
  destruct (decide _); [reflexivity | apply H].
Qed.

Lemma mapsAgree_act s a : mapsAgree s -> mapsAgree (act s a).
Proof.
  intros H. destruct a as [[conn peerType id edgeID publicKey now1 now2|conn id|id now]|now t];
    cbn [act step].
  - destruct (wsMiddleware peerType id edgeID); [exact H|].
    apply mapsAgree_handleWebSocket, H.
  - apply mapsAgree_cleanup, H.
  - apply mapsAgree_pong, H.
  - apply mapsAgree_cleanupTick, H.
Qed.

Lemma mapsAgree_runActions actions : forall s, mapsAgree s -> mapsAgree (runActions s actions).
Proof.
  induction actions as [|a actions IH]; intros s H; [exact H|].
  apply IH, mapsAgree_act, H.
Qed.

Lemma wsMiddleware_None peerType id edgeID :
  wsMiddleware peerType id edgeID = None
  <-> (peerType = "edge" \/ (peerType = "client" /\ edgeID <> "")) /\ id <> "".
Proof.
  unfold wsMiddleware.
  destruct (String.eqb_spec peerType "edge") as [->|He];
    destruct (String.eqb_spec id "") as [->|Hi]; cbn.
  - split; [discriminate | intros [_ H]; contradiction].
  - split; [intros _; split; [left; reflexivity | exact Hi] | reflexivity].
  - destruct (String.eqb_spec peerType "client"); cbn;
      (split; [discriminate | intros [_ H]; contradiction]).
  - destruct (String.eqb_spec peerType "client") as [->|Hc]; cbn.
    + destruct (String.eqb_spec edgeID "") as [->|Hd].
      * split; [discriminate | intros [[H|[_ H]] _]; [discriminate | contradiction]].
      * split; [intros _; split; [right; split; [reflexivity | exact Hd] | exact Hi]
               | reflexivity].
    + split; [discriminate | intros [[H|[H _]] _]; contradiction].
Qed.

End HubMoreFacts.

Section RegistryExtras.

Import Models Registry RegistryMore Invariants Props.

(** X16.  [CleanupStale] removes exactly the ids whose descriptor
    was last pinged more than the timeout ago, and returns each of them
    once; the other ids keep their entry; the number of peers goes down by
    the number of ids returned; the descriptors of the removed ids are
    marked disconnected; and what is stale is the same after the call. *)
Theorem cleanup_stale_spec (r : Registry) (now : Go.Time) (timeout : Z) :
  let r' := (CleanupStale r now timeout).1 in
  let removed := (CleanupStale r now timeout).2 in
  (forall id, id ∈ removed <->
      exists p, peers r !! id = Some p /\ stale r now timeout p = true)
  /\ NoDup removed
  /\ (forall id, peers r' !! id = if decide (id ∈ removed) then None else peers r !! id)
  /\ (GetPeerCount r' + length removed = GetPeerCount r)%nat
  /\ (forall id p, id ∈ removed -> peers r !! id = Some p ->
        heap r' !! p = (fun peer => setConnected peer false) <$> heap r !! p)
  /\ (forall p, stale r' now timeout p = stale r now timeout p).
Proof.
  cbv zeta. split; [apply CleanupStale_removed|]. split; [apply CleanupStale_NoDup|].
  split; [apply CleanupStale_peers|]. split; [apply CleanupStale_count|].
  split; [|apply CleanupStale_stale].
  intros id p Hin Hp. apply CleanupStale_heap. exists id. tauto.
Qed.

Lemma omap_length_le {A B} (f : A -> option B) (l : list A) :
  (length (omap f l) <= length l)%nat.
Proof.
  induction l as [|a l IH]; cbn; [lia|]. destruct (f a); cbn; lia.
Qed.

(** X17.  [GetAllPeers] lists exactly the descriptors [GetPeer]
    returns for some id; [GetPeersByType] lists those of them with the
    given type, so it is never longer; and neither is longer than
    [GetPeerCount]. *)
Theorem registry_listing_membership (r : Registry) :
  (forall peer, peer ∈ GetAllPeers r <-> exists id, GetPeer r id = Some peer)
  /\ (forall peerType peer,
        peer ∈ GetPeersByType r peerType
        <-> peer ∈ GetAllPeers r /\ Type_ peer = peerType)
  /\ (forall peerType, length (GetPeersByType r peerType) <= length (GetAllPeers r))%nat
  /\ (length (GetAllPeers r) <= GetPeerCount r)%nat.
Proof.
  split; [apply GetAllPeers_elem|]. split; [|split].
  - intros peerType peer. rewrite GetPeersByType_elem, GetAllPeers_elem. reflexivity.
  - intros peerType. unfold GetPeersByType. apply List.filter_length_le.
  - unfold GetAllPeers, GetPeerCount. rewrite <- length_map_to_list.
    apply omap_length_le.
Qed.

Lemma registryOK_AddPeer r p now1 now2 : registryOK r -> registryOK (AddPeer r p now1 now2).
Proof.
  intros H id q. unfold AddPeer. destruct (heap r !! p) as [peer|] eqn:E; [|apply H].
  cbn [peers heap]. destruct (decide (id = ID peer)) as [->|Hne].
  - rewrite lookup_insert_eq. intros [= <-]. rewrite lookup_insert_eq.
    eexists. split; [reflexivity|]. split; reflexivity.
  - rewrite lookup_insert_ne by (intros E'; apply Hne; symmetry; exact E').
    intros Hq. destruct (H id q Hq) as (pq & Hh & Hid & Hc).
    assert (q <> p) by (intros ->; rewrite E in Hh; injection Hh as <-; exact (Hne (eq_sym Hid))).
    rewrite lookup_insert_ne by (intros E'; subst; contradiction).
    exists pq. tauto.
Qed.

Lemma registryOK_RemovePeer r id : registryOK r -> registryOK (RemovePeer r id).
Proof.
  intros H id' q. unfold RemovePeer. destruct (peers r !! id) as [p|] eqn:E; [|apply H].
  cbn [peers heap]. intros Hq. apply lookup_delete_Some in Hq as [Hne Hq].
  destruct (H id' q Hq) as (pq & Hh & Hid & Hc).
  destruct (H id p E) as (pp & Hh' & Hid' & _).
  assert (q <> p) by (intros ->; rewrite Hh in Hh'; injection Hh' as <-; congruence).
  rewrite lookup_alter_ne by (intros E'; subst; contradiction).
  exists pq. tauto.
Qed.

Lemma registryOK_UpdateLastPing r id now : registryOK r -> registryOK (UpdateLastPing r id now).
Proof.
  intros H id' q. unfold UpdateLastPing. destruct (peers r !! id) as [p|] eqn:E; [|apply H].
  cbn [peers heap]. intros Hq. destruct (H id' q Hq) as (pq & Hh & Hid & Hc).
  destruct (decide (p = q)) as [->|Hne].
  - rewrite lookup_alter_eq, Hh. eexists. split; [reflexivity|]. split; assumption.
  - rewrite lookup_alter_ne by exact Hne. exists pq. tauto.
Qed.

Lemma registryOK_CleanupStale r now timeout :
  registryOK r -> registryOK (CleanupStale r now timeout).1.
Proof.
  intros H id q. rewrite CleanupStale_peers.
  destruct (decide (id ∈ _)) as [|Hnin]; [discriminate|]. intros Hq.
  destruct (H id q Hq) as (pq & Hh & Hid & Hc).
  destruct (CleanupStale_heap r now timeout q) as [_ ->].
  - exists pq. tauto.
  - intros (id' & Hin & Hq'). destruct (H id' q Hq') as (pq' & Hh' & Hid' & _).
    rewrite Hh in Hh'. injection Hh' as <-. apply Hnin. congruence.
Qed.

(** X18.  In a registry where every id points to a connected
    descriptor with this id, [AddPeer], [RemovePeer], [UpdateLastPing] and
    [CleanupStale] lead to such a registry, and every descriptor that
    [GetAllPeers] lists is connected and is the one [GetPeer] returns for
    its own id. *)
Theorem registry_ops_keep_wellformed (r : Registry) :
  registryOK r ->
  (forall p now1 now2, registryOK (AddPeer r p now1 now2))
  /\ (forall id, registryOK (RemovePeer r id))
  /\ (forall id now, registryOK (UpdateLastPing r id now))
  /\ (forall now timeout, registryOK (CleanupStale r now timeout).1)
  /\ (forall peer, peer ∈ GetAllPeers r ->
        Connected peer = true /\ GetPeer r (ID peer) = Some peer).
Proof.
  intros H. split; [|split; [|split; [|split]]].
  - intros. apply registryOK_AddPeer, H.
  - intros. apply registryOK_RemovePeer, H.
  - intros. apply registryOK_UpdateLastPing, H.
  - intros. apply registryOK_CleanupStale, H.
  - intros peer Hin. apply GetAllPeers_elem in Hin as (id & Hg). unfold GetPeer in *.
    destruct (peers r !! id) as [p|] eqn:E; [|discriminate].
    destruct (H id p E) as (pq & Hh & Hid & Hc). rewrite Hh in Hg. injection Hg as <-.
    split; [exact Hc|]. rewrite Hid, E. exact Hh.
Qed.

Lemma registryOK_empty heap0 : registryOK (mkRegistry heap0 ∅).
Proof. intros id p H. cbn in H. rewrite lookup_empty in H. discriminate. Qed.

Lemma registry_ops_keep_wellformed_witness :
  registryOK oneEdge
  /\ GetPeer (RemovePeer oneEdge "E") "E" = None
  /\ (forall peer, peer ∈ GetAllPeers oneEdge ->
        Connected peer = true /\ GetPeer oneEdge (ID peer) = Some peer).
Proof.
  assert (H : registryOK oneEdge) by apply registryOK_AddPeer, registryOK_empty.
  split; [exact H|]. split; [vm_compute; reflexivity|].
  apply (registry_ops_keep_wellformed oneEdge H).
Defined.

(** X19.  In such a registry, adding a peer under an id that is
    free and removing it again gives back the entries of the registry:
    the count goes up by one and comes back, [GetPeer] answers as before
    for every id, and the descriptor is left marked disconnected, with the
    ping time of its admission. *)
Theorem registry_add_remove_round_trip (r : Registry) (p : nat) (peer : Peer)
    (now1 now2 : Go.Time) :
  registryOK r ->
  heap r !! p = Some peer ->
  peers r !! ID peer = None ->
  let r1 := AddPeer r p now1 now2 in
  let r2 := RemovePeer r1 (ID peer) in
  GetPeerCount r1 = S (GetPeerCount r)
  /\ (forall id, id <> ID peer -> GetPeer r1 id = GetPeer r id)
  /\ peers r2 = peers r
  /\ (forall id, GetPeer r2 id = GetPeer r id)
  /\ heap r2 !! p
     = Some (mkPeer (ID peer) (Type_ peer) (AccountID peer) (PublicKey peer) (EdgeID peer)
               false now2 (if Go.IsZero (CreatedAt peer) then now1 else CreatedAt peer)).
Proof.
  intros H Hp Hfresh. cbv zeta.
  assert (Hframe : forall id q, peers r !! id = Some q -> q <> p).
  { intros id q Hq ->. destruct (H id p Hq) as (pq & Hh & Hid & _).
    rewrite Hp in Hh. injection Hh as <-. rewrite Hid, Hq in Hfresh. discriminate. }
  unfold RemovePeer, AddPeer, GetPeerCount, GetPeer. rewrite Hp. cbn [peers heap].
  rewrite lookup_insert_eq. cbn [peers heap].
  split; [apply map_size_insert_None; exact Hfresh|].
  split; [|split; [|split]].
  - intros id Hne. rewrite lookup_insert_ne by (intros E; apply Hne; symmetry; exact E).
    destruct (peers r !! id) as [q|] eqn:E; [|reflexivity].
    apply lookup_insert_ne. intros <-. exact (Hframe id p E eq_refl).
  - rewrite delete_insert_eq. apply delete_id. exact Hfresh.
  - intros id. rewrite delete_insert_eq, delete_id by exact Hfresh.
    destruct (peers r !! id) as [q|] eqn:E; [|reflexivity].
    rewrite lookup_alter_ne by (intros <-; exact (Hframe id p E eq_refl)).
    apply lookup_insert_ne. intros <-. exact (Hframe id p E eq_refl).
  - rewrite lookup_alter_eq, lookup_insert_eq. reflexivity.
Qed.

Lemma registry_add_remove_round_trip_witness :
  let heap0 : gmap nat Peer :=
    {[ 1%nat := mkPeer "E" "edge" "" "" "" false Go.zeroTime Go.zeroTime ]} in
  let r := mkRegistry heap0 ∅ in
  let t := Go.Unix 1700000000 in
  peers (RemovePeer (AddPeer r 1 t t) "E") = peers r
  /\ GetPeerCount (AddPeer r 1 t t) = 1%nat.
Proof.
  cbv zeta.
  pose proof (registry_add_remove_round_trip
    (mkRegistry {[ 1%nat := mkPeer "E" "edge" "" "" "" false Go.zeroTime Go.zeroTime ]} ∅)
    1 (mkPeer "E" "edge" "" "" "" false Go.zeroTime Go.zeroTime)
    (Go.Unix 1700000000) (Go.Unix 1700000000)
    (registryOK_empty _) eq_refl eq_refl) as H.
  cbv zeta in H. destruct H as (Hc & _ & Hp & _). split; [exact Hp | exact Hc].
Defined.

End RegistryExtras.

Section HubExtras.

Import Models Registry RegistryMore Signaling Hub Invariants Props Spec.

(** X20.  Whatever happens to a hub that starts empty (admissions,
    refused or not, ends of read loops, pongs and ticks of the clean-up
    loop, one after the other), its connection map and its registry hold
    the same ids, each with the same descriptor. *)
Theorem hub_maps_agree (store : Storage.SQLiteStorage) (actions : list Action) (id : string) :
  pcPeer <$> connections (runActions (New Registry.New store) actions) !! id
  = peers (registry (runActions (New Registry.New store) actions)) !! id.
Proof. apply mapsAgree_runActions, mapsAgree_New. Qed.

(** X21.  A request that [wsMiddleware] lets through is admitted
    under its id whatever the hub holds: the connection map and the
    registry hold the new channel for the id, a message forwarded to the
    id is written to the new channel, a connection held before under the
    id is cancelled and closed, with none held nothing is cancelled or
    closed, and the entries of the other ids, the messages sent and the
    storage are untouched. *)
Theorem admission_takes_over_the_id (s : Server) (conn : nat)
    (peerType id edgeID publicKey : string) (now1 now2 : Go.Time) :
  wsMiddleware peerType id edgeID = None ->
  let s' := step s (Connect conn peerType id edgeID publicKey now1 now2) in
  connections s' !! id = Some (mkPeerConnection conn conn (String.eqb peerType "edge"))
  /\ GetPeer (registry s') id = Some (mkPeer id peerType "" publicKey edgeID true now2 now1)
  /\ forwardMessage s' id = Some conn
  /\ (forall old, connections s !! id = Some old ->
        pcConn old ∈ cancelled s' /\ pcConn old ∈ closed s')
  /\ (connections s !! id = None -> cancelled s' = cancelled s /\ closed s' = closed s)
  /\ (forall id', id' <> id ->
        connections s' !! id' = connections s !! id'
        /\ peers (registry s') !! id' = peers (registry s) !! id')
  /\ sent s' = sent s /\ storage s' = storage s.
Proof.
  intros Hv. cbv zeta. cbn [step]. rewrite Hv.
  apply wsMiddleware_None in Hv as [_ Hid].
  split; [apply handleWebSocket_connections|]. split; [apply handleWebSocket_registry|].
  split.
  { unfold forwardMessage. rewrite handleWebSocket_connections.
    destruct (String.eqb_spec id ""); [contradiction|reflexivity]. }
  split; [intros old Hold; apply handleWebSocket_preempts; exact Hold|].
  unfold handleWebSocket, AddPeer. cbn [heap peers registry withRegistry connections].
  rewrite lookup_insert_eq. cbn [ID].
  split.
  { intros Hnone. rewrite Hnone. split; reflexivity. }
  split.
  { intros id' Hne.
    destruct (connections s !! id); cbn [connections withConnections cancelAndClose
      registry withRegistry peers];
      rewrite !lookup_insert_ne by (intros E; apply Hne; symmetry; exact E);
      split; reflexivity. }
  destruct (connections s !! id); split; reflexivity.
Qed.

Lemma admission_takes_over_the_id_witness :
  let t1 := Go.Unix 1700000000 in
  let t2 := Go.Unix 1700000100 in
  let s1 := step (New Registry.New Storage.empty) (Connect 1 "edge" "E" "" "" t1 t1) in
  let s2 := step s1 (Connect 2 "edge" "E" "" "" t2 t2) in
  connections s1 !! "E" = Some (mkPeerConnection 1 1 true)
  /\ forwardMessage s2 "E" = Some 2%nat
  /\ 1%nat ∈ closed s2.
Proof.
  cbv zeta.
  pose proof (admission_takes_over_the_id
    (step (New Registry.New Storage.empty)
       (Connect 1 "edge" "E" "" "" (Go.Unix 1700000000) (Go.Unix 1700000000)))
    2 "edge" "E" "" "" (Go.Unix 1700000100) (Go.Unix 1700000100) eq_refl) as H.
  cbv zeta in H. destruct H as (_ & _ & Hf & Hold & _).
  split; [vm_compute; reflexivity|]. split; [exact Hf|].
  exact (proj2 (Hold (mkPeerConnection 1 1 true) ltac:(vm_compute; reflexivity))).
Defined.

(** X22.  [wsMiddleware] lets a request through exactly when its id
    is not empty and its type is ["edge"], or ["client"] with an edge id
    that is not empty; a request it refuses leaves the hub as it was. *)
Theorem admission_validation (peerType id edgeID : string) :
  (wsMiddleware peerType id edgeID = None
   <-> (peerType = "edge" \/ (peerType = "client" /\ edgeID <> "")) /\ id <> "")
  /\ (forall s conn publicKey now1 now2,
        wsMiddleware peerType id edgeID <> None ->
        step s (Connect conn peerType id edgeID publicKey now1 now2) = s).
Proof.
  split; [apply wsMiddleware_None|].
  intros s conn publicKey now1 now2 H. cbn [step].
  destruct (wsMiddleware peerType id edgeID); [reflexivity|contradiction].
Qed.

Lemma tick_facts (s : Server) (now : Go.Time) (timeout : Z) :
  let s' := cleanupTick s now timeout in
  let isStale id :=
    exists p, peers (registry s) !! id = Some p /\ stale (registry s) now timeout p = true in
  (forall id, isStale id ->
      peers (registry s') !! id = None /\ connections s' !! id = None)
  /\ (forall id, ~ isStale id ->
        peers (registry s') !! id = peers (registry s) !! id
        /\ connections s' !! id = connections s !! id)
  /\ (forall c, c ∈ cancelled s' <->
        c ∈ cancelled s
        \/ exists id pc, isStale id /\ connections s !! id = Some pc /\ pcConn pc = c)
  /\ closed s' = closed s /\ sent s' = sent s /\ storage s' = storage s.
Proof.
  cbv zeta.
  destruct (cleanupTick_spec s now timeout) as (Hr & Hst & Hcl & Hse & Hco & Hca).
  pose proof (CleanupStale_removed (registry s) now timeout) as Hrem.
  split; [|split; [|split]].
  - intros id Hs. apply Hrem in Hs. rewrite Hr, Hco, CleanupStale_peers.
    rewrite !decide_True by exact Hs. split; reflexivity.
  - intros id Hs. rewrite Hr, Hco, CleanupStale_peers.
    rewrite !decide_False by (intros Hin; apply Hs, Hrem, Hin). split; reflexivity.
  - intros c. rewrite Hca. split.
    + intros [H|(id & pc & Hin & H)]; [left; exact H|].
      right. exists id, pc. split; [apply Hrem; exact Hin | exact H].
    + intros [H|(id & pc & Hin & H)]; [left; exact H|].
      right. exists id, pc. split; [apply Hrem; exact Hin | exact H].
  - tauto.
Qed.

(** X23.  A tick of [cleanupLoop] removes the stale ids, and only
    them, from the registry and from the connection map, and cancels the
    connections they had, and only them; it closes no channel, sends
    nothing and leaves the storage as it was. *)
Theorem tick_removes_exactly_the_stale (s : Server) (now : Go.Time) (timeout : Z) :
  let s' := cleanupTick s now timeout in
  let isStale id :=
    exists p, peers (registry s) !! id = Some p /\ stale (registry s) now timeout p = true in
  (forall id, isStale id ->
      peers (registry s') !! id = None /\ connections s' !! id = None)
  /\ (forall id, ~ isStale id ->
        peers (registry s') !! id = peers (registry s) !! id
        /\ connections s' !! id = connections s !! id)
  /\ (forall c, c ∈ cancelled s' <->
        c ∈ cancelled s
        \/ exists id pc, isStale id /\ connections s !! id = Some pc /\ pcConn pc = c)
  /\ closed s' = closed s /\ sent s' = sent s /\ storage s' = storage s.
Proof. exact (tick_facts s now timeout). Qed.

Lemma stale_after_admission s conn peerType id edgeID publicKey now1 now2 now timeout :
  validClock now2 -> validClock now ->
  - 2 ^ 62 <= unixNano now - unixNano now2 <= 2 ^ 62 ->
  stale (registry (handleWebSocket s conn peerType id edgeID publicKey now1 now2))
    now timeout conn
  = (timeout <? unixNano now - unixNano now2).
Proof.
  intros H2 H Hd. pose proof (handleWebSocket_registry s conn peerType id edgeID publicKey now1 now2) as Hg.
  unfold GetPeer in Hg. rewrite handleWebSocket_peers in Hg.
  unfold stale. rewrite Hg. cbn [LastPing]. rewrite (Sub_unixNano now now2 H H2 Hd).
  reflexivity.
Qed.

(** X24.  A peer admitted at an instant and not heard of since is
    dropped by the tick at a later instant exactly when more than the
    session timeout has passed: then its entries are gone, its connection
    is cancelled and its descriptor is marked disconnected; up to the
    timeout, included, it keeps its connection and its descriptor.  The
    tick closes no channel in either case. *)
Theorem session_expiry (s : Server) (conn : nat) (peerType id edgeID publicKey : string)
    (now1 now2 now : Go.Time) (timeout : Z) :
  wsMiddleware peerType id edgeID = None ->
  validClock now2 -> validClock now ->
  - 2 ^ 62 <= unixNano now - unixNano now2 <= 2 ^ 62 ->
  let s1 := step s (Connect conn peerType id edgeID publicKey now1 now2) in
  let s2 := cleanupTick s1 now timeout in
  (timeout < unixNano now - unixNano now2 ->
     connections s2 !! id = None /\ GetPeer (registry s2) id = None
     /\ conn ∈ cancelled s2
     /\ Connected <$> heap (registry s2) !! conn = Some false)
  /\ (unixNano now - unixNano now2 <= timeout ->
        connections s2 !! id = Some (mkPeerConnection conn conn (String.eqb peerType "edge"))
        /\ GetPeer (registry s2) id
           = Some (mkPeer id peerType "" publicKey edgeID true now2 now1))
  /\ closed s2 = closed s1.
Proof.
  intros Hv H2 H Hd. cbv zeta. cbn [step]. rewrite Hv.
  set (s1 := handleWebSocket s conn peerType id edgeID publicKey now1 now2).
  pose proof (stale_after_admission s conn peerType id edgeID publicKey now1 now2 now timeout H2 H Hd)
    as Hs. fold s1 in Hs.
  pose proof (handleWebSocket_peers s conn peerType id edgeID publicKey now1 now2) as Hp.
  pose proof (handleWebSocket_connections s conn peerType id edgeID publicKey now1 now2) as Hc.
  pose proof (handleWebSocket_registry s conn peerType id edgeID publicKey now1 now2) as Hg.
  fold s1 in Hp, Hc, Hg.
  destruct (tick_facts s1 now timeout) as (Hyes & Hno & Hca & Hcl & _).
  split; [|split; [|exact Hcl]].
  - intros Hlt. apply Z.ltb_lt in Hlt. rewrite Hlt in Hs.
    assert (Hst : exists p, peers (registry s1) !! id = Some p
                            /\ stale (registry s1) now timeout p = true)
      by (exists conn; tauto).
    destruct (Hyes id Hst) as [Hpe Hco].
    split; [exact Hco|]. split; [unfold GetPeer; rewrite Hpe; reflexivity|].
    split.
    + apply Hca. right. eexists id, _. split; [exact Hst|]. split; [exact Hc|reflexivity].
    + destruct (cleanupTick_spec s1 now timeout) as (Hr & _).
      rewrite Hr.
      destruct (CleanupStale_heap (registry s1) now timeout conn) as [-> _].
      * unfold GetPeer in Hg. rewrite Hp in Hg. rewrite Hg. reflexivity.
      * exists id. split; [apply CleanupStale_removed; exact Hst | exact Hp].
  - intros Hle. apply Z.ltb_ge in Hle. rewrite Hle in Hs.
    assert (Hst : ~ exists p, peers (registry s1) !! id = Some p
                              /\ stale (registry s1) now timeout p = true).
    { intros (p & Hp' & Hs'). rewrite Hp in Hp'. injection Hp' as <-. congruence. }
    destruct (Hno id Hst) as [Hpe Hco].
    split; [rewrite Hco; exact Hc|].
    unfold GetPeer in *. rewrite Hpe, Hp. rewrite Hp in Hg.
    destruct (cleanupTick_spec s1 now timeout) as (Hr & _). rewrite Hr.
    destruct (CleanupStale_heap (registry s1) now timeout conn) as [_ ->]; [exact Hg|].
    intros (id' & Hin & Hp'). apply CleanupStale_removed in Hin as (p & Hp'' & Hs').
    rewrite Hp' in Hp''. injection Hp'' as <-. congruence.
Qed.

Lemma session_expiry_witness :
  let t := Go.Unix 1700000000 in
  let s1 := step (New Registry.New Storage.empty) (Connect 1 "edge" "E" "" "" t t) in
  connections (cleanupTick s1 (Go.Unix 1700000031) (30 * Go.Second)) !! "E" = None
  /\ connections (cleanupTick s1 (Go.Unix 1700000030) (30 * Go.Second)) !! "E"
     = Some (mkPeerConnection 1 1 true).
Proof.
  cbv zeta. split.
  - refine (proj1 (proj1 (session_expiry (New Registry.New Storage.empty) 1 "edge" "E" "" ""
      (Go.Unix 1700000000) (Go.Unix 1700000000) (Go.Unix 1700000031) (30 * Go.Second)
      eq_refl _ _ _) _)); vm_compute; repeat split; congruence.
  - refine (proj1 (proj1 (proj2 (session_expiry (New Registry.New Storage.empty) 1 "edge" "E" "" ""
      (Go.Unix 1700000000) (Go.Unix 1700000000) (Go.Unix 1700000030) (30 * Go.Second)
      eq_refl _ _ _)) _)); vm_compute; repeat split; congruence.
Defined.


End HubExtras.

(** ** The configuration file *)

Section ConfigFacts.

Import ConfigFile.

Lemma orText_idem s d : orText (orText s d) d = orText s d.
Proof.
  unfold orText. destruct (String.eqb_spec s "") as [->|H].
  - destruct (String.eqb d ""); reflexivity.
  - destruct (String.eqb_spec s ""); [contradiction|reflexivity].
Qed.

Lemma orInt_idem n d : orInt (orInt n d) d = orInt n d.
Proof.
  unfold orInt. destruct (Z.eqb_spec n 0) as [->|H].
  - destruct (d =? 0); reflexivity.
  - destruct (Z.eqb_spec n 0); [contradiction|reflexivity].
Qed.

Lemma orText_nonempty s d : d <> "" -> orText s d <> "".
Proof. unfold orText. destruct (String.eqb_spec s ""); intros; assumption. Qed.

Lemma orInt_nonzero n d : d <> 0 -> orInt n d <> 0.
Proof. unfold orInt. destruct (Z.eqb_spec n 0); intros; assumption. Qed.

Lemma acme_ok (c : Config) :
  (if Enabled (ACME c) then
     if String.eqb (Email c) "" then Some "email is required when ACME is enabled"
     else if negb (String.eqb (Challenge (ACME c)) "http-01")
             && negb (String.eqb (Challenge (ACME c)) "tls-alpn-01")
             && negb (String.eqb (Challenge (ACME c)) "dns-01")
     then Some ("invalid ACME challenge type: " +:+ Challenge (ACME c))
     else if String.eqb (Challenge (ACME c)) "dns-01" && String.eqb (DNSProvider (ACME c)) ""
     then Some "dns_provider is required for dns-01 challenge"
     else None
   else None) = None ->
  Enabled (ACME c) = true ->
  Email c <> ""
  /\ (Challenge (ACME c) = "http-01" \/ Challenge (ACME c) = "tls-alpn-01"
      \/ (Challenge (ACME c) = "dns-01" /\ DNSProvider (ACME c) <> "")).
Proof.
  intros H He. rewrite He in H.
  destruct (String.eqb_spec (Email c) "") as [|Hem]; [discriminate|].
  split; [exact Hem|].
  destruct (String.eqb_spec (Challenge (ACME c)) "http-01") as [H1|H1]; [left; exact H1|].
  destruct (String.eqb_spec (Challenge (ACME c)) "tls-alpn-01") as [H2|H2];
    [right; left; exact H2|].
  destruct (String.eqb_spec (Challenge (ACME c)) "dns-01") as [H3|H3];
    cbn [negb andb] in H; [|discriminate].
  destruct (String.eqb_spec (DNSProvider (ACME c)) "") as [|H4]; [discriminate|].
  right; right. tauto.
Qed.

(** X26.  Applying the defaults of the configuration twice is
    applying them once. *)
Theorem applyDefaults_idempotent (cfg : Config) :
  applyDefaults (applyDefaults cfg) = applyDefaults cfg.
Proof.
  destruct cfg as [domain email certDir [en ca ch h1 h2 dp dc dt dpt]
    [realm ip [udp tcp tls] [mn mx] [mode secret old ttl users]]
    [[ws wss] mp st] [ap co ak] [adp tok bind] [lvl fmt]].
  unfold applyDefaults. cbn -[orText orInt Z.mul].
  rewrite !orText_idem, !orInt_idem.
  destruct en; cbn -[orText orInt Z.mul]; rewrite ?orText_idem; reflexivity.
Qed.

(** X27.  A configuration that [Load] returns is the one of the
    file with the defaults applied, and applying them again changes
    nothing; its domain, its realm and its admin token are not empty; its
    TLS port, its time to live and its session timeout are not zero; its
    mode is ["rest"] with a secret that is not empty, or ["static"] with
    at least one user; and with ACME enabled it has an email and one of
    the three challenges, with a provider for ["dns-01"]. *)
Theorem loaded_config_is_complete (cfg cfg' : Config) :
  Load cfg = inl cfg' ->
  cfg' = applyDefaults cfg
  /\ applyDefaults cfg' = cfg'
  /\ Domain cfg' <> "" /\ Realm (Turn cfg') <> "" /\ Token (Admin cfg') <> ""
  /\ TLS (Ports (Turn cfg')) <> 0 /\ TTLSeconds (Auth (Turn cfg')) <> 0
  /\ SessionTimeout (Signaling cfg') <> 0
  /\ ((Mode (Auth (Turn cfg')) = "rest" /\ Secret (Auth (Turn cfg')) <> "")
      \/ (Mode (Auth (Turn cfg')) = "static" /\ StaticUsers (Auth (Turn cfg')) <> []))
  /\ (Enabled (ACME cfg') = true ->
        Email cfg' <> ""
        /\ (Challenge (ACME cfg') = "http-01" \/ Challenge (ACME cfg') = "tls-alpn-01"
            \/ (Challenge (ACME cfg') = "dns-01" /\ DNSProvider (ACME cfg') <> ""))).
Proof.
  unfold Load. destruct (validate (applyDefaults cfg)) as [e|] eqn:Ev; [discriminate|].
  intros [= <-]. split; [reflexivity|]. split; [apply applyDefaults_idempotent|].
  set (c := applyDefaults cfg) in *.
  assert (Hrealm : Realm (Turn c) = orText (Realm (Turn cfg)) (Domain c)) by reflexivity.
  assert (Htls : TLS (Ports (Turn c)) = orInt (TLS (Ports (Turn cfg))) 5349) by reflexivity.
  assert (Httl : TTLSeconds (Auth (Turn c)) = orInt (TTLSeconds (Auth (Turn cfg))) 86400)
    by reflexivity.
  assert (Hst : SessionTimeout (Signaling c)
                = orInt (SessionTimeout (Signaling cfg)) (300 * Go.Second)) by reflexivity.
  clearbody c. unfold validate in Ev.
  destruct (String.eqb_spec (Domain c) "") as [|Hd]; [discriminate|].
  cbv zeta in Ev.
  match type of Ev with match ?x with _ => _ end = _ => destruct x as [e|] eqn:Eacme end;
    [discriminate|].
  destruct (String.eqb_spec (Mode (Auth (Turn c))) "rest") as [Hr|Hr];
    destruct (String.eqb_spec (Mode (Auth (Turn c))) "static") as [Hs|Hs];
    cbn [negb andb] in Ev; try discriminate.
  - rewrite Hr in Hs. discriminate.
  - destruct (String.eqb_spec (Secret (Auth (Turn c))) "") as [|Hsec]; [discriminate|].
    destruct (String.eqb_spec (Token (Admin c)) "") as [|Htok]; [discriminate|].
    split; [exact Hd|]. split; [rewrite Hrealm; apply orText_nonempty, Hd|].
    split; [exact Htok|]. split; [rewrite Htls; apply orInt_nonzero; lia|].
    split; [rewrite Httl; apply orInt_nonzero; lia|].
    split; [rewrite Hst; apply orInt_nonzero; unfold Go.Second; lia|].
    split; [left; tauto|]. apply (acme_ok c Eacme).
  - destruct (StaticUsers (Auth (Turn c))) as [|u us] eqn:Eu; [discriminate|].
    cbn [length] in Ev. rewrite Nat2Z.inj_succ in Ev.
    destruct (Z.eqb_spec (Z.succ (Z.of_nat (length us))) 0) as [|_]; [lia|].
    destruct (String.eqb_spec (Token (Admin c)) "") as [|Htok]; [discriminate|].
    split; [exact Hd|]. split; [rewrite Hrealm; apply orText_nonempty, Hd|].
    split; [exact Htok|]. split; [rewrite Htls; apply orInt_nonzero; lia|].
    split; [rewrite Httl; apply orInt_nonzero; lia|].
    split; [rewrite Hst; apply orInt_nonzero; unfold Go.Second; lia|].
    split; [right; split; [exact Hs | discriminate]|]. apply (acme_ok c Eacme).
Qed.

Lemma loaded_config_is_complete_witness :
  let cfg :=
    mkConfig "turn.example.com" "" ""
      (mkACMEConfig false "" "" "" "" "" [] "" "")
      (mkTurnConfig "" "" (mkTurnPorts 0 0 0) (mkPortRange 0 0)
         (mkAuthConfig "rest" "s3cret" [] 0 []))
      (mkSignalingConfig (mkSignalingPorts 0 0) 0 0)
      (mkAPIConfig 0 [] (mkAPIKeyConfig "" ""))
      (mkAdminConfig 0 "token" "") (mkLoggingConfig "" "") in
  Load cfg = inl (applyDefaults cfg)
  /\ Realm (Turn (applyDefaults cfg)) <> ""
  /\ TTLSeconds (Auth (Turn (applyDefaults cfg))) <> 0.
Proof.
  cbv zeta. split; [vm_compute; reflexivity|].
  match goal with
  | |- Realm (Turn (applyDefaults ?c)) <> _ /\ _ =>
      destruct (loaded_config_is_complete c (applyDefaults c) ltac:(vm_compute; reflexivity))
        as (_ & _ & _ & Hrealm & _ & _ & Httl & _)
  end.
  split; [exact Hrealm | exact Httl].
Defined.

End ConfigFacts.

(** ** API keys *)

Section Base64Facts.

Import Base64 Invariants Props.

Lemma list_ind3 {A} (P : list A -> Prop) :
  P [] -> (forall a, P [a]) -> (forall a b, P [a; b]) ->
  (forall a b c l, P l -> P (a :: b :: c :: l)) ->
  forall l, P l.
Proof.
  intros H0 H1 H2 H3.
  assert (H : forall l, P l /\ (forall a, P (a :: l)) /\ (forall a b, P (a :: b :: l))).
  { induction l as [|x l (IH0 & IH1 & IH2)].
    - split; [exact H0|]. split; [exact H1 | exact H2].
    - split; [apply IH1|]. split; [intros a; apply IH2|]. intros a b. apply H3, IH0. }
  intros l. apply H.
Qed.

Lemma lor_disjoint a b n :
  0 <= n -> 0 <= b < 2 ^ n -> Z.lor (Z.shiftl a n) b = a * 2 ^ n + b.
Proof.
  intros Hn Hb.
  assert (Hland : Z.land (Z.shiftl a n) b = 0).
  { apply Z.bits_inj'. intros m Hm. rewrite Z.land_spec, Z.bits_0.
    destruct (Z_lt_ge_dec m n) as [Hlt|Hge].
    - rewrite Z.shiftl_spec_low by exact Hlt. reflexivity.
    - destruct (Z.eq_dec b 0) as [->|Hb0]; [rewrite Z.bits_0; apply andb_false_r|].
      assert (Hlog : Z.log2 b < n) by (apply Z.log2_lt_pow2; lia).
      rewrite (Z.bits_above_log2 b m) by lia.
      apply andb_false_r. }
  rewrite <- Z.lxor_lor by exact Hland.
  rewrite <- Z.add_nocarry_lxor by exact Hland.
  rewrite Z.shiftl_mul_pow2 by exact Hn. reflexivity.
Qed.

Lemma land_63 x : Z.land x 63 = x mod 64.
Proof. change 63 with (Z.ones 6). rewrite Z.land_ones by lia. reflexivity. Qed.

Lemma sextet_range x : 0 <= Z.land x 63 < 64.
Proof. rewrite land_63. apply Z.mod_pos_bound. lia. Qed.

Lemma lor_mul a b n :
  0 <= n -> 0 <= b < 2 ^ n -> Z.lor (a * 2 ^ n) b = a * 2 ^ n + b.
Proof.
  intros Hn Hb. rewrite <- (lor_disjoint a b n Hn Hb), Z.shiftl_mul_pow2 by exact Hn.
  reflexivity.
Qed.

(** The value of three bytes and of four sextets. *)
Lemma val3 a b c :
  isByte b -> isByte c ->
  Z.lor (Z.lor (Z.shiftl a 16) (Z.shiftl b 8)) c = a * 65536 + b * 256 + c.
Proof.
  intros Hb Hc. unfold isByte in *.
  replace (Z.shiftl a 16) with (Z.shiftl (a * 256) 8)
    by (rewrite !Z.shiftl_mul_pow2 by lia; change (2 ^ 8) with 256;
        change (2 ^ 16) with 65536; lia).
  rewrite <- Z.shiftl_lor.
  replace (Z.lor (a * 256) b) with (a * 256 + b)
    by (symmetry; apply (lor_mul a b 8); lia).
  rewrite (lor_disjoint (a * 256 + b) c 8) by lia. change (2 ^ 8) with 256. lia.
Qed.

Lemma val4 v0 v1 v2 v3 :
  0 <= v1 < 64 -> 0 <= v2 < 64 -> 0 <= v3 < 64 ->
  Z.lor (Z.lor (Z.lor (Z.shiftl v0 18) (Z.shiftl v1 12)) (Z.shiftl v2 6)) v3
  = v0 * 262144 + v1 * 4096 + v2 * 64 + v3.
Proof.
  intros H1 H2 H3.
  replace (Z.shiftl v0 18) with (Z.shiftl (v0 * 64) 12)
    by (rewrite !Z.shiftl_mul_pow2 by lia; change (2 ^ 12) with 4096;
        change (2 ^ 18) with 262144; lia).
  rewrite <- Z.shiftl_lor.
  replace (Z.lor (v0 * 64) v1) with (v0 * 64 + v1)
    by (symmetry; apply (lor_mul v0 v1 6); lia).
  replace (Z.shiftl (v0 * 64 + v1) 12) with (Z.shiftl ((v0 * 64 + v1) * 64) 6)
    by (rewrite !Z.shiftl_mul_pow2 by lia; change (2 ^ 12) with 4096;
        change (2 ^ 6) with 64; lia).
  rewrite <- Z.shiftl_lor.
  replace (Z.lor ((v0 * 64 + v1) * 64) v2) with ((v0 * 64 + v1) * 64 + v2)
    by (symmetry; apply (lor_mul (v0 * 64 + v1) v2 6); lia).
  rewrite (lor_disjoint _ v3 6) by lia. change (2 ^ 6) with 64. lia.
Qed.

Lemma quantum3 a b c :
  isByte a -> isByte b -> isByte c ->
  let val := Z.lor (Z.lor (Z.shiftl a 16) (Z.shiftl b 8)) c in
  let val' := Z.lor (Z.lor (Z.lor (Z.shiftl (Z.land (Z.shiftr val 18) 63) 18)
                              (Z.shiftl (Z.land (Z.shiftr val 12) 63) 12))
                       (Z.shiftl (Z.land (Z.shiftr val 6) 63) 6))
                (Z.land val 63) in
  Z.shiftr val' 16 mod 256 = a /\ Z.shiftr val' 8 mod 256 = b /\ val' mod 256 = c.
Proof.
  intros Ha Hb Hc. cbv zeta.
  rewrite (val3 a b c Hb Hc).
  rewrite val4 by apply sextet_range.
  rewrite !land_63, !Z.shiftr_div_pow2 by lia.
  change (2 ^ 18) with 262144. change (2 ^ 12) with 4096. change (2 ^ 6) with 64.
  change (2 ^ 16) with 65536. change (2 ^ 8) with 256.
  unfold isByte in *.
  set (n := a * 65536 + b * 256 + c).
  assert (Hn : 0 <= n < 16777216) by (subst n; lia).
  assert (Hv : n / 262144 mod 64 * 262144 + n / 4096 mod 64 * 4096 + n / 64 mod 64 * 64
               + n mod 64 = n).
  { clearbody n. Z.div_mod_to_equations. lia. }
  rewrite Hv. subst n. Z.div_mod_to_equations. lia.
Qed.

Lemma val4_2 v0 v1 :
  0 <= v1 < 64 ->
  Z.lor (Z.shiftl v0 18) (Z.shiftl v1 12) = v0 * 262144 + v1 * 4096.
Proof.
  intros H1.
  pose proof (val4 v0 v1 0 0 H1 ltac:(lia) ltac:(lia)) as H.
  rewrite Z.shiftl_0_l, !Z.lor_0_r in H. lia.
Qed.

Lemma val4_3 v0 v1 v2 :
  0 <= v1 < 64 -> 0 <= v2 < 64 ->
  Z.lor (Z.lor (Z.shiftl v0 18) (Z.shiftl v1 12)) (Z.shiftl v2 6)
  = v0 * 262144 + v1 * 4096 + v2 * 64.
Proof.
  intros H1 H2.
  pose proof (val4 v0 v1 v2 0 H1 H2 ltac:(lia)) as H.
  rewrite Z.lor_0_r in H. lia.
Qed.

Lemma quantum1 a :
  isByte a ->
  let val := Z.shiftl a 16 in
  let val' := Z.lor (Z.shiftl (Z.land (Z.shiftr val 18) 63) 18)
                (Z.shiftl (Z.land (Z.shiftr val 12) 63) 12) in
  Z.shiftr val' 16 mod 256 = a.
Proof.
  intros Ha. cbv zeta. rewrite val4_2 by apply sextet_range.
  rewrite !land_63, !Z.shiftr_div_pow2, Z.shiftl_mul_pow2 by lia.
  change (2 ^ 18) with 262144. change (2 ^ 12) with 4096. change (2 ^ 16) with 65536.
  unfold isByte in *. Z.div_mod_to_equations. lia.
Qed.

Lemma quantum2 a b :
  isByte a -> isByte b ->
  let val := Z.lor (Z.shiftl a 16) (Z.shiftl b 8) in
  let val' := Z.lor (Z.lor (Z.shiftl (Z.land (Z.shiftr val 18) 63) 18)
                       (Z.shiftl (Z.land (Z.shiftr val 12) 63) 12))
                (Z.shiftl (Z.land (Z.shiftr val 6) 63) 6) in
  Z.shiftr val' 16 mod 256 = a /\ Z.shiftr val' 8 mod 256 = b.
Proof.
  intros Ha Hb. cbv zeta. rewrite val4_3 by apply sextet_range.
  pose proof (val3 a b 0 Hb ltac:(unfold isByte; lia)) as Hv.
  rewrite Z.lor_0_r, Z.add_0_r in Hv. rewrite Hv.
  rewrite !land_63, !Z.shiftr_div_pow2 by lia.
  change (2 ^ 18) with 262144. change (2 ^ 12) with 4096. change (2 ^ 6) with 64.
  change (2 ^ 16) with 65536. change (2 ^ 8) with 256.
  unfold isByte in *.
  set (n := a * 65536 + b * 256).
  assert (Hn : 0 <= n < 16777216 /\ n mod 256 = 0) by (subst n; split; [lia|]; Z.div_mod_to_equations; lia).
  assert (Hv' : n / 262144 mod 64 * 262144 + n / 4096 mod 64 * 4096 + n / 64 mod 64 * 64
               = n - n mod 64).
  { clearbody n. Z.div_mod_to_equations. lia. }
  rewrite Hv'. assert (n mod 64 = 0) as -> by (clearbody n; Z.div_mod_to_equations; lia).
  rewrite Z.sub_0_r. subst n. Z.div_mod_to_equations. lia.
Qed.

Lemma sextet_listed v : 0 <= v < 64 -> List.In v (List.map Z.of_nat (List.seq 0 64)).
Proof.
  intros H. apply List.in_map_iff. exists (Z.to_nat v). split; [lia|].
  apply List.in_seq. lia.
Qed.

Lemma alphabetOK_spec enc c v :
  alphabetOK enc c = true -> 0 <= v < 64 ->
  decodeMap enc (enc v) = Some v /\ enc v <> c.
Proof.
  intros H Hv. unfold alphabetOK in H. rewrite List.forallb_forall in H.
  specialize (H v (sextet_listed v Hv)).
  apply andb_true_iff in H as [H Hc]. apply andb_true_iff in H as [H _].
  apply andb_true_iff in H as [H _].
  split.
  - destruct (decodeMap enc (enc v)) as [w|]; [|discriminate].
    apply Z.eqb_eq in H. congruence.
  - intros E. rewrite E, Ascii.eqb_refl in Hc. discriminate.
Qed.

Lemma alphabetOK_Std : alphabetOK StdAlphabet ":" = true.
Proof. vm_compute. reflexivity. Qed.

Lemma alphabetOK_URL : alphabetOK URLAlphabet ":" = true.
Proof. vm_compute. reflexivity. Qed.

(** Decoding undoes encoding. *)
Lemma decode_encode enc c (bs : list Z) :
  alphabetOK enc c = true -> Forall isByte bs ->
  exists vs, sextets enc (EncodeToString enc bs) = Some vs /\ quanta vs = Some bs.
Proof.
  intros Hok. induction bs as [|a|a b|a b d bs IH] using list_ind3; intros Hb.
  - exists []. split; reflexivity.
  - apply Forall_cons in Hb as [Ha _].
    cbn [EncodeToString sextets]. cbv zeta.
    rewrite !(proj1 (alphabetOK_spec enc c _ Hok (sextet_range _))).
    eexists. split; [reflexivity|]. cbn [quanta]. cbv zeta.
    rewrite (quantum1 a Ha). reflexivity.
  - apply Forall_cons in Hb as [Ha Hb]. apply Forall_cons in Hb as [Hb _].
    cbn [EncodeToString sextets]. cbv zeta.
    rewrite !(proj1 (alphabetOK_spec enc c _ Hok (sextet_range _))).
    eexists. split; [reflexivity|]. cbn [quanta]. cbv zeta.
    destruct (quantum2 a b Ha Hb) as [-> ->]. reflexivity.
  - apply Forall_cons in Hb as [Ha Hb]. apply Forall_cons in Hb as [Hb Hd].
    apply Forall_cons in Hd as [Hd Hrest].
    destruct (IH Hrest) as (vs & Hs & Hq).
    cbn [EncodeToString sextets]. cbv zeta.
    rewrite !(proj1 (alphabetOK_spec enc c _ Hok (sextet_range _))), Hs.
    eexists. split; [reflexivity|]. cbn [quanta]. cbv zeta. rewrite Hq.
    destruct (quantum3 a b d Ha Hb Hd) as (-> & -> & ->). reflexivity.
Qed.

Lemma DecodeString_EncodeToString enc c bs :
  alphabetOK enc c = true -> Forall isByte bs ->
  DecodeString enc (EncodeToString enc bs) = Some bs.
Proof.
  intros Hok Hb. unfold DecodeString.
  destruct (decode_encode enc c bs Hok Hb) as (vs & -> & Hq). exact Hq.
Qed.

Lemma EncodeToString_length enc bs :
  String.length (EncodeToString enc bs) = ((4 * length bs + 2) / 3)%nat.
Proof.
  induction bs as [|a|a b|a b d bs IH] using list_ind3; try reflexivity.
  cbn [EncodeToString String.length length]. cbv zeta. cbn [String.length]. rewrite IH.
  replace (4 * S (S (S (length bs))) + 2)%nat with ((4 * length bs + 2) + 4 * 3)%nat by lia.
  rewrite Nat.div_add by lia. lia.
Qed.

Lemma EncodeToString_free enc c bs :
  alphabetOK enc c = true -> Go.ContainsByte (EncodeToString enc bs) c = false.
Proof.
  intros Hok.
  assert (Hc : forall x, Ascii.eqb (enc (Z.land x 63)) c = false).
  { intros x. apply Ascii.eqb_neq. apply (alphabetOK_spec enc c _ Hok (sextet_range x)). }
  induction bs as [|a|a b|a b d bs IH] using list_ind3;
    cbn [EncodeToString Go.ContainsByte]; cbv zeta; cbn [Go.ContainsByte];
    rewrite ?Hc, ?IH; reflexivity.
Qed.

End Base64Facts.

Section ApiKeyFacts.

Import Base64 Subtle ApiKey Invariants Props.

Lemma differences_zero x : forall y v,
  length x = length y -> (differences x y v = 0 <-> v = 0 /\ x = y).
Proof.
  induction x as [|a x IH]; intros [|b y] v Hl; try discriminate; cbn [differences].
  - split; [intros ->; split; reflexivity | intros [-> _]; reflexivity].
  - rewrite (IH y _ ltac:(cbn in Hl; lia)). rewrite Z.lor_eq_0_iff, Z.lxor_eq_0_iff.
    split.
    + intros [[-> ->] ->]. split; reflexivity.
    + intros [-> [= -> ->]]. repeat split; reflexivity.
Qed.

Lemma ConstantTimeCompare_1 x y : ConstantTimeCompare x y = 1 <-> x = y.
Proof.
  unfold ConstantTimeCompare, ConstantTimeByteEq.
  destruct (Nat.eqb_spec (length x) (length y)) as [Hl|Hl]; cbn [negb].
  - destruct (Z.eqb_spec (differences x y 0) 0) as [H|H].
    + apply (differences_zero x y 0 Hl) in H as [_ ->]. split; reflexivity.
    + split; [discriminate|]. intros ->. exfalso. apply H.
      apply differences_zero; [reflexivity|]. split; reflexivity.
  - split; [discriminate | intros ->; contradiction].
Qed.

Lemma substring_all s : String.substring 0 (String.length s) s = s.
Proof. induction s as [|c s IH]; cbn; [reflexivity | rewrite IH; reflexivity]. Qed.

Lemma substring_none s : String.substring 0 0 s = "".
Proof. destruct s; reflexivity. Qed.

Lemma ValidateFormat_Generate randomBytes :
  Forall isByte randomBytes -> length randomBytes = KeyLength ->
  ValidateFormat (Generate randomBytes) = true.
Proof.
  intros Hb Hl. unfold ValidateFormat, Generate, KeyPrefix.
  set (e := EncodeToString URLAlphabet randomBytes).
  assert (He : String.length e = 43%nat).
  { subst e. rewrite EncodeToString_length, Hl. reflexivity. }
  change ("arq_" +:+ e) with (String "a" (String "r" (String "q" (String "_" e)))).
  cbn [String.length]. rewrite He. cbn [Nat.ltb Nat.leb Nat.eqb Nat.add negb].
  cbn [String.substring]. rewrite substring_none.
  cbn [String.eqb Ascii.eqb Bool.eqb negb Nat.sub].
  rewrite <- He, substring_all.
  subst e. rewrite (DecodeString_EncodeToString _ ":" _ alphabetOK_URL Hb), Hl.
  reflexivity.
Qed.

Section WithArgon2.

Variable IDKey : list Z -> list Z -> Z -> Z -> Z -> Z -> list Z.
Hypothesis IDKey_bytes : forall password salt time memory threads keyLen,
  Forall isByte (IDKey password salt time memory threads keyLen).

Lemma parseHash_Hash apiKey salt :
  Forall isByte salt ->
  parseHash (Hash IDKey apiKey salt)
  = Some (salt, IDKey (Go.bytesOf apiKey) salt Argon2Time Argon2Memory Argon2Threads
                  Argon2KeyLen).
Proof.
  intros Hs. unfold parseHash, Hash.
  change (?a +:+ ":" +:+ ?b) with (a +:+ String ":" b).
  rewrite (Cut_app _ _ _ (EncodeToString_free StdAlphabet ":" salt alphabetOK_Std)).
  rewrite (DecodeString_EncodeToString _ ":" _ alphabetOK_Std Hs).
  rewrite (DecodeString_EncodeToString _ ":" _ alphabetOK_Std (IDKey_bytes _ _ _ _ _ _)).
  reflexivity.
Qed.

Lemma Validate_Hash apiKey apiKey' salt :
  Forall isByte salt ->
  (Validate IDKey apiKey' (Hash IDKey apiKey salt) = true
   <-> IDKey (Go.bytesOf apiKey') salt Argon2Time Argon2Memory Argon2Threads Argon2KeyLen
       = IDKey (Go.bytesOf apiKey) salt Argon2Time Argon2Memory Argon2Threads Argon2KeyLen).
Proof.
  intros Hs. unfold Validate. rewrite (parseHash_Hash apiKey salt Hs).
  rewrite Z.eqb_eq, ConstantTimeCompare_1. split; intros H; symmetry; exact H.
Qed.

End WithArgon2.

Lemma Cut_space_Bearer key : Go.Cut ("Bearer " +:+ key) " " = Some ("Bearer", key).
Proof. reflexivity. Qed.

Lemma APIKeyAuth_None IDKey apiKeyHash authHeader :
  APIKeyAuth IDKey apiKeyHash authHeader = None
  <-> exists key, authHeader = "Bearer " +:+ key
        /\ ValidateFormat key = true /\ Validate IDKey key apiKeyHash = true.
Proof.
  unfold APIKeyAuth. split.
  - destruct (String.eqb authHeader ""); [discriminate|].
    cbn [Go.SplitN]. destruct (Go.Cut authHeader " ") as [[scheme key]|] eqn:E; [|discriminate].
    destruct (String.eqb_spec scheme "Bearer") as [->|]; [|discriminate]. cbn [negb].
    destruct (ValidateFormat key) eqn:Ef; [|discriminate]. cbn [negb].
    destruct (Validate IDKey key apiKeyHash) eqn:Ev; [|discriminate]. intros _.
    exists key. apply Cut_Some in E as [-> _]. repeat split; assumption.
  - intros (key & -> & Hf & Hv). cbn [Go.SplitN]. rewrite Cut_space_Bearer.
    cbn [String.eqb String.append Ascii.eqb Bool.eqb negb]. rewrite Hf, Hv. reflexivity.
Qed.

End ApiKeyFacts.

Section ApiKeyExtras.

Import Base64 Subtle ApiKey Invariants Props.

(** X28.  Whatever the 32 random bytes of the key and the bytes of
    the salt, and whatever function Argon2id is (as long as it returns
    bytes), the key of
    [GenerateWithHash] has 47 characters and passes [ValidateFormat], it
    passes [Validate] against its hash, and a request that carries it as
    bearer token passes [APIKeyAuth] for that hash. *)
Theorem issued_api_key_is_accepted
    (IDKey : list Z -> list Z -> Z -> Z -> Z -> Z -> list Z)
    (randomBytes salt : list Z) :
  (forall password s time memory threads keyLen,
      Forall isByte (IDKey password s time memory threads keyLen)) ->
  Forall isByte randomBytes -> length randomBytes = KeyLength ->
  Forall isByte salt ->
  let issued := GenerateWithHash IDKey randomBytes salt in
  String.length issued.1 = 47%nat
  /\ ValidateFormat issued.1 = true
  /\ Validate IDKey issued.1 issued.2 = true
  /\ APIKeyAuth IDKey issued.2 ("Bearer " +:+ issued.1) = None.
Proof.
  intros Hk Hb Hl Hs. cbv zeta. unfold GenerateWithHash. cbn [fst snd].
  assert (Hf := ValidateFormat_Generate randomBytes Hb Hl).
  assert (Hv : Validate IDKey (Generate randomBytes)
                 (Hash IDKey (Generate randomBytes) salt) = true)
    by (apply (Validate_Hash IDKey Hk); [exact Hs | reflexivity]).
  split.
  { unfold Generate, KeyPrefix.
    change ("arq_" +:+ ?e) with (String "a" (String "r" (String "q" (String "_" e)))).
    cbn [String.length]. rewrite EncodeToString_length, Hl. reflexivity. }
  split; [exact Hf|]. split; [exact Hv|].
  apply APIKeyAuth_None. exists (Generate randomBytes). repeat split; assumption.
Qed.

Lemma sampleKDF_bytes password salt time memory threads keyLen :
  Forall isByte (sampleKDF password salt time memory threads keyLen).
Proof.
  unfold sampleKDF. apply Forall_forall. intros b Hin.
  apply list_elem_of_In, List.in_map_iff in Hin as (x & <- & _).
  apply Z.mod_pos_bound. lia.
Qed.

Lemma bytes_repeat b n : isByte b -> Forall isByte (List.repeat b n).
Proof. intros H. induction n; cbn; constructor; assumption. Qed.

Lemma issued_api_key_is_accepted_witness :
  let issued := GenerateWithHash sampleKDF (List.repeat 7 32) (List.repeat 9 16) in
  issued.1 = "arq_BwcHBwcHBwcHBwcHBwcHBwcHBwcHBwcHBwcHBwcHBwc"
  /\ APIKeyAuth sampleKDF issued.2 ("Bearer " +:+ issued.1) = None.
Proof.
  cbv zeta. split; [vm_compute; reflexivity|].
  apply (issued_api_key_is_accepted sampleKDF (List.repeat 7 32) (List.repeat 9 16)
           sampleKDF_bytes).
  - apply bytes_repeat. unfold isByte. lia.
  - reflexivity.
  - apply bytes_repeat. unfold isByte. lia.
Defined.

(** X29.  [parseHash] reads back the salt and the derived key that
    [Hash] wrote, and [Validate] accepts a key against the hash of
    another exactly when Argon2id derives the same bytes from both under
    the salt of the hash. *)
Theorem api_key_hash_accepts_same_derived_key
    (IDKey : list Z -> list Z -> Z -> Z -> Z -> Z -> list Z)
    (apiKey apiKey' : string) (salt : list Z) :
  (forall password s time memory threads keyLen,
      Forall isByte (IDKey password s time memory threads keyLen)) ->
  Forall isByte salt ->
  parseHash (Hash IDKey apiKey salt)
  = Some (salt, IDKey (Go.bytesOf apiKey) salt Argon2Time Argon2Memory Argon2Threads
                  Argon2KeyLen)
  /\ (Validate IDKey apiKey' (Hash IDKey apiKey salt) = true
      <-> IDKey (Go.bytesOf apiKey') salt Argon2Time Argon2Memory Argon2Threads Argon2KeyLen
          = IDKey (Go.bytesOf apiKey) salt Argon2Time Argon2Memory Argon2Threads
              Argon2KeyLen).
Proof.
  intros Hk Hs. split.
  - apply (parseHash_Hash IDKey Hk), Hs.
  - apply (Validate_Hash IDKey Hk), Hs.
Qed.

Lemma api_key_hash_accepts_same_derived_key_witness :
  Validate sampleKDF "arq_other" (Hash sampleKDF "arq_key" [1; 2; 3]) = false
  /\ Validate sampleKDF "arq_key" (Hash sampleKDF "arq_key" [1; 2; 3]) = true.
Proof.
  split; [vm_compute; reflexivity|].
  apply (api_key_hash_accepts_same_derived_key sampleKDF "arq_key" "arq_key" [1; 2; 3]
           sampleKDF_bytes).
  - repeat constructor; unfold isByte; lia.
  - reflexivity.
Defined.

(** X30.  [APIKeyAuth] lets a request through exactly when its
    [Authorization] header is ["Bearer "] followed by a key that passes
    [ValidateFormat] and [Validate]; a key that passes [ValidateFormat]
    has 47 characters, starts with ["arq_"] and carries 32 bytes in
    base64url; and no key passes [Validate] against a hash without a
    colon. *)
Theorem api_key_auth_accepts_iff
    (IDKey : list Z -> list Z -> Z -> Z -> Z -> Z -> list Z)
    (apiKeyHash authHeader : string) :
  (APIKeyAuth IDKey apiKeyHash authHeader = None
   <-> exists key, authHeader = "Bearer " +:+ key
         /\ ValidateFormat key = true /\ Validate IDKey key apiKeyHash = true)
  /\ (forall key, ValidateFormat key = true ->
        String.length key = 47%nat /\ String.substring 0 4 key = "arq_"
        /\ exists decoded,
             DecodeString URLAlphabet (String.substring 4 43 key) = Some decoded
             /\ length decoded = 32%nat)
  /\ (Go.Cut apiKeyHash ":" = None -> forall key, Validate IDKey key apiKeyHash = false).
Proof.
  split; [apply APIKeyAuth_None|]. split.
  - intros key. unfold ValidateFormat, KeyPrefix, KeyLength. cbn [String.length].
    destruct (Nat.ltb _ _); [discriminate|].
    destruct (String.eqb_spec (String.substring 0 4 key) "arq_") as [Hp|]; [|discriminate].
    cbn [negb]. destruct (Nat.eqb_spec (String.length key) (4 + 43)) as [Hl|]; [|discriminate].
    cbn [negb]. replace (String.length key - 4)%nat with 43%nat by lia.
    destruct (DecodeString URLAlphabet (String.substring 4 43 key)) as [decoded|];
      [|discriminate].
    intros Hd. apply Nat.eqb_eq in Hd. split; [exact Hl|]. split; [exact Hp|].
    exists decoded. split; [reflexivity | exact Hd].
  - intros Hc key. unfold Validate, parseHash. rewrite Hc. reflexivity.
Qed.

End ApiKeyExtras.
